(** * finequity-plaid-frontend: the stream normalizer, the local cache and the
      page controller, embedded from the JavaScript sources.

    - [Formatter]: [toRecurringItems] of the recurring-data formatter
      (three copies in the repository: one reads the outflow list only, two
      merge the inflow and the outflow list and are the same code).
    - [Cache]: [readCache] and [writeCache] of [LinkPage.jsx].
    - [LinkPage]: the component state, its mount effect, [fetchFromApi],
      [handlePlaidData] and the branch the render function takes.
    - [Subscriptions]: the text helpers [toUSD], [humanize] and [freqText]
      and the texts the subscription list computes for an item.
    - [PlaidButton]: [onSuccess] of the link button, with [handlePlaidData]
      of the page as its [onData].

    JavaScript values are modelled as they are, loosely typed; numbers are
    IEEE binary64 (Rocq's primitive floats); a function that can throw
    returns a [completion]. *)

From Stdlib Require Import ZArith List String Ascii Floats Permutation Sorted Lia.
From stdpp Require Import gmap strings.

Set Warnings "-inexact-float,-register-all".
Open Scope string_scope.
Open Scope list_scope.

(* ================================================================== *)
(** * JavaScript values and the built-ins the program calls            *)
(* ================================================================== *)

Module JS.

(** Values as [JSON.parse] builds them, plus [undefined].  An object is its
    list of own properties in insertion order; the first binding of a name
    is the property. *)
Inductive JSValue :=
| JSUndefined
| JSNull
| JSBool (b : bool)
| JSNumber (n : float)
| JSString (s : string)
| JSArray (elems : list JSValue)
| JSObject (props : list (string * JSValue)).

Inductive JSError :=
| TypeError | SyntaxError | SecurityError | QuotaExceededError | HttpError.

(** The outcome of an expression that may throw (for an [async] function:
    the promise is fulfilled or rejected). *)
Inductive completion (A : Type) :=
| Return (a : A)
| Throw (e : JSError).
Arguments Return {A} a.
Arguments Throw {A} e.

#[export] Instance completion_ret : MRet completion := @Return.
#[export] Instance completion_bind : MBind completion :=
  fun A B f m => match m with Return a => f a | Throw e => Throw e end.

(** [try { ... } catch { return d }] *)
Definition catch {A} (m : completion A) (d : A) : A :=
  match m with Return a => a | Throw _ => d end.

Fixpoint mapM {A B} (f : A -> completion B) (l : list A) : completion (list B) :=
  match l with
  | [] => Return []
  | x :: r => y ← f x; ys ← mapM f r; Return (y :: ys)
  end.

Fixpoint filterM {A} (f : A -> completion bool) (l : list A) : completion (list A) :=
  match l with
  | [] => Return []
  | x :: r => b ← f x; ys ← filterM f r; Return (if b : bool then x :: ys else ys)
  end.

(** ToBoolean *)
Definition truthy (v : JSValue) : bool :=
  match v with
  | JSUndefined | JSNull => false
  | JSBool b => b
  | JSNumber n => negb (PrimFloat.is_zero n || PrimFloat.is_nan n)
  | JSString s => negb (String.eqb s "")
  | JSArray _ | JSObject _ => true
  end.

Definition nullish (v : JSValue) : bool :=
  match v with JSUndefined | JSNull => true | _ => false end.

Definition isArray (v : JSValue) : bool :=
  match v with JSArray _ => true | _ => false end.

(** [a || b] and [a ?? b] on values already computed. *)
Definition or_else (a b : JSValue) : JSValue := if truthy a then a else b.
Definition coalesce (a b : JSValue) : JSValue := if nullish a then b else a.

Fixpoint own (props : list (string * JSValue)) (k : string) : JSValue :=
  match props with
  | [] => JSUndefined
  | (k', v) :: r => if String.eqb k' k then v else own r k
  end.

Fixpoint hasOwn (props : list (string * JSValue)) (k : string) : bool :=
  match props with
  | [] => false
  | (k', _) :: r => String.eqb k' k || hasOwn r k
  end.

(** [v.k] for the property names the program reads (is_active, account_id,
    average_amount, amount, items, ts, tag, ...): none of them is defined on
    the prototype of a boolean, number, string, array or plain object, so the
    read yields an own property or [undefined]; on [undefined] and [null] it
    throws. *)
Definition get (v : JSValue) (k : string) : completion JSValue :=
  match v with
  | JSUndefined | JSNull => Throw TypeError
  | JSObject props => Return (own props k)
  | _ => Return JSUndefined
  end.

(** [v?.k] *)
Definition getOpt (v : JSValue) (k : string) : JSValue :=
  match v with
  | JSObject props => own props k
  | _ => JSUndefined
  end.

(** What the host engine supplies and the program only calls.  Strings are
    sequences of code units below 256. *)
Class Engine := {
  (** StringToNumber of ECMA-262 (the numeric value of a string). *)
  StringToNumber : string -> float;
  (** Number::toString in radix 10. *)
  NumberToString : float -> string;
  (** [String.prototype.localeCompare]: negative, zero or positive. *)
  localeCompare : string -> string -> float;
  (** [JSON.parse] on a text that was stored verbatim; [None] is a
      SyntaxError. *)
  parseText : string -> option JSValue
}.

Section Coercions.
Context `{Engine}.

(** ToString.  A plain object answers "[object Object]" through the inherited
    [toString]; an own property of that name is not callable (values hold no
    functions) and the inherited [valueOf] returns the object, so the
    conversion throws. An array joins its elements with commas, [undefined]
    and [null] elements as the empty string. *)
Fixpoint ToString (v : JSValue) : completion string :=
  match v with
  | JSUndefined => Return "undefined"
  | JSNull => Return "null"
  | JSBool true => Return "true"
  | JSBool false => Return "false"
  | JSNumber n => Return (NumberToString n)
  | JSString s => Return s
  | JSArray elems =>
      (fix join (l : list JSValue) : completion string :=
         match l with
         | [] => Return ""
         | x :: r =>
             match (if nullish x then Return "" else ToString x) with
             | Throw e => Throw e
             | Return s =>
                 match r with
                 | [] => Return s
                 | _ :: _ =>
                     match join r with
                     | Throw e => Throw e
                     | Return t => Return (s ++ "," ++ t)%string
                     end
                 end
             end
         end) elems
  | JSObject props =>
      if hasOwn props "toString" then Throw TypeError
      else Return "[object Object]"
  end.

(** ToNumber, as [Number(v)] and the operands of [-] apply it. *)
Definition ToNumber (v : JSValue) : completion float :=
  match v with
  | JSUndefined => Return nan
  | JSNull => Return 0%float
  | JSBool true => Return 1%float
  | JSBool false => Return 0%float
  | JSNumber n => Return n
  | JSString s => Return (StringToNumber s)
  | JSArray _ => s ← ToString v; Return (StringToNumber s)
  | JSObject props =>
      (* "[object Object]" is no numeric literal *)
      if hasOwn props "toString" then Throw TypeError else Return nan
  end.

End Coercions.

(** WhiteSpace and LineTerminator code units below 256:
    TAB, LF, VT, FF, CR, SP, NBSP. *)
Definition isWhiteSpace (c : ascii) : bool :=
  let n := nat_of_ascii c in
  (Nat.leb 9 n && Nat.leb n 13) || Nat.eqb n 32 || Nat.eqb n 160.

Fixpoint trimStart (s : string) : string :=
  match s with
  | EmptyString => EmptyString
  | String c r => if isWhiteSpace c then trimStart r else s
  end.

Definition trim (s : string) : string :=
  String.rev (trimStart (String.rev (trimStart s))).

End JS.

Import JS.

(* ================================================================== *)
(** * The recurring-data formatter                                     *)
(* ================================================================== *)

Module Formatter.

(** A normalized item, as the object literal of [pickFields] builds it. *)
Record Amount := { amount : float }.
Record Category := { detailed : JSValue }.
Record RecurringItem := {
  account_id : JSValue;
  average_amount : Amount;
  description : JSValue;
  frequency : JSValue;
  last_date : JSValue;
  personal_finance_category : Category;
  predicted_next_date : JSValue
}.

(** The item as a JavaScript value (what [JSON.stringify] and the page see). *)
Definition itemToJS (it : RecurringItem) : JSValue :=
  JSObject
    [ ("account_id", account_id it);
      ("average_amount", JSObject [("amount", JSNumber (amount (average_amount it)))]);
      ("description", description it);
      ("frequency", frequency it);
      ("last_date", last_date it);
      ("personal_finance_category",
        JSObject [("detailed", detailed (personal_finance_category it))]);
      ("predicted_next_date", predicted_next_date it) ].

(** [x && x.k]: the guard the source puts before a nested read. *)
Definition guarded (x : JSValue) (k : string) : completion JSValue :=
  if truthy x then get x k else Return x.

(** [Array.prototype.sort(cmp)].  The standard fixes the result, not the
    algorithm: the sort is stable and, for a consistent comparator, yields the
    one stable sorted arrangement; which pairs the comparator is asked about,
    and in which order of arguments, is left to the engine.  The model is the
    stable insertion sort that makes its calls the way V8 (Node, Chrome)
    does: each element, in input order, is put among the sorted elements
    before it, and is the first argument of every call made for it.
    [cmp x y < 0] moves [x] in front of [y], any other result (a NaN result
    counts as zero) leaves it behind [y], and a comparator that throws aborts
    the sort. *)
Section Sort.
Context {A : Type} (cmp : A -> A -> completion float).

(** [x] among [before], the sorted elements that precede it, held nearest
    first. *)
Fixpoint insert (x : A) (before : list A) : completion (list A) :=
  match before with
  | [] => Return [x]
  | y :: r =>
      c ← cmp x y;
      if PrimFloat.ltb c 0 then (r' ← insert x r; Return (y :: r'))
      else Return (x :: y :: r)
  end.

(** The elements of [l] put one after the other among [sorted] (nearest
    first). *)
Fixpoint sortInto (sorted : list A) (l : list A) : completion (list A) :=
  match l with
  | [] => Return (rev sorted)
  | x :: r => sorted' ← insert x sorted; sortInto sorted' r
  end.

Definition sort (l : list A) : completion (list A) := sortInto [] l.

End Sort.

Section WithEngine.
Context `{Engine}.

(** The amount expression:
    [(s.average_amount && s.average_amount.amount) ??
     (s.last_amount && s.last_amount.amount) ?? 0], before [Number]. *)
Definition pickAmount (s : JSValue) : completion JSValue :=
  avg ← get s "average_amount";
  a ← guarded avg "amount";
  if nullish a then
    last ← get s "last_amount";
    b ← guarded last "amount";
    Return (coalesce b (JSNumber 0))
  else Return a.

(** The description expression:
    [s.merchant_name && s.merchant_name.trim().length
       ? s.merchant_name : (s.description || "")].
    [trim] exists on strings only: calling it on any other truthy value
    throws. *)
Definition pickDescription (s : JSValue) : completion JSValue :=
  m ← get s "merchant_name";
  named ← (if truthy m then
             match m with
             | JSString str => Return (negb (Nat.eqb (String.length (trim str)) 0))
             | _ => Throw TypeError
             end
           else Return false);
  if named : bool then get s "merchant_name"
  else d ← get s "description"; Return (or_else d (JSString "")).

Definition pickFields (s : JSValue) : completion RecurringItem :=
  acc ← get s "account_id";
  a ← pickAmount s;
  n ← ToNumber a;
  desc ← pickDescription s;
  freq ← get s "frequency";
  last ← get s "last_date";
  cat ← get s "personal_finance_category";
  det ← guarded cat "detailed";
  next ← get s "predicted_next_date";
  Return {| account_id := acc;
            average_amount := {| amount := n |};
            description := desc;
            frequency := or_else freq JSNull;
            last_date := or_else last JSNull;
            personal_finance_category := {| detailed := or_else det JSNull |};
            predicted_next_date := or_else next JSNull |}.

(** The comparator handed to [sort]. *)
Definition byNextDate (a b : RecurringItem) : completion float :=
  let ax := or_else (predicted_next_date a) (JSString "") in
  let bx := or_else (predicted_next_date b) (JSString "") in
  if negb (truthy ax) && negb (truthy bx) then Return 0%float
  else if negb (truthy ax) then Return 1%float
  else if negb (truthy bx) then Return (-1)%float
  else match ax with
       | JSString sa => sb ← ToString bx; Return (localeCompare sa sb)
       | _ => Throw TypeError   (* no localeCompare to call *)
       end.

(** [s => s.is_active] *)
Definition isActive (s : JSValue) : completion bool :=
  f ← get s "is_active"; Return (truthy f).

(** [arr.filter(s => s.is_active)]: [filter] exists on arrays only. *)
Definition filterActive (arr : JSValue) : completion (list JSValue) :=
  match arr with
  | JSArray l => filterM isActive l
  | _ => Throw TypeError
  end.

End WithEngine.

(** The copies that merge both lists (the documented one and its compact
    twin). *)
Module MergeBoth.
Section WithEngine.
Context `{Engine}.

Definition emptyStreams : JSValue :=
  JSObject [("inflow_streams", JSArray []); ("outflow_streams", JSArray [])].

(** [(arr) => (arr || []).filter((s) => s.is_active)] *)
Definition active (arr : JSValue) : completion (list JSValue) :=
  filterActive (or_else arr (JSArray [])).

Definition toRecurringItems (resp : JSValue) : completion (list RecurringItem) :=
  let streams := or_else resp emptyStreams in
  inflow ← get streams "inflow_streams";
  ain ← active inflow;
  iin ← mapM pickFields ain;
  outflow ← get streams "outflow_streams";
  aout ← active outflow;
  iout ← mapM pickFields aout;
  sort byNextDate (iin ++ iout).

End WithEngine.
End MergeBoth.

(** The copy that reads the outflow list only. *)
Module OutflowOnly.
Section WithEngine.
Context `{Engine}.

Definition toRecurringItems (resp : JSValue) : completion (list RecurringItem) :=
  outflows ← (if truthy resp then
                o ← get resp "outflow_streams";
                Return (if isArray o then o else JSArray [])
              else Return (JSArray []));
  act ← filterActive outflows;
  combined ← mapM pickFields act;
  sort byNextDate combined.

End WithEngine.
End OutflowOnly.

End Formatter.

(* ================================================================== *)
(** * The local cache of LinkPage.jsx                                  *)
(* ================================================================== *)

Module Cache.

(** What [JSON.parse(JSON.stringify(v))] gives back: a property holding
    [undefined] is dropped, an [undefined] array element, NaN and the
    infinities become [null], and minus zero becomes zero. *)
Fixpoint jsonImage (v : JSValue) : JSValue :=
  match v with
  | JSUndefined => JSNull
  | JSNumber n =>
      if PrimFloat.is_finite n
      then (if PrimFloat.is_zero n then JSNumber 0 else JSNumber n)
      else JSNull
  | JSArray elems => JSArray (map jsonImage elems)
  | JSObject props =>
      JSObject
        ((fix image (ps : list (string * JSValue)) : list (string * JSValue) :=
            match ps with
            | [] => []
            | (k, JSUndefined) :: r => image r
            | (k, x) :: r => (k, jsonImage x) :: image r
            end) props)
  | _ => v
  end.

(** A string held by [localStorage].  The page tests such a string for
    emptiness and hands it to [JSON.parse], nothing else, so a text written
    by [JSON.stringify] is represented by the value it denotes. *)
Inductive StoredText :=
| Verbatim (s : string)      (* stored as it is *)
| Serialized (v : JSValue).  (* JSON text that parses to [v] *)

Definition JSON_stringify (v : JSValue) : StoredText := Serialized (jsonImage v).

Definition JSON_parse `{Engine} (t : StoredText) : completion JSValue :=
  match t with
  | Serialized v => Return v
  | Verbatim s =>
      match parseText s with
      | Some v => Return v
      | None => Throw SyntaxError
      end
  end.

(** [!raw] for a string *)
Definition isEmptyText (t : StoredText) : bool :=
  match t with
  | Verbatim s => String.eqb s ""
  | Serialized _ => false
  end.

(** [window.localStorage]: its slots, and the two ways it fails: [blocked]
    (access is denied, every call throws) and [full] (the quota is used up,
    [setItem] throws). *)
Record Storage := {
  slots : gmap string StoredText;
  blocked : bool;
  full : bool
}.

Definition getItem (st : Storage) (k : string) : completion (option StoredText) :=
  if blocked st then Throw SecurityError else Return (slots st !! k).

Definition setItem (st : Storage) (k : string) (t : StoredText) : completion Storage :=
  if blocked st then Throw SecurityError
  else if full st then Throw QuotaExceededError
  else Return {| slots := <[k := t]> (slots st);
                 blocked := blocked st; full := full st |}.

Definition cacheKey (uid : string) : string :=
  ("recurring_cache_v1:" ++ uid)%string.

Section WithEngine.
Context `{Engine}.
(** The module constant: twelve hours in LinkPage.jsx, seven days or the
    environment's value in its annotated copy. *)
Variable CACHE_TTL_MS : float.

(** The body of the [try] of [readCache]; [now] is [Date.now()]. *)
Definition readCache_try (st : Storage) (now : float) (uid : string)
  : completion (option (list JSValue)) :=
  raw ← getItem st (cacheKey uid);
  match raw with
  | None => Return None
  | Some text =>
      if isEmptyText text then Return None
      else
        obj ← JSON_parse text;
        let items := getOpt obj "items" in
        if negb (truthy items) then Return None
        else match items with
             | JSArray l =>
                 ts ← get obj "ts";
                 if negb (truthy ts) then Return None
                 else
                   n ← ToNumber ts;
                   if PrimFloat.ltb CACHE_TTL_MS (PrimFloat.sub now n)
                   then Return None
                   else Return (Some l)
             | _ => Return None
             end
  end.

(** [readCache]: [None] is [null]. *)
Definition readCache (st : Storage) (now : float) (uid : string)
  : option (list JSValue) :=
  catch (readCache_try st now uid) None.

(** [writeCache]: a failing [setItem] is swallowed. *)
Definition writeCache (st : Storage) (now : float) (uid : string)
  (items : list JSValue) : Storage :=
  catch
    (setItem st (cacheKey uid)
       (JSON_stringify (JSObject [("ts", JSNumber now); ("items", JSArray items)])))
    st.

End WithEngine.

Definition TTL_12h : float := (1000 * 60 * 60 * 12)%float.
Definition TTL_7d : float := (7 * 24 * 60 * 60 * 1000)%float.

End Cache.

(* ================================================================== *)
(** * The page component of LinkPage.jsx                               *)
(* ================================================================== *)

Module LinkPage.
Import Formatter Cache.

(** The four [useState] cells. *)
Record PageState := {
  linkToken : JSValue;
  message : string;
  loading : bool;
  subs : list JSValue
}.

Definition initialState : PageState :=
  {| linkToken := JSNull; message := ""; loading := true; subs := [] |}.

(** What the page does to the world, in the order it happens. *)
Inductive Event :=
| ConsoleError (msg : string)
| StorageSet (key : string)
| StorageGet (key : string)
| Fetch (body : JSValue).

Record World := {
  storage : Storage;
  trace : list Event
}.

Definition log (e : Event) (w : World) : World :=
  {| storage := storage w; trace := trace w ++ [e] |}.

Definition withStorage (st : Storage) (w : World) : World :=
  {| storage := st; trace := trace w |}.

(** How a run of the effect ends: nothing pending, the retrieve request in
    flight, or an exception that left the effect. *)
Inductive Outcome :=
| Settled
| Fetching (uid : string)
| Crashed (e : JSError).

(** What the network gives back to [fetchFromApi]. *)
Inductive FetchResult :=
| NetworkFailure                                  (* [fetch] rejects *)
| HttpResponse (ok : bool) (json : option JSValue). (* [None]: [res.json()] rejects *)

(** The branch the render function takes. *)
Inductive View :=
| Loader
| Subscriptions (items : list JSValue)
| ConnectBank (token : JSValue)
| MessageBox (text : string).

(** [!userId] for [searchParams.get("user_id")], a string or [null]. *)
Definition missing (userId : option string) : bool :=
  match userId with
  | None => true
  | Some uid => String.eqb uid ""
  end.

Definition noItemsMessage {A} (items : list A) : string :=
  match items with
  | [] => "No recurring transactions found."
  | _ :: _ => ""
  end.

Section WithEngine.
Context `{Engine}.
Variable CACHE_TTL_MS : float.
(** The formatter module the page imports. *)
Variable toRecurringItems : JSValue -> completion (list RecurringItem).

(** [fetchFromApi] up to its [await fetch(...)]. *)
Definition fetchFromApi (userId : option string) (p : PageState) (w : World)
  : PageState * World * Outcome :=
  match userId with
  | None => (p, w, Settled)
  | Some uid =>
      if String.eqb uid "" then (p, w, Settled)
      else
        ({| linkToken := linkToken p; message := ""; loading := true; subs := subs p |},
         log (Fetch (JSObject [("userId", JSString uid)])) w,
         Fetching uid)
  end.

(** The [try] block of [fetchFromApi] from the point where the request is
    answered. *)
Definition fetchFromApi_try (uid : string) (now : float) (r : FetchResult)
  (p : PageState) (w : World) : completion (PageState * World) :=
  data ← match r with
         | NetworkFailure => Throw HttpError
         | HttpResponse false _ => Throw HttpError
         | HttpResponse true None => Throw SyntaxError
         | HttpResponse true (Some d) => Return d
         end;
  let response_object := getOpt data "response_object" in
  let tag := getOpt response_object "tag" in
  match tag with
  | JSString "recurring_data" =>
      items ← toRecurringItems (getOpt response_object "data");
      let items := map itemToJS items in
      Return ({| linkToken := JSNull; message := noItemsMessage items;
                 loading := loading p; subs := items |},
              withStorage (writeCache (storage w) now uid items)
                (log (StorageSet (cacheKey uid)) w))
  | JSString "link_token" =>
      let token := getOpt (getOpt response_object "data") "link_token" in
      Return ({| linkToken := token; message := "";
                 loading := loading p; subs := subs p |}, w)
  | _ =>
      Return ({| linkToken := linkToken p; message := "No data returned.";
                 loading := loading p; subs := subs p |}, w)
  end.

(** The rest of [fetchFromApi]: [try], [catch] and [finally]. *)
Definition fetchFromApi_resume (uid : string) (now : float) (r : FetchResult)
  (p : PageState) (w : World) : PageState * World :=
  let '(p', w') :=
    match fetchFromApi_try uid now r p w with
    | Return pw => pw
    | Throw _ =>
        ({| linkToken := linkToken p;
            message := "Error retrieving data. Please try again.";
            loading := loading p; subs := subs p |},
         log (ConsoleError "Error retrieving recurring data:") w)
    end in
  ({| linkToken := linkToken p'; message := message p';
      loading := false; subs := subs p' |}, w').

(** The effect that runs when the page is activated with [userId]. *)
Definition useEffect (userId : option string) (now : float)
  (p : PageState) (w : World) : PageState * World * Outcome :=
  match userId with
  | Some (String c r as uid) =>
      let w1 := log (StorageSet "user_id") w in
      match setItem (storage w) "user_id" (Verbatim uid) with
      | Throw e => (p, w1, Crashed e)   (* outside any [try] *)
      | Return st1 =>
          let w2 := log (StorageGet (cacheKey uid)) (withStorage st1 w1) in
          match readCache CACHE_TTL_MS st1 now uid with
          | Some (x :: l) =>
              ({| linkToken := JSNull; message := "";
                  loading := false; subs := x :: l |}, w2, Settled)
          | _ => fetchFromApi userId p w2
          end
      end
  | _ =>
      (* [!userId]: [null] or the empty string *)
      ({| linkToken := linkToken p; message := message p;
          loading := false; subs := subs p |},
       log (ConsoleError "Missing user_id") w, Settled)
  end.

(** [handlePlaidData], called by the link button with the exchanged items. *)
Definition handlePlaidData (uid : string) (now : float) (items : JSValue)
  (p : PageState) (w : World) : PageState * World :=
  match items with
  | JSArray l =>
      ({| linkToken := JSNull; message := noItemsMessage l;
          loading := loading p; subs := l |},
       withStorage (writeCache (storage w) now uid l)
         (log (StorageSet (cacheKey uid)) w))
  | _ => (p, w)
  end.

End WithEngine.

(** The conditional of the returned JSX. *)
Definition render (p : PageState) : View :=
  if loading p then Loader
  else if Nat.ltb 0 (length (subs p)) then Subscriptions (subs p)
  else if truthy (linkToken p) then ConnectBank (linkToken p)
  else MessageBox (if String.eqb (message p) "" then "Ready." else message p).

End LinkPage.

(* ================================================================== *)
(** * Vocabulary of the properties                                     *)
(* ================================================================== *)

Module Props.
Import Formatter Cache LinkPage.

(** The activity flag of a stream is truthy. *)
Definition activeFlag (s : JSValue) : bool := truthy (getOpt s "is_active").

(** The list the merging copies read under [k]: the array found there, no
    streams when nothing truthy is there or the whole payload is falsy. *)
Definition streamList (resp : JSValue) (k : string) : list JSValue :=
  match or_else (getOpt (or_else resp MergeBoth.emptyStreams) k) (JSArray []) with
  | JSArray l => l
  | _ => []
  end.

Definition primitive (v : JSValue) : bool :=
  match v with JSArray _ | JSObject _ => false | _ => true end.

Definition stringOrFalsy (v : JSValue) : bool :=
  match v with JSString _ => true | _ => negb (truthy v) end.

(** The fields of a stream have the kinds the aggregator sends: the two
    amounts are no arrays or objects, the merchant name and the predicted
    date are strings or missing. *)
Definition typedFields (s : JSValue) : bool :=
  primitive (getOpt (getOpt s "average_amount") "amount")
  && primitive (getOpt (getOpt s "last_amount") "amount")
  && stringOrFalsy (getOpt s "merchant_name")
  && stringOrFalsy (getOpt s "predicted_next_date").

(** A list element the formatter can process: not [null], and with typed
    fields when it is active. *)
Definition streamOk (s : JSValue) : bool :=
  negb (nullish s) && (if activeFlag s then typedFields s else true).

(** The sort key of an item: its date, [None] when it has none. *)
Definition dateKey (it : RecurringItem) : option string :=
  match predicted_next_date it with
  | JSString s => if String.eqb s "" then None else Some s
  | _ => None
  end.

(** The date of an item with key [k]. *)
Definition keyToJS (k : option string) : JSValue :=
  match k with
  | Some s => JSString s
  | None => JSNull
  end.

Definition hasKey (k : option string) (it : RecurringItem) : bool :=
  bool_decide (dateKey it = k).

(** [a] may precede [b]: dated before undated, dates in code-unit
    (lexicographic) order. *)
Definition keyLe (a b : option string) : Prop :=
  match a, b with
  | Some x, Some y => String.leb x y = true
  | Some _, None => True
  | None, None => True
  | None, Some _ => False
  end.

(** [a] may precede [b] under the collation [lc]: a dated item before an
    undated one, and a date never in front of one that [lc] puts before
    it. *)
Definition keyLeBy (lc : string -> string -> float) (a b : option string) : Prop :=
  match a, b with
  | Some x, Some y => PrimFloat.ltb 0 (lc x y) = false
  | Some _, None => True
  | None, None => True
  | None, Some _ => False
  end.

(** [lc] is a consistent comparison on the dates in [D], as the standard
    requires of a comparator for the result of [sort] to be defined: no date
    is before itself, [y] after [x] means [x] before [y], and "not after" is
    transitive. *)
Definition consistentOn (lc : string -> string -> float) (D : string -> Prop) : Prop :=
  (forall x, D x -> PrimFloat.ltb (lc x x) 0 = false) /\
  (forall x y, D x -> D y ->
     PrimFloat.ltb 0 (lc y x) = true -> PrimFloat.ltb (lc x y) 0 = true) /\
  (forall x y z, D x -> D y -> D z ->
     PrimFloat.ltb 0 (lc x y) = false -> PrimFloat.ltb 0 (lc y z) = false ->
     PrimFloat.ltb 0 (lc x z) = false).

(** [lc] orders the dates in [D] as their code units do. *)
Definition codeUnitOn (lc : string -> string -> float) (D : string -> Prop) : Prop :=
  forall x y, D x -> D y ->
    (if PrimFloat.ltb 0 (lc x y) then Gt
     else if PrimFloat.ltb (lc x y) 0 then Lt else Eq) = String.compare x y.

(** The dates of a key are in [D]. *)
Definition keyIn (D : string -> Prop) (k : option string) : Prop :=
  forall x, k = Some x -> D x.

(** "May precede", between keys whose dates are in [D]. *)
Definition keyLeIn (lc : string -> string -> float) (D : string -> Prop)
  (a b : option string) : Prop :=
  keyIn D a /\ keyIn D b /\ keyLeBy lc a b.

(** The array under [k], no streams when anything else is there: what the
    copy that reads the outflow list only takes. *)
Definition arrayAt (resp : JSValue) (k : string) : list JSValue :=
  match getOpt resp k with
  | JSArray l => l
  | _ => []
  end.

(** The sign of a comparator result, as [sort] reads it. *)
Definition signOf (c : float) : comparison :=
  if PrimFloat.ltb 0 c then Gt
  else if PrimFloat.ltb c 0 then Lt
  else Eq.

(** The amount under field [k] of a stream is missing: the field is missing,
    or it is an object without an amount. *)
Definition amountAbsent (s : JSValue) (k : string) : bool :=
  match getOpt s k with
  | JSUndefined | JSNull => true
  | JSObject o => nullish (own o "amount")
  | _ => false
  end.

(** A value [JSON.stringify] and [JSON.parse] hand back unchanged. *)
Definition jsonStable (v : JSValue) : Prop := jsonImage v = v.

Definition isFetch (e : Event) : bool :=
  match e with Fetch _ => true | _ => false end.

(** [it] is the item of the stream [s]: what [pickFields] returns for it,
    with the account id and the dates of the stream. *)
Definition itemOf `{Engine} (s : JSValue) (it : RecurringItem) : Prop :=
  pickFields s = Return it /\
  account_id it = getOpt s "account_id" /\
  last_date it = or_else (getOpt s "last_date") JSNull /\
  predicted_next_date it = or_else (getOpt s "predicted_next_date") JSNull.

(** The order on items that an order [le] on keys induces. *)
Definition leA {A K : Type} (key : A -> K) (le : K -> K -> Prop) (a b : A) : Prop :=
  le (key a) (key b).

(** The items the comparator orders as intended: the date is [null] or a
    non-empty string, and it lies in the set [D] of dates on which the
    engine's collation is known. *)
Definition ordered_item (D : string -> Prop) (it : RecurringItem) : Prop :=
  predicted_next_date it = keyToJS (dateKey it) /\
  forall x, dateKey it = Some x -> D x.

(** The world after the effect has recorded the identity and read the
    cache. *)
Definition afterCacheRead (uid : string) (w : World) : World :=
  {| storage := {| slots := <["user_id" := Verbatim uid]> (slots (storage w));
                   blocked := false; full := false |};
     trace := trace w ++ [StorageSet "user_id"; StorageGet (cacheKey uid)] |}.

(** The entry under the identity is served as [l]: storage can be read, the
    slot holds a non-empty text that [JSON.parse] accepts, the items of the
    parsed value are the array [l], its [ts] is truthy and converts to a
    number [n] without an error, and [now - n] does not exceed the time to
    live. *)
Definition served `{Engine} (TTL : float) (st : Storage) (now : float) (uid : string)
  (l : list JSValue) : Prop :=
  blocked st = false /\
  exists text obj n,
    slots st !! cacheKey uid = Some text /\
    isEmptyText text = false /\
    JSON_parse text = Return obj /\
    getOpt obj "items" = JSArray l /\
    truthy (getOpt obj "ts") = true /\
    ToNumber (getOpt obj "ts") = Return n /\
    PrimFloat.ltb TTL (PrimFloat.sub now n) = false.

(** Collation by code unit. *)
Definition codeUnitCompare (a b : string) : float :=
  match String.compare a b with
  | Lt => (-1)%float
  | Eq => 0%float
  | Gt => 1%float
  end.

(** An engine to state closed examples with.  Only its collation, by code
    unit, matters to them: every example below is proved for all engines
    first, or concerns inputs that reach no conversion between strings and
    numbers and no verbatim text. *)
Definition plainEngine : Engine := {|
  StringToNumber := fun _ => nan;
  NumberToString := fun _ => "NaN";
  localeCompare := codeUnitCompare;
  parseText := fun _ => None
|}.

End Props.

(* ================================================================== *)
(** * Concrete inputs for the examples                                 *)
(* ================================================================== *)

Module Samples.
Import Formatter Cache LinkPage Props.

(** The stream of the third end-to-end scenario. *)
Definition spotify : JSValue :=
  JSObject [ ("account_id", JSString "a1"); ("is_active", JSBool true);
             ("merchant_name", JSString "Spotify");
             ("average_amount", JSObject [("amount", JSNumber 9.99)]);
             ("frequency", JSString "MONTHLY");
             ("predicted_next_date", JSString "2025-09-14");
             ("last_date", JSString "2025-08-14") ].

(** Only a last amount, a blank merchant name, an earlier date. *)
Definition netflix : JSValue :=
  JSObject [ ("account_id", JSString "a2"); ("is_active", JSBool true);
             ("merchant_name", JSString "  ");
             ("description", JSString "NETFLIX.COM");
             ("last_amount", JSObject [("amount", JSNumber 5)]);
             ("predicted_next_date", JSString "2025-09-01") ].

(** An active inflow stream with no amount and no date. *)
Definition salary : JSValue :=
  JSObject [ ("account_id", JSString "a3"); ("is_active", JSBool true);
             ("description", JSString "ACME PAYROLL") ].

Definition cancelled : JSValue :=
  JSObject [ ("account_id", JSString "a4"); ("is_active", JSBool false);
             ("predicted_next_date", JSString "2020-01-01") ].

(** No flag at all. *)
Definition unflagged : JSValue :=
  JSObject [ ("account_id", JSString "a5");
             ("predicted_next_date", JSString "2020-02-02") ].

(** Their normalized items. *)
Definition spotifyItem : RecurringItem :=
  {| account_id := JSString "a1";
     average_amount := {| amount := 9.99 |};
     description := JSString "Spotify";
     frequency := JSString "MONTHLY";
     last_date := JSString "2025-08-14";
     personal_finance_category := {| detailed := JSNull |};
     predicted_next_date := JSString "2025-09-14" |}.

Definition netflixItem : RecurringItem :=
  {| account_id := JSString "a2";
     average_amount := {| amount := 5 |};
     description := JSString "NETFLIX.COM";
     frequency := JSNull;
     last_date := JSNull;
     personal_finance_category := {| detailed := JSNull |};
     predicted_next_date := JSString "2025-09-01" |}.

Definition salaryItem : RecurringItem :=
  {| account_id := JSString "a3";
     average_amount := {| amount := 0 |};
     description := JSString "ACME PAYROLL";
     frequency := JSNull;
     last_date := JSNull;
     personal_finance_category := {| detailed := JSNull |};
     predicted_next_date := JSNull |}.

Definition inflowList : list JSValue := [salary; cancelled].
Definition outflowList : list JSValue := [spotify; unflagged; netflix].

Definition payloadProps : list (string * JSValue) :=
  [ ("inflow_streams", JSArray inflowList);
    ("outflow_streams", JSArray outflowList) ].

(** A payload without an inflow list. *)
Definition outflowOnlyProps : list (string * JSValue) :=
  [ ("outflow_streams", JSArray [spotify]) ].

Definition emptyStorage : Storage :=
  {| slots := ∅; blocked := false; full := false |}.

Definition storageWith (uid : string) (text : StoredText) : Storage :=
  {| slots := {[ cacheKey uid := text ]}; blocked := false; full := false |}.

(** A stored value whose timestamp is no number. *)
Definition corruptEntry : JSValue :=
  JSObject [("ts", JSObject []); ("items", JSArray [JSString "stale"])].

(** The items of the sample payload as the page holds them. *)
Definition sampleItems : list JSValue :=
  map itemToJS [netflixItem; spotifyItem; salaryItem].

Definition emptyWorld : World :=
  {| storage := emptyStorage; trace := [] |}.

(** 2025-09-01T00:00:00Z in epoch milliseconds. *)
Definition sampleNow : float := 1756684800000%float.

(** Entries written 800 seconds before [sampleNow]. *)
Definition freshEntry : JSValue :=
  JSObject [("ts", JSNumber 1756684000000); ("items", JSArray sampleItems)].

Definition emptyListEntry : JSValue :=
  JSObject [("ts", JSNumber 1756684000000); ("items", JSArray [])].

Definition cachedWorld : World :=
  {| storage := storageWith "u1" (Serialized freshEntry); trace := [] |}.

Definition emptyListWorld : World :=
  {| storage := storageWith "u1" (Serialized emptyListEntry); trace := [] |}.

(** Answers of the retrieve endpoint. *)
Definition linkTokenAnswer : JSValue :=
  JSObject [("response_object",
             JSObject [("tag", JSString "link_token");
                       ("data", JSObject [("link_token", JSString "tok1")])])].

Definition recurringDataAnswer : JSValue :=
  JSObject [("response_object",
             JSObject [("tag", JSString "recurring_data");
                       ("data", JSObject outflowOnlyProps)])].

(** A page that shows items. *)
Definition shownState : PageState :=
  {| linkToken := JSNull; message := ""; loading := true; subs := sampleItems |}.

End Samples.

(* ================================================================== *)
(** * The text helpers of the subscription list                        *)
(* ================================================================== *)

Module Subscriptions.

(** [String.prototype.toLowerCase] on the strings of this development,
    sequences of code units below 256 (Latin-1): the letters A to Z and the
    capital letters U+00C0 to U+00DE, the multiplication sign U+00D7 apart,
    move up by 32, and nothing else changes.  Beyond Latin-1 the method is
    no map of code units (U+0130 becomes two of them); what is proved of it
    here is proved of Latin-1 strings. *)
Definition lowerUnit (c : ascii) : ascii :=
  let n := nat_of_ascii c in
  if (Nat.leb 65 n && Nat.leb n 90)
     || (Nat.leb 192 n && Nat.leb n 222 && negb (Nat.eqb n 215))
  then ascii_of_nat (n + 32)
  else c.

Fixpoint toLowerCase (s : string) : string :=
  match s with
  | EmptyString => EmptyString
  | String c r => String (lowerUnit c) (toLowerCase r)
  end.

(** [w.charAt(0)] and [w.slice(1)] *)
Definition charAt0 (w : string) : string :=
  match w with
  | EmptyString => EmptyString
  | String c _ => String c EmptyString
  end.

Definition slice1 (w : string) : string :=
  match w with
  | EmptyString => EmptyString
  | String _ r => r
  end.

(** [s.split(sep)] for a separator of one code unit: never the empty list. *)
Fixpoint split (sep : ascii) (s : string) : list string :=
  match s with
  | EmptyString => [EmptyString]
  | String c r =>
      if Ascii.eqb c sep then EmptyString :: split sep r
      else match split sep r with
           | w :: ws => String c w :: ws
           | [] => [String c EmptyString]
           end
  end.

(** [words.join(sep)] *)
Fixpoint join (sep : string) (ws : list string) : string :=
  match ws with
  | [] => EmptyString
  | [w] => w
  | w :: ws' => (w ++ sep ++ join sep ws')%string
  end.

(** What follows [pat] in [s] when [s] starts with [pat]. *)
Fixpoint dropPrefix (pat s : string) : option string :=
  match pat with
  | EmptyString => Some s
  | String a pat' =>
      match s with
      | EmptyString => None
      | String b s' => if Ascii.eqb a b then dropPrefix pat' s' else None
      end
  end.

(** [s.replace(pat, rep)] for a string pattern and a replacement without
    dollar signs: the first occurrence only. *)
Fixpoint replace (pat rep : string) (s : string) : string :=
  match dropPrefix pat s with
  | Some rest => (rep ++ rest)%string
  | None =>
      match s with
      | EmptyString => EmptyString
      | String c r => String c (replace pat rep r)
      end
  end.

(** [(w) => w.charAt(0) + w.slice(1).toLowerCase()] *)
Definition titleWord (w : string) : string :=
  (charAt0 w ++ toLowerCase (slice1 w))%string.

(** A parameter with the default [""]: the default replaces [undefined]
    only. *)
Definition orEmpty (v : JSValue) : JSValue :=
  match v with
  | JSUndefined => JSString ""
  | _ => v
  end.

(** [freqText]: [f ? f[0] + f.slice(1).toLowerCase() : "Unknown"].  On a
    truthy value that is no string, [slice] or the [toLowerCase] of its
    result is missing and the call throws. *)
Definition freqText (f : JSValue) : completion string :=
  match orEmpty f with
  | JSString (String c r) => Return (String c EmptyString ++ toLowerCase r)%string
  | f' => if truthy f' then Throw TypeError else Return "Unknown"
  end.

Section WithEngine.
Context `{Engine}.
(** [Number.prototype.toLocaleString] with the currency options, and
    [new Date(v).toLocaleString] with the month and day options: the host's
    formatting. *)
Variable formatUSD : float -> string.
Variable formatDay : JSValue -> string.

(** [humanize] *)
Definition humanize (s : JSValue) : completion string :=
  str ← ToString (orEmpty s);
  Return (replace "And" "and" (join " " (map titleWord (split "_"%char str)))).

(** [toUSD] *)
Definition toUSD (n : JSValue) : completion string :=
  x ← ToNumber (coalesce n (JSNumber 0));
  Return (formatUSD (PrimFloat.abs x)).

(** The placeholder for a missing value, an em dash. *)
Definition dash : string := "—".

(** [new Date(v).toLocaleString(undefined, {month, day})].  The constructor
    converts [v] to a primitive first, which throws where the conversion to
    a string does (an object whose own [toString] cannot be called, an array
    with such an element); what it makes of the primitive, an invalid date
    included, is formatted by the host. *)
Definition dateText (v : JSValue) : completion string :=
  _ ← ToString v; Return (formatDay v).

(** What the key of an entry is made of: the index, or the parts of the
    template [`${item.account_id}|${item.description}|${idx}`]. *)
Inductive CardKey :=
| ByIndex (idx : nat)
| ByParts (account description : string) (idx : nat).

(** What one entry of the list shows. *)
Record Card := {
  cardKey : CardKey;
  title : JSValue;
  amountDisplay : string;
  category : string;
  freq : string;
  next : string;
  last : string
}.

(** [x || d] where [x] is a string *)
Definition textOr (x d : string) : string :=
  if String.eqb x "" then d else x.

(** The callback of [items.map]: what it computes for the item at [idx], in
    the order of the source. *)
Definition card (idx : nat) (item : JSValue) : completion Card :=
  amt ← toUSD (getOpt (getOpt item "average_amount") "amount");
  cat ← humanize (getOpt (getOpt item "personal_finance_category") "detailed");
  fr ← freqText (getOpt item "frequency");
  nx ← (if truthy (getOpt item "predicted_next_date")
        then dateText (getOpt item "predicted_next_date") else Return dash);
  ls ← (if truthy (getOpt item "last_date")
        then dateText (getOpt item "last_date") else Return dash);
  k ← (if truthy (getOpt item "account_id")
       then a ← ToString (getOpt item "account_id");
            d ← ToString (getOpt item "description");
            Return (ByParts a d idx)
       else Return (ByIndex idx));
  Return {| cardKey := k;
            title := or_else (getOpt item "description") (JSString "Subscription");
            amountDisplay := amt;
            category := textOr cat dash;
            freq := fr;
            next := nx;
            last := ls |}.

(** [items.map(callback)] from the index [idx] on. *)
Fixpoint cardsFrom (idx : nat) (items : list JSValue) : completion (list Card) :=
  match items with
  | [] => Return []
  | item :: r => c ← card idx item; cs ← cardsFrom (S idx) r; Return (c :: cs)
  end.

(** The list for [items]: the notice when there are none, else a card for
    each item, in order. *)
Inductive ListView :=
| NoSubscriptions
| Cards (cards : list Card).

Definition SubscriptionsAccordion (items : list JSValue) : completion ListView :=
  match items with
  | [] => Return NoSubscriptions
  | _ :: _ => cs ← cardsFrom 0 items; Return (Cards cs)
  end.

End WithEngine.

End Subscriptions.

(* ================================================================== *)
(** * The link button of PlaidButton.jsx, as the page mounts it        *)
(* ================================================================== *)

Module PlaidButton.
Import Formatter Cache LinkPage.

(** The three [useState] cells; [None] is [null]. *)
Record ButtonState := {
  message : option string;
  isError : bool;
  loading : bool
}.

Definition initialState : ButtonState :=
  {| message := None; isError := false; loading := false |}.

(** The name [console.error(e)] prints first. *)
Definition errorName (e : JSError) : string :=
  match e with
  | TypeError => "TypeError"
  | SyntaxError => "SyntaxError"
  | SecurityError => "SecurityError"
  | QuotaExceededError => "QuotaExceededError"
  | HttpError => "Error"
  end.

(** [`${userId}`] for the identity of the page, a string or [null]. *)
Definition idText (userId : option string) : string :=
  match userId with
  | Some uid => uid
  | None => "null"
  end.

Section WithEngine.
Context `{Engine}.
Variable toRecurringItems : JSValue -> completion (list RecurringItem).
(** The characters of a stored JSON text. *)
Variable JSON_text : JSValue -> string.

(** What [getItem] hands back as a JavaScript value. *)
Definition itemValue (raw : option StoredText) : JSValue :=
  match raw with
  | None => JSNull
  | Some (Verbatim s) => JSString s
  | Some (Serialized v) => JSString (JSON_text v)
  end.

(** [onSuccess] up to its [await fetch(...)]: the identity is the prop, or
    what storage holds under "user_id" when the prop is [null]; the read is
    outside the [try]. *)
Definition onSuccess (userId : option string) (public_token : string)
  (b : ButtonState) (w : World) : ButtonState * World * Outcome :=
  let request (uid : JSValue) (w' : World) :=
    ({| message := None; isError := false; loading := true |},
     log (Fetch (JSObject [("publicToken", JSString public_token);
                           ("userId", uid)])) w',
     Fetching (idText userId)) in
  match userId with
  | Some uid => request (JSString uid) w
  | None =>
      let w1 := log (StorageGet "user_id") w in
      match getItem (storage w) "user_id" with
      | Throw e => (b, w1, Crashed e)
      | Return raw => request (itemValue raw) w1
      end
  end.

(** The [try] block from the point where the request is answered: the
    normalized items of the answer, whatever its tag. *)
Definition onSuccess_try (r : FetchResult) : completion (list RecurringItem) :=
  data ← match r with
         | NetworkFailure => Throw TypeError   (* what [fetch] rejects with *)
         | HttpResponse false _ => Throw HttpError
         | HttpResponse true None => Throw SyntaxError
         | HttpResponse true (Some d) => Return d
         end;
  toRecurringItems (getOpt (getOpt data "response_object") "data").

(** The rest of [onSuccess], with [handlePlaidData] of the page as
    [onData]. *)
Definition onSuccess_resume (userId : option string) (now : float)
  (r : FetchResult) (b : ButtonState) (p : PageState) (w : World)
  : ButtonState * PageState * World :=
  match onSuccess_try r with
  | Return items =>
      let '(p', w') :=
        handlePlaidData (idText userId) now (JSArray (map itemToJS items)) p w in
      ({| message := message b; isError := isError b; loading := false |}, p', w')
  | Throw e =>
      let '(p', w') :=
        handlePlaidData (idText userId) now (JSArray [])
          p (log (ConsoleError (errorName e)) w) in
      ({| message := Some "There was an error retrieving recurring transactions.";
          isError := true; loading := false |}, p', w')
  end.

End WithEngine.

End PlaidButton.

(* ================================================================== *)
(** * The time to live of the annotated copy of the page               *)
(* ================================================================== *)

Module Configured.
Import Cache.

(** [Number(process.env.REACT_APP_CACHE_TTL_MS) || 7 * 24 * 60 * 60 * 1000]:
    a variable of the environment is a string or [undefined]. *)
Definition CACHE_TTL_MS `{Engine} (env : option string) : float :=
  let n := match env with
           | None => nan              (* Number(undefined) *)
           | Some s => StringToNumber s
           end in
  if truthy (JSNumber n) then n else TTL_7d.

End Configured.

(* ================================================================== *)
(** * Vocabulary of the further properties                             *)
(* ================================================================== *)

Module MoreProps.
Import Formatter Cache LinkPage.

(** The code units of a text. *)
Definition units (s : string) : list ascii := list_ascii_of_string s.

(** The properties of an object as JSON carries them: those holding
    [undefined] are dropped. *)
Fixpoint imageProps (ps : list (string * JSValue)) : list (string * JSValue) :=
  match ps with
  | [] => []
  | (k, JSUndefined) :: r => imageProps r
  | (k, x) :: r => (k, jsonImage x) :: imageProps r
  end.

(** The fields of a stream have the kinds the list can show: the frequency
    is a string or missing, and the account id, the description, the last
    date, the category detail and the predicted date are no arrays or
    objects. *)
Definition renderable (s : JSValue) : bool :=
  Props.primitive (getOpt s "account_id")
  && Props.primitive (getOpt s "description")
  && Props.stringOrFalsy (getOpt s "frequency")
  && Props.primitive (getOpt s "last_date")
  && Props.primitive (getOpt (getOpt s "personal_finance_category") "detailed")
  && Props.primitive (getOpt s "predicted_next_date").

(** A text of white space only (the empty text included). *)
Definition blank (m : string) : bool := forallb isWhiteSpace (units m).

(** The code units of a list of texts, counted. *)
Fixpoint total (ws : list string) : nat :=
  match ws with
  | [] => 0
  | w :: ws' => String.length w + total ws'
  end.

(** The answers on which the [try] block of [fetchFromApi] throws: the
    request is rejected, the status is not OK, the body is no JSON, or the
    answer is tagged recurring_data and the formatter throws on its data. *)
Definition failedAnswer (toRecurringItems : JSValue -> completion (list RecurringItem))
  (r : FetchResult) : Prop :=
  match r with
  | HttpResponse true (Some data) =>
      getOpt (getOpt data "response_object") "tag" = JSString "recurring_data" /\
      exists e, toRecurringItems (getOpt (getOpt data "response_object") "data")
                = Throw e
  | _ => True
  end.

(** The text the page sets when the request fails. *)
Definition errorText : string := "Error retrieving data. Please try again.".

(** The request of the page for an identity. *)
Definition requestOf (uid : string) : Event :=
  Fetch (JSObject [("userId", JSString uid)]).

(** The answers on which the [try] block of the link button throws: the
    request is rejected, the status is not OK, the body is no JSON, or the
    formatter throws on the data of the answer. *)
Definition exchangeFailed
  (toRecurringItems : JSValue -> completion (list RecurringItem))
  (r : FetchResult) : Prop :=
  match r with
  | HttpResponse true (Some data) =>
      exists e, toRecurringItems (getOpt (getOpt data "response_object") "data")
                = Throw e
  | _ => True
  end.

(** The request of the link button. *)
Definition exchangeOf (public_token : string) (uid : JSValue) : Event :=
  Fetch (JSObject [("publicToken", JSString public_token); ("userId", uid)]).

(** A page that shows the connect view. *)
Definition connectState : PageState :=
  {| linkToken := JSString "tok1"; message := ""; loading := false; subs := [] |}.

(** A payload whose outflow list has a hole. *)
Definition holedPayload : JSValue :=
  JSObject [ ("inflow_streams", JSArray [Samples.salary]);
             ("outflow_streams", JSArray [Samples.spotify; JSNull]) ].

(** An answer with recurring data in which no stream is active. *)
Definition noStreamsAnswer : JSValue :=
  JSObject [("response_object",
             JSObject [("tag", JSString "recurring_data");
                       ("data", JSObject [("outflow_streams",
                                           JSArray [Samples.cancelled])])])].

(** A world whose storage holds the sample entry and has no room left. *)
Definition fullWorld : World :=
  {| storage := {| slots := slots (storage Samples.cachedWorld);
                   blocked := false; full := true |};
     trace := [] |}.

(** Two more active streams: one dated 14 September as Spotify is, one
    without a date. *)
Definition rent : JSValue :=
  JSObject [ ("account_id", JSString "a7"); ("is_active", JSBool true);
             ("description", JSString "RENT");
             ("predicted_next_date", JSString "2025-09-14") ].

Definition gym : JSValue :=
  JSObject [ ("account_id", JSString "a8"); ("is_active", JSBool true);
             ("description", JSString "GYM") ].

Definition rentItem : RecurringItem :=
  {| account_id := JSString "a7";
     average_amount := {| amount := 0 |};
     description := JSString "RENT";
     frequency := JSNull;
     last_date := JSNull;
     personal_finance_category := {| detailed := JSNull |};
     predicted_next_date := JSString "2025-09-14" |}.

Definition gymItem : RecurringItem :=
  {| account_id := JSString "a8";
     average_amount := {| amount := 0 |};
     description := JSString "GYM";
     frequency := JSNull;
     last_date := JSNull;
     personal_finance_category := {| detailed := JSNull |};
     predicted_next_date := JSNull |}.

(** A payload with a tie and with two undated items. *)
Definition tiedPayload : JSValue :=
  JSObject [ ("inflow_streams", JSArray [Samples.salary; rent]);
             ("outflow_streams", JSArray [Samples.spotify; Samples.netflix; gym]) ].

(** A collation that looks at the letters before their case, as the
    collation of the hosts does: "apr" is before "Oct", and "a" before
    "A". *)
Definition caseBlindCompare (a b : string) : float :=
  match String.compare (Subscriptions.toLowerCase a) (Subscriptions.toLowerCase b) with
  | Lt => (-1)%float
  | Gt => 1%float
  | Eq => Props.codeUnitCompare b a
  end.

(** An engine with that collation, to state a closed example with. *)
Definition localeEngine : Engine := {|
  StringToNumber := fun _ => nan;
  NumberToString := fun _ => "NaN";
  localeCompare := caseBlindCompare;
  parseText := fun _ => None
|}.

(** Two streams whose dates are no ISO dates. *)
Definition october : JSValue :=
  JSObject [ ("account_id", JSString "b1"); ("is_active", JSBool true);
             ("merchant_name", JSString "Cinema");
             ("predicted_next_date", JSString "Oct-01") ].

Definition april : JSValue :=
  JSObject [ ("account_id", JSString "b2"); ("is_active", JSBool true);
             ("merchant_name", JSString "Garden");
             ("predicted_next_date", JSString "apr-01") ].

Definition octoberItem : RecurringItem :=
  {| account_id := JSString "b1";
     average_amount := {| amount := 0 |};
     description := JSString "Cinema";
     frequency := JSNull;
     last_date := JSNull;
     personal_finance_category := {| detailed := JSNull |};
     predicted_next_date := JSString "Oct-01" |}.

Definition aprilItem : RecurringItem :=
  {| account_id := JSString "b2";
     average_amount := {| amount := 0 |};
     description := JSString "Garden";
     frequency := JSNull;
     last_date := JSNull;
     personal_finance_category := {| detailed := JSNull |};
     predicted_next_date := JSString "apr-01" |}.

(** An active stream without an account id, and its item. *)
Definition unidentified : JSValue :=
  JSObject [ ("is_active", JSBool true); ("description", JSString "GYM") ].

Definition unidentifiedItem : RecurringItem :=
  {| account_id := JSUndefined;
     average_amount := {| amount := 0 |};
     description := JSString "GYM";
     frequency := JSNull;
     last_date := JSNull;
     personal_finance_category := {| detailed := JSNull |};
     predicted_next_date := JSNull |}.

(** An active stream whose average amount is the number zero, not an
    object, and whose last amount is five. *)
Definition zeroAverage : JSValue :=
  JSObject [ ("account_id", JSString "a9"); ("is_active", JSBool true);
             ("merchant_name", JSString "Cloud");
             ("average_amount", JSNumber 0);
             ("last_amount", JSObject [("amount", JSNumber 5)]) ].

(** Formatters for the closed examples; the properties hold for every
    formatter. *)
Definition sampleUSD (x : float) : string := "$".
Definition sampleDay (v : JSValue) : string := "day".
Definition sampleText (v : JSValue) : string := "{}".

(** A stream whose frequency is a number. *)
Definition yearly : JSValue :=
  JSObject [ ("account_id", JSString "a6"); ("is_active", JSBool true);
             ("description", JSString "DOMAIN RENEWAL");
             ("frequency", JSNumber 12) ].

Definition yearlyItem : RecurringItem :=
  {| account_id := JSString "a6";
     average_amount := {| amount := 0 |};
     description := JSString "DOMAIN RENEWAL";
     frequency := JSNumber 12;
     last_date := JSNull;
     personal_finance_category := {| detailed := JSNull |};
     predicted_next_date := JSNull |}.

End MoreProps.

(* ================================================================== *)
(** * Facts about completions and the list combinators                 *)
(* ================================================================== *)

Lemma bind_Return_inv {A B} (m : completion A) (f : A -> completion B) (b : B) :
  (m ≫= f) = Return b -> exists a, m = Return a /\ f a = Return b.
Proof.
  destruct m as [a|e]; simpl; intros Hb.
  - exists a. split; [reflexivity | exact Hb].
  - discriminate Hb.
Qed.

Section CompletionFacts.
Context {A B : Type}.

Lemma mapM_app (f : A -> completion B) (l1 l2 : list A) :
  mapM f (l1 ++ l2) =
  (ys1 ← mapM f l1; ys2 ← mapM f l2; Return (ys1 ++ ys2)).
Proof.
  induction l1 as [|x l1 IH]; simpl.
  - destruct (mapM f l2); reflexivity.
  - destruct (f x) as [y|e]; simpl; [|reflexivity].
    rewrite IH. destruct (mapM f l1) as [ys1|e]; simpl; [|reflexivity].
    destruct (mapM f l2); reflexivity.
Qed.

Lemma mapM_Forall2 (f : A -> completion B) (l : list A) (ys : list B) :
  mapM f l = Return ys -> Forall2 (fun x y => f x = Return y) l ys.
Proof.
  revert ys. induction l as [|x l IH]; simpl; intros ys Hm.
  - injection Hm as <-. constructor.
  - apply bind_Return_inv in Hm as (y & Hy & Hm).
    destruct (mapM f l) as [ys'|e]; simpl in Hm; [|discriminate].
    injection Hm as <-. constructor; [exact Hy | apply IH; reflexivity].
Qed.

Lemma mapM_total (f : A -> completion B) (l : list A) :
  Forall (fun x => exists y, f x = Return y) l -> exists ys, mapM f l = Return ys.
Proof.
  induction 1 as [|x l [y Hy] _ [ys Hys]]; simpl.
  - eexists; reflexivity.
  - rewrite Hy, Hys. eexists; reflexivity.
Qed.

Lemma filterM_pure (f : A -> completion bool) (g : A -> bool) (l : list A) :
  Forall (fun x => f x = Return (g x)) l ->
  filterM f l = Return (List.filter g l).
Proof.
  induction 1 as [|x l Hx _ IH]; simpl; [reflexivity|].
  rewrite Hx, IH. simpl. destruct (g x); reflexivity.
Qed.

End CompletionFacts.

(* ================================================================== *)
(** * The sort: permutation, order and stability                       *)
(* ================================================================== *)

Section SortFacts.
Import Formatter.
Context {A K : Type}.
Variable cmp : A -> A -> completion float.
Variable key : A -> K.
Variable le : K -> K -> Prop.
Variable eqk : K -> A -> bool.
(** The elements the comparator is known to behave on. *)
Variable P : A -> Prop.

Lemma insert_perm (x : A) (l l' : list A) :
  insert cmp x l = Return l' -> Permutation (x :: l) l'.
Proof.
  revert l'. induction l as [|y r IH]; simpl; intros l' Hi.
  - injection Hi as <-. reflexivity.
  - apply bind_Return_inv in Hi as (c & _ & Hi).
    destruct (PrimFloat.ltb c 0).
    + apply bind_Return_inv in Hi as (r' & Hr & Hi). injection Hi as <-.
      rewrite perm_swap. apply perm_skip, IH, Hr.
    + injection Hi as <-. reflexivity.
Qed.

Lemma sortInto_perm (sorted l l' : list A) :
  sortInto cmp sorted l = Return l' -> Permutation (rev sorted ++ l) l'.
Proof.
  revert sorted l'. induction l as [|x r IH]; simpl; intros sorted l' Hs.
  - injection Hs as <-. rewrite app_nil_r. reflexivity.
  - apply bind_Return_inv in Hs as (s' & Hi & Hs).
    etransitivity; [|apply (IH _ _ Hs)].
    change (x :: r) with ([x] ++ r). rewrite app_assoc.
    apply Permutation_app_tail.
    change (rev sorted ++ [x]) with (rev (x :: sorted)).
    rewrite <- !Permutation_rev. apply insert_perm, Hi.
Qed.

Lemma sort_perm (l l' : list A) :
  sort cmp l = Return l' -> Permutation l l'.
Proof. intros Hs. exact (sortInto_perm [] l l' Hs). Qed.

(** On [P] the comparator returns. *)
Hypothesis cmp_returns : forall a b, P a -> P b -> exists c, cmp a b = Return c.

Lemma insert_total (x : A) (l : list A) :
  P x -> Forall P l -> exists l', insert cmp x l = Return l'.
Proof.
  intros Hx Hl. induction Hl as [|y r Hy _ [r' Hr]]; simpl.
  - eexists; reflexivity.
  - destruct (cmp_returns x y Hx Hy) as (c & ->). simpl.
    destruct (PrimFloat.ltb c 0).
    + rewrite Hr. eexists; reflexivity.
    + eexists; reflexivity.
Qed.

Lemma sortInto_total (sorted l : list A) :
  Forall P sorted -> Forall P l -> exists l', sortInto cmp sorted l = Return l'.
Proof.
  intros Hs Hl. revert sorted Hs.
  induction Hl as [|x r Hx Hr IH]; simpl; intros sorted Hs.
  - eexists; reflexivity.
  - destruct (insert_total x sorted Hx Hs) as (s' & Hi). rewrite Hi. simpl.
    apply IH. rewrite <- (insert_perm _ _ _ Hi). constructor; assumption.
Qed.

Lemma sort_total (l : list A) :
  Forall P l -> exists l', sort cmp l = Return l'.
Proof. apply sortInto_total. constructor. Qed.

Hypothesis le_trans : forall a b c, le a b -> le b c -> le a c.
Hypothesis eqk_spec : forall k a, eqk k a = true <-> key a = k.
(** On [P] a negative result means the first argument goes strictly first,
    any other result that the second may stay first. *)
Hypothesis cmp_spec : forall a b c, P a -> P b -> cmp a b = Return c ->
  if PrimFloat.ltb c 0 then le (key a) (key b) /\ key a <> key b
  else le (key b) (key a).

Lemma insert_sorted (x : A) (l l' : list A) :
  P x -> Forall P l ->
  StronglySorted (fun a b => Props.leA key le b a) l ->
  insert cmp x l = Return l' ->
  StronglySorted (fun a b => Props.leA key le b a) l'.
Proof.
  intros Hx Hl Hs. revert l'.
  induction Hs as [|y r Hs IH Hy]; simpl; intros l' Hi.
  - injection Hi as <-. repeat constructor.
  - apply Forall_cons_1 in Hl as [Py Pr].
    apply bind_Return_inv in Hi as (c & Hc & Hi).
    pose proof (cmp_spec x y c Hx Py Hc) as Hle.
    destruct (PrimFloat.ltb c 0).
    + apply bind_Return_inv in Hi as (r' & Hr & Hi). injection Hi as <-.
      constructor; [apply IH; assumption|].
      apply insert_perm in Hr. rewrite <- Hr.
      constructor; [apply Hle | exact Hy].
    + injection Hi as <-. constructor; [constructor; assumption|].
      constructor; [exact Hle|].
      eapply List.Forall_impl; [|exact Hy]. intros z Hz.
      unfold Props.leA in *. eapply le_trans; eassumption.
Qed.

Lemma sorted_rev (R : A -> A -> Prop) (l : list A) :
  StronglySorted (fun a b => R b a) l -> StronglySorted R (rev l).
Proof.
  induction 1 as [|y r Hs IH Hy]; simpl; [constructor|].
  clear Hs. revert IH. generalize (rev_involutive r).
  assert (Hin : forall z, In z (rev r) -> R z y).
  { intros z Hz. rewrite List.Forall_forall in Hy. apply Hy, in_rev, Hz. }
  clear Hy. intros _. induction (rev r) as [|z t IHt]; simpl; intros Ht.
  - repeat constructor.
  - inversion Ht as [|? ? Hst Hzt]; subst. constructor.
    + apply IHt; [|exact Hst]. intros w Hw. apply Hin. right. exact Hw.
    + apply Forall_app. split; [exact Hzt|].
      constructor; [|constructor]. apply Hin. left. reflexivity.
Qed.

Lemma sortInto_sorted (sorted l l' : list A) :
  Forall P sorted -> Forall P l ->
  StronglySorted (fun a b => Props.leA key le b a) sorted ->
  sortInto cmp sorted l = Return l' -> StronglySorted (Props.leA key le) l'.
Proof.
  intros Hp Hl. revert sorted Hp l'.
  induction Hl as [|x r Hx Hr IH]; simpl; intros sorted Hp l' Hs Hr'.
  - injection Hr' as <-. apply sorted_rev, Hs.
  - apply bind_Return_inv in Hr' as (s' & Hi & Hr').
    apply (IH s'); [|eapply insert_sorted; eassumption | exact Hr'].
    rewrite <- (insert_perm _ _ _ Hi). constructor; assumption.
Qed.

Lemma sort_sorted (l l' : list A) :
  Forall P l -> sort cmp l = Return l' -> StronglySorted (Props.leA key le) l'.
Proof.
  intros Hl Hs. apply (sortInto_sorted [] l l'); [constructor | exact Hl | | exact Hs].
  constructor.
Qed.

(** Stability: the items of one key keep their order. *)
Lemma insert_stable (x : A) (l l' : list A) (k : K) :
  P x -> Forall P l -> insert cmp x l = Return l' ->
  List.filter (eqk k) l' = List.filter (eqk k) (x :: l).
Proof.
  intros Hx Hl. revert l'. induction Hl as [|y r Py Pr IH]; intros l' Hi; simpl in Hi.
  - injection Hi as <-. reflexivity.
  - apply bind_Return_inv in Hi as (c & Hc & Hi).
    pose proof (cmp_spec x y c Hx Py Hc) as Hle.
    destruct (PrimFloat.ltb c 0).
    + apply bind_Return_inv in Hi as (r' & Hr & Hi). injection Hi as <-.
      destruct Hle as [_ Hne].
      simpl. rewrite (IH _ Hr). simpl.
      destruct (eqk k x) eqn:Ex, (eqk k y) eqn:Ey; try reflexivity.
      apply eqk_spec in Ex, Ey. congruence.
    + injection Hi as <-. reflexivity.
Qed.

Lemma filter_rev_eq (f : A -> bool) (l : list A) :
  List.filter f (rev l) = rev (List.filter f l).
Proof.
  induction l as [|x l IH]; simpl; [reflexivity|].
  rewrite List.filter_app, IH. simpl. destruct (f x); simpl;
    [reflexivity | apply app_nil_r].
Qed.

Lemma sortInto_stable (sorted l l' : list A) (k : K) :
  Forall P sorted -> Forall P l -> sortInto cmp sorted l = Return l' ->
  List.filter (eqk k) l' = rev (List.filter (eqk k) sorted) ++ List.filter (eqk k) l.
Proof.
  intros Hp Hl. revert sorted Hp l'.
  induction Hl as [|x r Hx Hr IH]; simpl; intros sorted Hp l' Hs.
  - injection Hs as <-. rewrite app_nil_r. apply filter_rev_eq.
  - apply bind_Return_inv in Hs as (s' & Hi & Hs).
    assert (Hp' : Forall P s').
    { rewrite <- (insert_perm _ _ _ Hi). constructor; assumption. }
    rewrite (IH s' Hp' _ Hs).
    rewrite (insert_stable x sorted s' k Hx Hp Hi). simpl.
    destruct (eqk k x); simpl; [rewrite <- app_assoc|]; reflexivity.
Qed.

Lemma sort_stable (l l' : list A) (k : K) :
  Forall P l -> sort cmp l = Return l' ->
  List.filter (eqk k) l' = List.filter (eqk k) l.
Proof.
  intros Hl Hs. exact (sortInto_stable [] l l' k (List.Forall_nil P) Hl Hs).
Qed.

End SortFacts.

(* ================================================================== *)
(** * Facts about the formatter                                        *)
(* ================================================================== *)

Section FormatterFacts.
Import Formatter Props.
Context `{Engine}.

Lemma bind_Return {A B} (a : A) (f : A -> completion B) :
  (Return a ≫= f) = f a.
Proof. reflexivity. Qed.

Lemma get_getOpt (s : JSValue) (k : string) :
  nullish s = false -> get s k = Return (getOpt s k).
Proof. destruct s; simpl; intros Hn; try discriminate; reflexivity. Qed.

Lemma guarded_getOpt (x : JSValue) (k : string) :
  guarded x k = Return (if truthy x then getOpt x k else x).
Proof.
  unfold guarded. destruct (truthy x) eqn:Hx; [|reflexivity].
  apply get_getOpt. destruct x; simpl in *; congruence.
Qed.

Lemma isActive_activeFlag (s : JSValue) :
  nullish s = false -> isActive s = Return (activeFlag s).
Proof.
  intros Hn. unfold isActive, activeFlag. rewrite (get_getOpt _ _ Hn). reflexivity.
Qed.

Lemma ToNumber_primitive (v : JSValue) :
  primitive v = true -> exists n, ToNumber v = Return n.
Proof.
  destruct v as [| |[]| | | |]; simpl; intros Hp; try discriminate; eexists; reflexivity.
Qed.

Lemma falsy_primitive (v : JSValue) : truthy v = false -> primitive v = true.
Proof. destruct v; simpl; congruence. Qed.

(** The amount expression on a stream, by reads that cannot throw. *)
Lemma pickAmount_getOpt (s : JSValue) :
  nullish s = false ->
  pickAmount s =
  Return (let avg := getOpt s "average_amount" in
          let a := if truthy avg then getOpt avg "amount" else avg in
          if nullish a then
            let last := getOpt s "last_amount" in
            let b := if truthy last then getOpt last "amount" else last in
            coalesce b (JSNumber 0)
          else a).
Proof.
  intros Hn. unfold pickAmount.
  rewrite (get_getOpt _ "average_amount" Hn), bind_Return.
  rewrite guarded_getOpt, bind_Return. cbv zeta.
  match goal with |- context [nullish ?x] => destruct (nullish x) end; [|reflexivity].
  rewrite (get_getOpt _ "last_amount" Hn), bind_Return.
  rewrite guarded_getOpt, bind_Return. reflexivity.
Qed.

Lemma getOpt_falsy_parent (v : JSValue) (k : string) :
  truthy v = false -> getOpt v k = JSUndefined.
Proof. destruct v; simpl; congruence. Qed.

Lemma pickAmount_primitive (s : JSValue) :
  nullish s = false ->
  primitive (getOpt (getOpt s "average_amount") "amount") = true ->
  primitive (getOpt (getOpt s "last_amount") "amount") = true ->
  exists a, pickAmount s = Return a /\ primitive a = true.
Proof.
  intros Hn Ha Hl. rewrite (pickAmount_getOpt _ Hn). eexists; split; [reflexivity|].
  cbv zeta.
  destruct (truthy (getOpt s "average_amount")) eqn:Ta.
  - destruct (nullish (getOpt (getOpt s "average_amount") "amount")) eqn:Na; [|exact Ha].
    unfold coalesce.
    destruct (truthy (getOpt s "last_amount")) eqn:Tl.
    + match goal with |- context [nullish ?x] => destruct (nullish x) end;
        [reflexivity | exact Hl].
    + match goal with |- context [nullish ?x] => destruct (nullish x) end;
        [reflexivity | apply falsy_primitive, Tl].
  - destruct (nullish (getOpt s "average_amount")) eqn:Na;
      [|apply falsy_primitive, Ta].
    unfold coalesce.
    destruct (truthy (getOpt s "last_amount")) eqn:Tl.
    + match goal with |- context [nullish ?x] => destruct (nullish x) end;
        [reflexivity | exact Hl].
    + match goal with |- context [nullish ?x] => destruct (nullish x) end;
        [reflexivity | apply falsy_primitive, Tl].
Qed.

Lemma pickDescription_typed (s : JSValue) :
  nullish s = false -> stringOrFalsy (getOpt s "merchant_name") = true ->
  exists d, pickDescription s = Return d.
Proof.
  intros Hn Hm. unfold pickDescription.
  rewrite !(get_getOpt _ _ Hn), bind_Return.
  destruct (getOpt s "merchant_name") as [| |[]|n|str|l|o];
    simpl in Hm |- *; try discriminate; try (eexists; reflexivity).
  - apply negb_true_iff in Hm. rewrite Hm. simpl. eexists; reflexivity.
  - destruct (negb (String.eqb str "")); simpl; [|eexists; reflexivity].
    destruct (negb _); simpl; eexists; reflexivity.
Qed.

(** What [pickFields] copies into the date of the item. *)
Lemma pickFields_date (s : JSValue) (it : RecurringItem) :
  pickFields s = Return it ->
  predicted_next_date it = or_else (getOpt s "predicted_next_date") JSNull.
Proof.
  unfold pickFields. intros Hp.
  destruct (nullish s) eqn:Hn.
  { destruct s; simpl in Hn; try discriminate; simpl in Hp; discriminate. }
  repeat (apply bind_Return_inv in Hp as (? & ? & Hp)).
  injection Hp as <-. simpl.
  rewrite (get_getOpt _ "predicted_next_date" Hn) in *. congruence.
Qed.

Lemma pickFields_typed (s : JSValue) :
  nullish s = false -> typedFields s = true ->
  exists it, pickFields s = Return it.
Proof.
  intros Hn Ht. unfold typedFields in Ht.
  apply andb_true_iff in Ht as [Ht Hd].
  apply andb_true_iff in Ht as [Ht Hm].
  apply andb_true_iff in Ht as [Ha Hl].
  destruct (pickAmount_primitive s Hn Ha Hl) as (a & Hpa & Hprim).
  destruct (ToNumber_primitive a Hprim) as (n & Hnum).
  destruct (pickDescription_typed s Hn Hm) as (d & Hdesc).
  unfold pickFields.
  rewrite (get_getOpt _ "account_id" Hn). simpl.
  rewrite Hpa. simpl. rewrite Hnum. simpl. rewrite Hdesc. simpl.
  rewrite (get_getOpt _ "frequency" Hn). simpl.
  rewrite (get_getOpt _ "last_date" Hn). simpl.
  rewrite (get_getOpt _ "personal_finance_category" Hn). simpl.
  rewrite guarded_getOpt. simpl.
  rewrite (get_getOpt _ "predicted_next_date" Hn). simpl.
  eexists; reflexivity.
Qed.

(** Every field of the item in terms of reads of the stream. *)
Lemma pickFields_inv (s : JSValue) (it : RecurringItem) :
  pickFields s = Return it ->
  nullish s = false /\
  account_id it = getOpt s "account_id" /\
  pickDescription s = Return (description it) /\
  frequency it = or_else (getOpt s "frequency") JSNull /\
  last_date it = or_else (getOpt s "last_date") JSNull /\
  detailed (personal_finance_category it) =
    or_else (let cat := getOpt s "personal_finance_category" in
             if truthy cat then getOpt cat "detailed" else cat) JSNull /\
  predicted_next_date it = or_else (getOpt s "predicted_next_date") JSNull.
Proof.
  unfold pickFields. intros Hp.
  destruct (nullish s) eqn:Hn.
  { destruct s; simpl in Hn; try discriminate; simpl in Hp; discriminate. }
  rewrite !(get_getOpt _ _ Hn), bind_Return in Hp.
  apply bind_Return_inv in Hp as (a & _ & Hp).
  apply bind_Return_inv in Hp as (n & _ & Hp).
  apply bind_Return_inv in Hp as (d & Hd & Hp).
  rewrite !bind_Return, guarded_getOpt, !bind_Return in Hp.
  injection Hp as <-. simpl. repeat split. exact Hd.
Qed.

End FormatterFacts.

(* ================================================================== *)
(** * The comparator and the order it induces                          *)
(* ================================================================== *)

Section OrderFacts.
Import Formatter Props.
Context `{Engine}.

Lemma leb_trans (x y z : string) :
  String.leb x y = true -> String.leb y z = true -> String.leb x z = true.
Proof.
  intros Hxy Hyz. apply Is_true_true.
  apply Is_true_true in Hxy, Hyz.
  exact (@transitivity _ String.le _ x y z Hxy Hyz).
Qed.

Lemma keyLe_trans (a b c : option string) : keyLe a b -> keyLe b c -> keyLe a c.
Proof.
  destruct a as [x|], b as [y|], c as [z|]; simpl; try tauto.
  apply leb_trans.
Qed.

Lemma compare_refl (x : string) : String.compare x x = Eq.
Proof.
  pose proof (String.compare_antisym x x) as Ha.
  destruct (String.compare x x); simpl in Ha; congruence.
Qed.

Lemma dateKey_nonempty (it : RecurringItem) (x : string) :
  dateKey it = Some x -> String.eqb x "" = false.
Proof.
  unfold dateKey. destruct (predicted_next_date it); try discriminate.
  destruct (String.eqb s "") eqn:Es; [discriminate|]. congruence.
Qed.

(** The comparator on items whose date is [null] or a non-empty string. *)
Lemma byNextDate_keys (a b : RecurringItem) :
  predicted_next_date a = keyToJS (dateKey a) ->
  predicted_next_date b = keyToJS (dateKey b) ->
  byNextDate a b =
  Return match dateKey a, dateKey b with
         | None, None => 0%float
         | None, Some _ => 1%float
         | Some _, None => (-1)%float
         | Some x, Some y => localeCompare x y
         end.
Proof.
  intros Ha Hb. unfold byNextDate. rewrite Ha, Hb.
  destruct (dateKey a) as [x|] eqn:Ka, (dateKey b) as [y|] eqn:Kb;
    try apply dateKey_nonempty in Ka; try apply dateKey_nonempty in Kb;
    unfold or_else; simpl;
    repeat (rewrite ?Ka, ?Kb; simpl); reflexivity.
Qed.

Lemma byNextDate_returns (a b : RecurringItem) :
  predicted_next_date a = keyToJS (dateKey a) ->
  predicted_next_date b = keyToJS (dateKey b) ->
  exists c, byNextDate a b = Return c.
Proof. intros Ha Hb. rewrite (byNextDate_keys a b Ha Hb). eexists; reflexivity. Qed.

(** A number below zero is not above it. *)
Lemma ltb_zero_asym (c : float) :
  PrimFloat.ltb c 0 = true -> PrimFloat.ltb 0 c = false.
Proof.
  rewrite !FloatAxioms.ltb_spec. change (Prim2SF 0) with (S754_zero false).
  unfold SFltb, SFcompare.
  destruct (Prim2SF c) as [[]|[]| |[] m e]; simpl; congruence.
Qed.

Variable D : string -> Prop.

Lemma codeUnitOn_consistentOn :
  codeUnitOn localeCompare D -> consistentOn localeCompare D.
Proof.
  intros Hc. split; [|split].
  - intros x Dx. specialize (Hc x x Dx Dx). rewrite compare_refl in Hc.
    destruct (PrimFloat.ltb 0 (localeCompare x x)); [discriminate|].
    destruct (PrimFloat.ltb (localeCompare x x) 0); [discriminate | reflexivity].
  - intros x y Dx Dy Hyx.
    pose proof (Hc y x Dy Dx) as Hy. rewrite Hyx in Hy.
    pose proof (Hc x y Dx Dy) as Hx.
    rewrite String.compare_antisym, <- Hy in Hx. simpl in Hx.
    destruct (PrimFloat.ltb 0 (localeCompare x y)); [discriminate|].
    destruct (PrimFloat.ltb (localeCompare x y) 0); [reflexivity | discriminate].
  - intros x y z Dx Dy Dz Hxy Hyz.
    pose proof (Hc x y Dx Dy) as H1. rewrite Hxy in H1.
    pose proof (Hc y z Dy Dz) as H2. rewrite Hyz in H2.
    pose proof (Hc x z Dx Dz) as H3.
    destruct (PrimFloat.ltb 0 (localeCompare x z)); [|reflexivity].
    assert (L1 : String.leb x y = true).
    { unfold String.leb. rewrite <- H1.
      destruct (PrimFloat.ltb (localeCompare x y) 0); reflexivity. }
    assert (L2 : String.leb y z = true).
    { unfold String.leb. rewrite <- H2.
      destruct (PrimFloat.ltb (localeCompare y z) 0); reflexivity. }
    pose proof (leb_trans x y z L1 L2) as L3.
    unfold String.leb in L3. rewrite <- H3 in L3. discriminate.
Qed.

(** Under a collation that orders as the code units do, "may precede" is
    the lexicographic order. *)
Lemma keyLeBy_keyLe (a b : option string) :
  codeUnitOn localeCompare D -> keyIn D a -> keyIn D b ->
  keyLeBy localeCompare a b -> keyLe a b.
Proof.
  intros Hc Ha Hb. destruct a as [x|], b as [y|]; simpl; try tauto.
  intros Hxy. pose proof (Hc x y (Ha x eq_refl) (Hb y eq_refl)) as H1.
  rewrite Hxy in H1. unfold String.leb. rewrite <- H1.
  destruct (PrimFloat.ltb (localeCompare x y) 0); reflexivity.
Qed.

Hypothesis consistent : consistentOn localeCompare D.

Lemma keyLeIn_trans (a b c : option string) :
  keyLeIn localeCompare D a b -> keyLeIn localeCompare D b c ->
  keyLeIn localeCompare D a c.
Proof.
  unfold keyLeIn. intros (Da & Db & Hab) (_ & Dc & Hbc).
  split; [exact Da|]. split; [exact Dc|].
  destruct a as [x|], b as [y|], c as [z|]; simpl in *; try tauto.
  destruct consistent as (_ & _ & Ht).
  exact (Ht x y z (Da x eq_refl) (Db y eq_refl) (Dc z eq_refl) Hab Hbc).
Qed.

(** What a result of the comparator says of its arguments, the first of
    which is the element being placed. *)
Lemma byNextDate_spec (a b : RecurringItem) (c : float) :
  ordered_item D a -> ordered_item D b -> byNextDate a b = Return c ->
  if PrimFloat.ltb c 0
  then keyLeIn localeCompare D (dateKey a) (dateKey b) /\ dateKey a <> dateKey b
  else keyLeIn localeCompare D (dateKey b) (dateKey a).
Proof.
  intros [Ha Da] [Hb Db] Hc. rewrite (byNextDate_keys a b Ha Hb) in Hc.
  injection Hc as <-. unfold keyLeIn, keyIn.
  destruct consistent as (Hrefl & Hanti & _).
  destruct (dateKey a) as [x|], (dateKey b) as [y|].
  - destruct (PrimFloat.ltb (localeCompare x y) 0) eqn:Hlt.
    + split; [split; [exact Da | split; [exact Db|]]|].
      * simpl. apply ltb_zero_asym, Hlt.
      * intros Heq. injection Heq as ->.
        rewrite (Hrefl y (Db y eq_refl)) in Hlt. discriminate.
    + split; [exact Db | split; [exact Da|]]. simpl.
      destruct (PrimFloat.ltb 0 (localeCompare y x)) eqn:Hgt; [|reflexivity].
      rewrite (Hanti x y (Da x eq_refl) (Db y eq_refl) Hgt) in Hlt. discriminate.
  - simpl. split; [split; [exact Da | split; [exact Db | exact I]] | discriminate].
  - simpl. split; [exact Db | split; [exact Da | exact I]].
  - simpl. split; [exact Da | split; [exact Db | exact I]].
Qed.

End OrderFacts.

Lemma sorted_before {A} (R : A -> A -> Prop) (l1 : list A) (a : A)
  (l2 : list A) (b : A) (l3 : list A) :
  StronglySorted R (l1 ++ a :: l2 ++ b :: l3) -> R a b.
Proof.
  induction l1 as [|x l1 IH]; simpl; intros Hs; inversion Hs; subst.
  - match goal with Hf : List.Forall (R a) _ |- _ =>
      rewrite List.Forall_forall in Hf; apply Hf end.
    apply in_or_app. right. left. reflexivity.
  - apply IH. assumption.
Qed.

(* ================================================================== *)
(** * toRecurringItems on a payload with both lists                    *)
(* ================================================================== *)

Section MergeBothFacts.
Import Formatter Props.
Context `{Engine}.
Variables (props : list (string * JSValue)) (inflow outflow : list JSValue).
Hypothesis Hin : own props "inflow_streams" = JSArray inflow.
Hypothesis Hout : own props "outflow_streams" = JSArray outflow.
Hypothesis Hok : Forall (fun s => streamOk s = true) (inflow ++ outflow).

Let actives : list JSValue := List.filter activeFlag (inflow ++ outflow).

Lemma streamOk_nonnull (s : JSValue) : streamOk s = true -> nullish s = false.
Proof. unfold streamOk. intros Hs. apply andb_true_iff in Hs as [Hs _].
  apply negb_true_iff, Hs. Qed.

Lemma active_filter (l : list JSValue) :
  Forall (fun s => streamOk s = true) l ->
  MergeBoth.active (JSArray l) = Return (List.filter activeFlag l).
Proof.
  intros Hl. unfold MergeBoth.active, or_else. simpl.
  apply filterM_pure. eapply List.Forall_impl; [|exact Hl].
  intros s Hs. apply isActive_activeFlag, streamOk_nonnull, Hs.
Qed.

Lemma toRecurringItems_both :
  MergeBoth.toRecurringItems (JSObject props) =
  (items ← mapM pickFields actives; sort byNextDate items).
Proof.
  apply Forall_app in Hok as [Hi Ho].
  unfold MergeBoth.toRecurringItems, or_else. simpl.
  rewrite Hin, Hout, (active_filter _ Hi), (active_filter _ Ho).
  rewrite !bind_Return.
  unfold actives. rewrite List.filter_app, mapM_app.
  destruct (mapM pickFields (List.filter activeFlag inflow)) as [iin|e]; simpl;
    [|reflexivity].
  destruct (mapM pickFields (List.filter activeFlag outflow)) as [iout|e]; simpl;
    reflexivity.
Qed.

Lemma actives_typed :
  Forall (fun s => nullish s = false /\ typedFields s = true) actives.
Proof.
  unfold actives. apply List.Forall_forall. intros s Hs.
  apply List.filter_In in Hs as [Hs Ha].
  rewrite List.Forall_forall in Hok. specialize (Hok s Hs).
  split; [apply streamOk_nonnull, Hok|].
  unfold streamOk in Hok. rewrite Ha in Hok.
  apply andb_true_iff in Hok as [_ Hok]. exact Hok.
Qed.

Lemma actives_normalized :
  exists items, mapM pickFields actives = Return items.
Proof.
  apply mapM_total. eapply List.Forall_impl; [|exact actives_typed].
  intros s [Hn Ht]. apply pickFields_typed; assumption.
Qed.

(** The date of a normalized typed stream is [null] or a non-empty string
    taken from the stream. *)
Lemma typed_item_date (s : JSValue) (it : RecurringItem) :
  typedFields s = true -> pickFields s = Return it ->
  predicted_next_date it = keyToJS (dateKey it) /\
  forall x, dateKey it = Some x -> getOpt s "predicted_next_date" = JSString x.
Proof.
  intros Ht Hp. apply pickFields_date in Hp.
  unfold typedFields in Ht. apply andb_true_iff in Ht as [_ Hd].
  unfold dateKey. rewrite Hp. unfold or_else.
  destruct (getOpt s "predicted_next_date") as [| |[]|n|str|l|o];
    simpl in Hd |- *; try discriminate; try (split; [reflexivity | discriminate]).
  - apply negb_true_iff in Hd. rewrite Hd. simpl. split; [reflexivity | discriminate].
  - destruct (String.eqb str "") eqn:Es; simpl.
    + split; [reflexivity | discriminate].
    + rewrite Es. split; [reflexivity|]. intros x Hx. congruence.
Qed.

Lemma items_dates_of (l : list JSValue) (items : list RecurringItem) :
  Forall2 (fun s it => pickFields s = Return it) l items ->
  Forall (fun s => nullish s = false /\ typedFields s = true) l ->
  (forall s, In s l -> In s (inflow ++ outflow)) ->
  Forall (fun it =>
            predicted_next_date it = keyToJS (dateKey it) /\
            forall x, dateKey it = Some x ->
              exists s, In s (inflow ++ outflow) /\
                        getOpt s "predicted_next_date" = JSString x) items.
Proof.
  induction 1 as [|s it l1 items1 Hs _ IH]; intros Ht Hsub; [constructor|].
  apply Forall_cons_1 in Ht as [[_ Hts] Ht].
  destruct (typed_item_date s it Hts Hs) as [Hk Hx].
  constructor.
  - split; [exact Hk|]. intros x Kx. exists s; split; [|apply Hx, Kx].
    apply Hsub. left. reflexivity.
  - apply IH; [exact Ht|]. intros s' Hs'. apply Hsub. right. exact Hs'.
Qed.

Lemma items_dates (items : list RecurringItem) :
  mapM pickFields actives = Return items ->
  Forall (fun it =>
            predicted_next_date it = keyToJS (dateKey it) /\
            forall x, dateKey it = Some x ->
              exists s, In s (inflow ++ outflow) /\
                        getOpt s "predicted_next_date" = JSString x) items.
Proof.
  intros Hm. apply mapM_Forall2 in Hm.
  apply (items_dates_of actives items Hm actives_typed).
  intros s Hs. unfold actives in Hs. apply List.filter_In in Hs. tauto.
Qed.

End MergeBothFacts.

(* ================================================================== *)
(** * The normalizer: filtering, merging and ordering                  *)
(* ================================================================== *)

Section NormalizerProperties.
Import Formatter Props.

Lemma Forall2_In_l {A B} (R : A -> B -> Prop) (l : list A) (l' : list B) (x : A) :
  Forall2 R l l' -> In x l -> exists y, In y l' /\ R x y.
Proof.
  induction 1 as [|a b l l' Hab _ IH]; simpl; [tauto|].
  intros [->|Hx]; [exists b; tauto|].
  destruct (IH Hx) as (y & Hy & Hr). exists y; tauto.
Qed.

Lemma Forall2_In_r {A B} (R : A -> B -> Prop) (l : list A) (l' : list B) (y : B) :
  Forall2 R l l' -> In y l' -> exists x, In x l /\ R x y.
Proof.
  induction 1 as [|a b l l' Hab _ IH]; simpl; [tauto|].
  intros [->|Hy]; [exists a; tauto|].
  destruct (IH Hy) as (x & Hx & Hr). exists x; tauto.
Qed.

Lemma isActive_inv `{Engine} (s : JSValue) (b : bool) :
  isActive s = Return b -> b = activeFlag s.
Proof.
  unfold isActive, activeFlag.
  destruct s; simpl; intros Hb; try discriminate; injection Hb as <-; reflexivity.
Qed.

Lemma filterM_isActive_inv `{Engine} (l r : list JSValue) :
  filterM isActive l = Return r -> r = List.filter activeFlag l.
Proof.
  revert r. induction l as [|s l IH]; simpl; intros r Hr.
  - injection Hr as <-. reflexivity.
  - apply bind_Return_inv in Hr as (b & Hb & Hr).
    apply bind_Return_inv in Hr as (r' & Hr' & Hr).
    injection Hr as <-. apply isActive_inv in Hb as ->.
    rewrite (IH _ Hr'). reflexivity.
Qed.

(** What a run of the merging copies that returns has gone through. *)
Lemma toRecurringItems_returns_inv `{Engine} (resp : JSValue)
  (out : list RecurringItem) :
  MergeBoth.toRecurringItems resp = Return out ->
  exists iin iout,
    mapM pickFields (List.filter activeFlag (streamList resp "inflow_streams"))
      = Return iin /\
    mapM pickFields (List.filter activeFlag (streamList resp "outflow_streams"))
      = Return iout /\
    sort byNextDate (iin ++ iout) = Return out.
Proof.
  unfold MergeBoth.toRecurringItems, streamList. intros Hr.
  assert (Hn : nullish (or_else resp MergeBoth.emptyStreams) = false).
  { unfold or_else. destruct (truthy resp) eqn:Ht; [|reflexivity].
    destruct resp; simpl in *; congruence. }
  cbv zeta in Hr. rewrite !(get_getOpt _ _ Hn) in Hr.
  rewrite bind_Return in Hr.
  apply bind_Return_inv in Hr as (ain & Hain & Hr).
  apply bind_Return_inv in Hr as (iin & Hiin & Hr).
  rewrite bind_Return in Hr.
  apply bind_Return_inv in Hr as (aout & Haout & Hr).
  apply bind_Return_inv in Hr as (iout & Hiout & Hr).
  unfold MergeBoth.active, filterActive in Hain, Haout.
  destruct (or_else (getOpt _ "inflow_streams") _) as [| | | | |lin|];
    try discriminate.
  destruct (or_else (getOpt _ "outflow_streams") _) as [| | | | |lout|];
    try discriminate.
  apply filterM_isActive_inv in Hain as ->.
  apply filterM_isActive_inv in Haout as ->.
  exists iin, iout. repeat split; assumption.
Qed.

(** What a run of the copy that reads the outflow list only has gone
    through, when it returns. *)
Lemma outflowOnly_returns_inv `{Engine} (resp : JSValue)
  (out : list RecurringItem) :
  OutflowOnly.toRecurringItems resp = Return out ->
  exists items,
    mapM pickFields (List.filter activeFlag (arrayAt resp "outflow_streams"))
      = Return items /\
    sort byNextDate items = Return out.
Proof.
  unfold OutflowOnly.toRecurringItems, arrayAt. intros Hr.
  apply bind_Return_inv in Hr as (outflows & Ho & Hr).
  apply bind_Return_inv in Hr as (act & Ha & Hr).
  apply bind_Return_inv in Hr as (items & Hi & Hr).
  assert (Hl : outflows = JSArray (match getOpt resp "outflow_streams" with
                                   | JSArray l => l
                                   | _ => []
                                   end)).
  { destruct (truthy resp) eqn:Ht.
    - rewrite get_getOpt in Ho by (destruct resp; simpl in *; congruence).
      rewrite bind_Return in Ho. injection Ho as <-.
      destruct (getOpt resp "outflow_streams"); reflexivity.
    - injection Ho as <-.
      destruct resp as [| |[]|n|s|l|o]; simpl in Ht |- *; try discriminate;
        reflexivity. }
  subst outflows. simpl in Ha. apply filterM_isActive_inv in Ha as ->.
  exists items. split; assumption.
Qed.

Lemma pickFields_itemOf `{Engine} (s : JSValue) (it : RecurringItem) :
  pickFields s = Return it -> itemOf s it.
Proof.
  intros Hp. destruct (pickFields_inv s it Hp) as (_ & Ha & _ & _ & Hl & _ & Hd).
  repeat split; assumption.
Qed.

Lemma mapM_itemOf `{Engine} (l : list JSValue) (items : list RecurringItem) :
  mapM pickFields l = Return items -> Forall2 itemOf l items.
Proof.
  intros Hm. apply mapM_Forall2 in Hm.
  induction Hm; constructor; [apply pickFields_itemOf|]; assumption.
Qed.

(** C1, as the code has it.  Whenever one of the copies of
    [toRecurringItems] that merge both lists returns, its output is a
    rearrangement of the items of the streams of the inflow list followed by
    those of the outflow list whose activity flag is truthy, and of nothing
    else: every stream of either list with a truthy flag has its item in the
    output, and every item of the output is the item of a stream of one of
    the lists with a truthy flag (a false or missing flag excludes the
    stream).  These copies return on every payload whose two lists hold
    processable streams.  The third copy reads the outflow list only: its
    output is a rearrangement of the items of the streams of the outflow
    list with a truthy flag, and no stream of the inflow list has a part in
    it. *)
Theorem toRecurringItems_active_of_both_lists `{Engine} :
  (forall resp out,
     MergeBoth.toRecurringItems resp = Return out ->
     let inflow := streamList resp "inflow_streams" in
     let outflow := streamList resp "outflow_streams" in
     exists items,
       Forall2 itemOf
         (List.filter activeFlag inflow ++ List.filter activeFlag outflow) items /\
       Permutation items out /\
       (forall s, In s inflow \/ In s outflow -> activeFlag s = true ->
          exists it, In it out /\ itemOf s it) /\
       (forall it, In it out ->
          exists s, (In s inflow \/ In s outflow) /\ activeFlag s = true /\
                    itemOf s it)) /\
  (forall props inflow outflow,
     own props "inflow_streams" = JSArray inflow ->
     own props "outflow_streams" = JSArray outflow ->
     Forall (fun s => streamOk s = true) (inflow ++ outflow) ->
     streamList (JSObject props) "inflow_streams" = inflow /\
     streamList (JSObject props) "outflow_streams" = outflow /\
     exists out, MergeBoth.toRecurringItems (JSObject props) = Return out) /\
  (forall resp out,
     OutflowOnly.toRecurringItems resp = Return out ->
     let outflow := arrayAt resp "outflow_streams" in
     exists items,
       Forall2 itemOf (List.filter activeFlag outflow) items /\
       Permutation items out /\
       (forall s, In s outflow -> activeFlag s = true ->
          exists it, In it out /\ itemOf s it) /\
       (forall it, In it out ->
          exists s, In s outflow /\ activeFlag s = true /\ itemOf s it)).
Proof.
  split; [|split].
  - intros resp out Hr inflow outflow.
    destruct (toRecurringItems_returns_inv resp out Hr)
      as (iin & iout & Hiin & Hiout & Hsort).
    fold inflow in Hiin. fold outflow in Hiout.
    pose proof (sort_perm _ _ _ Hsort) as Hperm.
    assert (Hall : Forall2 itemOf
                     (List.filter activeFlag inflow ++ List.filter activeFlag outflow)
                     (iin ++ iout)).
    { apply Forall2_app; apply mapM_itemOf; assumption. }
    exists (iin ++ iout). repeat split.
    + exact Hall.
    + exact Hperm.
    + intros s Hs Ha.
      destruct (Forall2_In_l _ _ _ s Hall) as (it & Hit & Hp).
      { apply in_or_app. destruct Hs as [Hs|Hs]; [left|right];
          apply List.filter_In; tauto. }
      exists it. split; [|exact Hp].
      eapply Permutation_in; eassumption.
    + intros it Hit.
      apply (Permutation_in _ (Permutation_sym Hperm)) in Hit.
      destruct (Forall2_In_r _ _ _ it Hall Hit) as (s & Hs & Hp).
      exists s. apply in_app_or in Hs.
      destruct Hs as [Hs|Hs]; apply List.filter_In in Hs; tauto.
  - intros props inflow outflow Hin Hout Hok.
    split; [unfold streamList, or_else; simpl; rewrite Hin; reflexivity|].
    split; [unfold streamList, or_else; simpl; rewrite Hout; reflexivity|].
    destruct (actives_normalized inflow outflow Hok) as [items Hitems].
    pose proof (items_dates inflow outflow Hok items Hitems) as Hdates.
    destruct (sort_total byNextDate
                (fun it => predicted_next_date it = keyToJS (dateKey it))
                byNextDate_returns items) as [out Hsort].
    { eapply List.Forall_impl; [|exact Hdates]. intros it [Hk _]. exact Hk. }
    exists out.
    rewrite (toRecurringItems_both props inflow outflow Hin Hout Hok).
    rewrite Hitems. exact Hsort.
  - intros resp out Hr outflow.
    destruct (outflowOnly_returns_inv resp out Hr) as (items & Hitems & Hsort).
    fold outflow in Hitems.
    pose proof (sort_perm _ _ _ Hsort) as Hperm.
    pose proof (mapM_itemOf _ _ Hitems) as Hall.
    exists items. repeat split.
    + exact Hall.
    + exact Hperm.
    + intros s Hs Ha.
      destruct (Forall2_In_l _ _ _ s Hall) as (it & Hit & Hp).
      { apply List.filter_In; tauto. }
      exists it. split; [|exact Hp].
      eapply Permutation_in; eassumption.
    + intros it Hit.
      apply (Permutation_in _ (Permutation_sym Hperm)) in Hit.
      destruct (Forall2_In_r _ _ _ it Hall Hit) as (s & Hs & Hp).
      exists s. apply List.filter_In in Hs. tauto.
Qed.

(** C2, as the code has it.  Whenever [toRecurringItems] (the copies that
    merge both lists) returns items whose dates are strings or missing, on
    an engine whose [localeCompare] is a consistent comparison of these
    dates: the output is the list of items of the active streams (inflow
    first, then outflow) rearranged so that, for every item [a] that comes
    before an item [b], the date of [a] is not after the date of [b] in the
    order of [localeCompare] and an item without a date is never before one
    with a date; and the items of one key (the same date, or no date) keep
    the order they had in the input.  The order is that of the collation of
    the host, not of the code units; where the collation orders the dates as
    their code units do (as on ISO dates), it is the lexicographic order. *)
Theorem toRecurringItems_sorted_stable `{Engine} (resp : JSValue)
  (out : list RecurringItem) (D : string -> Prop) :
  MergeBoth.toRecurringItems resp = Return out ->
  Forall (ordered_item D) out ->
  consistentOn localeCompare D ->
  exists items,
    Forall2 itemOf
      (List.filter activeFlag (streamList resp "inflow_streams") ++
       List.filter activeFlag (streamList resp "outflow_streams")) items /\
    Permutation items out /\
    (forall l1 a l2 b l3, out = l1 ++ a :: l2 ++ b :: l3 ->
       keyLeBy localeCompare (dateKey a) (dateKey b)) /\
    (forall k, List.filter (hasKey k) out = List.filter (hasKey k) items) /\
    (codeUnitOn localeCompare D ->
     forall l1 a l2 b l3, out = l1 ++ a :: l2 ++ b :: l3 ->
       keyLe (dateKey a) (dateKey b)).
Proof.
  intros Hr Hout Hcons.
  destruct (toRecurringItems_returns_inv resp out Hr)
    as (iin & iout & Hiin & Hiout & Hsort).
  pose proof (sort_perm _ _ _ Hsort) as Hperm.
  assert (Hord : Forall (ordered_item D) (iin ++ iout)).
  { rewrite Hperm. exact Hout. }
  assert (Hsorted : StronglySorted (leA dateKey (keyLeIn localeCompare D)) out).
  { eapply (sort_sorted byNextDate dateKey (keyLeIn localeCompare D)
              (ordered_item D));
      [exact (keyLeIn_trans D Hcons) | | exact Hord | exact Hsort].
    intros a' b' c. apply (byNextDate_spec D Hcons). }
  exists (iin ++ iout). split; [|split; [exact Hperm | split; [|split]]].
  - apply Forall2_app; apply mapM_itemOf; assumption.
  - intros l1 a l2 b l3 Hdec. rewrite Hdec in Hsorted.
    apply sorted_before in Hsorted. apply Hsorted.
  - intros k.
    eapply (sort_stable byNextDate dateKey (keyLeIn localeCompare D) hasKey
              (ordered_item D));
      [ | | exact Hord | exact Hsort].
    + intros k' a'. unfold hasKey. apply bool_decide_eq_true.
    + intros a' b' c. apply (byNextDate_spec D Hcons).
  - intros Hcode l1 a l2 b l3 Hdec. rewrite Hdec in Hsorted.
    apply sorted_before in Hsorted. destruct Hsorted as (Ka & Kb & Hle).
    exact (keyLeBy_keyLe D _ _ Hcode Ka Kb Hle).
Qed.

End NormalizerProperties.

Section NormalizerExamples.
Import Formatter Props Samples MoreProps.
#[local] Existing Instance plainEngine.

Lemma signOf_codeUnitCompare (x y : string) :
  signOf (codeUnitCompare x y) = String.compare x y.
Proof. unfold codeUnitCompare. destruct (String.compare x y); reflexivity. Qed.

Lemma codeUnitCompare_codeUnitOn (D : string -> Prop) :
  codeUnitOn codeUnitCompare D.
Proof. intros x y _ _. exact (signOf_codeUnitCompare x y). Qed.

(** The sample payload: it is processable, the copies that merge both lists
    return on it, and their output is as C1 says. *)
Lemma toRecurringItems_active_of_both_lists_witness :
  (own payloadProps "inflow_streams" = JSArray inflowList /\
   own payloadProps "outflow_streams" = JSArray outflowList /\
   Forall (fun s => streamOk s = true) (inflowList ++ outflowList)) /\
  exists out items,
    MergeBoth.toRecurringItems (JSObject payloadProps) = Return out /\
    Forall2 itemOf
      (List.filter activeFlag inflowList ++ List.filter activeFlag outflowList)
      items /\
    Permutation items out /\
    (forall s, In s inflowList \/ In s outflowList -> activeFlag s = true ->
       exists it, In it out /\ itemOf s it) /\
    (forall it, In it out ->
       exists s, (In s inflowList \/ In s outflowList) /\ activeFlag s = true /\
                 itemOf s it).
Proof.
  assert (Hok : Forall (fun s => streamOk s = true) (inflowList ++ outflowList))
    by (repeat constructor).
  split; [split; [reflexivity | split; [reflexivity | exact Hok]] |].
  destruct (proj1 (proj2 toRecurringItems_active_of_both_lists) payloadProps
              inflowList outflowList eq_refl eq_refl Hok) as (_ & _ & out & Hout).
  exists out.
  destruct (proj1 toRecurringItems_active_of_both_lists (JSObject payloadProps)
              out Hout) as (items & Hitems).
  exists items. split; [exact Hout | exact Hitems].
Defined.

(** C1 as the specification words it fails on the copy that reads the
    outflow list only: the salary is a stream of the inflow list with a
    truthy flag, and its item is not in the output. *)
Lemma toRecurringItems_outflow_only_drops_inflow :
  In salary inflowList /\ activeFlag salary = true /\
  pickFields salary = Return salaryItem /\
  OutflowOnly.toRecurringItems (JSObject payloadProps)
    = Return [netflixItem; spotifyItem] /\
  ~ In salaryItem [netflixItem; spotifyItem].
Proof.
  split; [left; reflexivity|]. split; [reflexivity|]. split; [reflexivity|].
  split; [reflexivity|].
  intros [Hn|[Hs|[]]]; discriminate.
Qed.

(** A payload with a tie on 14 September and two items without a date, on
    the engine that collates by code unit: the rent comes before Spotify and
    the salary before the gym, as in the input. *)
Lemma toRecurringItems_sorted_stable_witness :
  (MergeBoth.toRecurringItems tiedPayload
     = Return [netflixItem; rentItem; spotifyItem; salaryItem; gymItem] /\
   Forall (ordered_item (fun _ => True))
     [netflixItem; rentItem; spotifyItem; salaryItem; gymItem] /\
   consistentOn localeCompare (fun _ => True)) /\
  exists items,
    Forall2 itemOf
      (List.filter activeFlag (streamList tiedPayload "inflow_streams") ++
       List.filter activeFlag (streamList tiedPayload "outflow_streams")) items /\
    Permutation items [netflixItem; rentItem; spotifyItem; salaryItem; gymItem] /\
    (forall l1 a l2 b l3,
       [netflixItem; rentItem; spotifyItem; salaryItem; gymItem]
         = l1 ++ a :: l2 ++ b :: l3 ->
       keyLeBy localeCompare (dateKey a) (dateKey b)) /\
    (forall k,
       List.filter (hasKey k)
         [netflixItem; rentItem; spotifyItem; salaryItem; gymItem]
       = List.filter (hasKey k) items) /\
    (codeUnitOn localeCompare (fun _ => True) ->
     forall l1 a l2 b l3,
       [netflixItem; rentItem; spotifyItem; salaryItem; gymItem]
         = l1 ++ a :: l2 ++ b :: l3 ->
       keyLe (dateKey a) (dateKey b)).
Proof.
  assert (Hord : Forall (ordered_item (fun _ => True))
                   [netflixItem; rentItem; spotifyItem; salaryItem; gymItem]).
  { repeat constructor. }
  assert (Hcons : consistentOn localeCompare (fun _ => True)).
  { apply codeUnitOn_consistentOn, codeUnitCompare_codeUnitOn. }
  split; [split; [reflexivity | split; [exact Hord | exact Hcons]]|].
  exact (toRecurringItems_sorted_stable tiedPayload _ (fun _ => True)
           eq_refl Hord Hcons).
Defined.

(** What the sample payload normalizes to: Netflix (1 September) before
    Spotify (14 September) before the undated salary; the inactive and the
    unflagged stream are gone. *)
Example toRecurringItems_sample :
  MergeBoth.toRecurringItems (JSObject payloadProps) =
  Return [netflixItem; spotifyItem; salaryItem].
Proof. reflexivity. Qed.

(** The copy that reads the outflow list only loses the active salary of
    the inflow list. *)
Example outflowOnly_drops_active_inflow :
  OutflowOnly.toRecurringItems (JSObject payloadProps) =
  Return [netflixItem; spotifyItem].
Proof. reflexivity. Qed.

(** The items of the tie, where the input has them in this order. *)
Example tied_input_order :
  mapM pickFields
    (List.filter activeFlag (streamList tiedPayload "inflow_streams") ++
     List.filter activeFlag (streamList tiedPayload "outflow_streams"))
  = Return [salaryItem; rentItem; spotifyItem; netflixItem; gymItem].
Proof. reflexivity. Qed.

End NormalizerExamples.

Section CollationExample.
Import Formatter Props Samples MoreProps.
#[local] Existing Instance localeEngine.

(** C2 as the specification words it fails: on an engine that collates as
    the hosts do, letters before case, the stream dated "apr-01" comes
    before the one dated "Oct-01", which is first in lexicographic order. *)
Lemma toRecurringItems_not_lexicographic :
  MergeBoth.toRecurringItems
    (JSObject [("outflow_streams", JSArray [october; april])])
    = Return [aprilItem; octoberItem] /\
  predicted_next_date aprilItem = JSString "apr-01" /\
  predicted_next_date octoberItem = JSString "Oct-01" /\
  String.compare "apr-01" "Oct-01" = Gt /\
  String.leb "apr-01" "Oct-01" = false.
Proof. repeat split. Qed.

End CollationExample.

(** The copy that reads the outflow list only: the inflow list has no part
    in its result. *)
Lemma outflowOnly_reads_outflow `{Engine}
  (props : list (string * JSValue)) (outflow : list JSValue) :
  own props "outflow_streams" = JSArray outflow ->
  Formatter.OutflowOnly.toRecurringItems (JSObject props) =
  (act ← Formatter.filterActive (JSArray outflow);
   combined ← mapM Formatter.pickFields act;
   Formatter.sort Formatter.byNextDate combined).
Proof.
  intros Hout. unfold Formatter.OutflowOnly.toRecurringItems. simpl.
  rewrite Hout. reflexivity.
Qed.


(* ================================================================== *)
(** * The normalizer on missing and malformed payloads                 *)
(* ================================================================== *)

Section MissingInput.
Import Formatter Props.
Context `{Engine}.

Lemma active_falsy (arr : JSValue) :
  truthy arr = false -> MergeBoth.active arr = Return [].
Proof. intros Ha. unfold MergeBoth.active, or_else. rewrite Ha. reflexivity. Qed.

Lemma toRecurringItems_falsy (resp : JSValue) :
  truthy resp = false -> MergeBoth.toRecurringItems resp = Return [].
Proof.
  intros Hr. unfold MergeBoth.toRecurringItems, or_else. rewrite Hr. reflexivity.
Qed.

Lemma toRecurringItems_not_object (resp : JSValue) :
  (forall props, resp <> JSObject props) ->
  MergeBoth.toRecurringItems resp = Return [].
Proof.
  intros Hno. destruct (truthy resp) eqn:Hr; [|apply toRecurringItems_falsy, Hr].
  unfold MergeBoth.toRecurringItems, or_else. rewrite Hr.
  destruct resp; try discriminate; try reflexivity.
  exfalso. eapply Hno. reflexivity.
Qed.

Lemma toRecurringItems_object (props : list (string * JSValue)) :
  MergeBoth.toRecurringItems (JSObject props) =
  (ain ← MergeBoth.active (own props "inflow_streams");
   iin ← mapM pickFields ain;
   aout ← MergeBoth.active (own props "outflow_streams");
   iout ← mapM pickFields aout;
   sort byNextDate (iin ++ iout)).
Proof. reflexivity. Qed.

(** C6, as the code has it.  [toRecurringItems] (the copies that merge both
    lists) returns the empty sequence, without an error, for every input that
    is absent (falsy), that is not a plain object, or that is an object in
    which both lists are missing; and when one list only is missing it counts
    as the empty list, the result being that of the same payload with an
    empty list in its place. *)
Theorem toRecurringItems_tolerates_missing :
  (forall resp, truthy resp = false -> MergeBoth.toRecurringItems resp = Return []) /\
  (forall resp, (forall props, resp <> JSObject props) ->
     MergeBoth.toRecurringItems resp = Return []) /\
  (forall props,
     truthy (own props "inflow_streams") = false ->
     truthy (own props "outflow_streams") = false ->
     MergeBoth.toRecurringItems (JSObject props) = Return []) /\
  (forall props,
     truthy (own props "inflow_streams") = false ->
     MergeBoth.toRecurringItems (JSObject props) =
     MergeBoth.toRecurringItems
       (JSObject [("inflow_streams", JSArray []);
                  ("outflow_streams", own props "outflow_streams")])) /\
  (forall props,
     truthy (own props "outflow_streams") = false ->
     MergeBoth.toRecurringItems (JSObject props) =
     MergeBoth.toRecurringItems
       (JSObject [("inflow_streams", own props "inflow_streams");
                  ("outflow_streams", JSArray [])])).
Proof.
  split; [exact toRecurringItems_falsy|].
  split; [exact toRecurringItems_not_object|].
  split; [|split].
  - intros props Hi Ho. rewrite toRecurringItems_object.
    rewrite (active_falsy _ Hi), (active_falsy _ Ho). reflexivity.
  - intros props Hi. rewrite !toRecurringItems_object.
    rewrite (active_falsy _ Hi). reflexivity.
  - intros props Ho. rewrite !toRecurringItems_object.
    rewrite (active_falsy _ Ho). reflexivity.
Qed.

(** The copy that reads the outflow list only never fails on account of the
    payload's shape: whatever is not an array counts as no streams. *)
Lemma outflowOnly_tolerates (resp : JSValue) :
  (forall l, getOpt resp "outflow_streams" <> JSArray l) ->
  OutflowOnly.toRecurringItems resp = Return [].
Proof.
  intros Hno. unfold OutflowOnly.toRecurringItems.
  destruct (truthy resp) eqn:Hr; [|reflexivity].
  rewrite get_getOpt by (destruct resp; simpl in *; congruence).
  rewrite bind_Return.
  destruct (getOpt resp "outflow_streams") eqn:Eo; try reflexivity.
  exfalso. eapply Hno. reflexivity.
Qed.

End MissingInput.

(* ================================================================== *)
(** * The amount of a normalized item                                  *)
(* ================================================================== *)

Section Amounts.
Import Formatter Props.
Context `{Engine}.

(** The amount of an item is the number its picked amount converts to. *)
Lemma pickFields_amount_picked (s : JSValue) (it : RecurringItem) :
  pickFields s = Return it ->
  nullish s = false /\
  exists a, pickAmount s = Return a /\
            ToNumber a = Return (amount (average_amount it)).
Proof.
  unfold pickFields. intros Hp.
  destruct (nullish s) eqn:Hn.
  { destruct s; simpl in Hn; try discriminate; simpl in Hp; discriminate. }
  split; [reflexivity|].
  apply bind_Return_inv in Hp as (acc & _ & Hp).
  apply bind_Return_inv in Hp as (a & Ha & Hp).
  apply bind_Return_inv in Hp as (n & Hnum & Hp).
  repeat (apply bind_Return_inv in Hp as (? & ? & Hp)).
  injection Hp as <-. simpl. exists a. split; assumption.
Qed.

Lemma amountAbsent_guard (s : JSValue) (k : string) :
  amountAbsent s k = true ->
  nullish (if truthy (getOpt s k) then getOpt (getOpt s k) "amount"
           else getOpt s k) = true.
Proof.
  unfold amountAbsent. destruct (getOpt s k); simpl; try discriminate; auto.
Qed.

(** The amount where the amount fields are objects or missing.  For every
    stream that [pickFields] normalizes, the amount of the item is a number
    (the numeric conversion of the amount picked) and: it is
    [average_amount.amount] when that is a number; it is [last_amount.amount]
    when the average amount is missing ([null], [undefined], or an object
    without an amount) and that is a number; it is zero when both are
    missing. *)
Theorem pickFields_amount (s : JSValue) (it : RecurringItem) :
  pickFields s = Return it ->
  (exists a, pickAmount s = Return a /\
             ToNumber a = Return (amount (average_amount it))) /\
  (forall avg n,
     getOpt s "average_amount" = JSObject avg -> own avg "amount" = JSNumber n ->
     amount (average_amount it) = n) /\
  (forall lst m,
     amountAbsent s "average_amount" = true ->
     getOpt s "last_amount" = JSObject lst -> own lst "amount" = JSNumber m ->
     amount (average_amount it) = m) /\
  (amountAbsent s "average_amount" = true ->
   amountAbsent s "last_amount" = true ->
   amount (average_amount it) = 0%float).
Proof.
  intros Hp. destruct (pickFields_amount_picked s it Hp) as (Hn & a & Ha & Hnum).
  split; [exists a; split; assumption|].
  rewrite (pickAmount_getOpt s Hn) in Ha. injection Ha as Ha. cbv zeta in Ha.
  split; [|split].
  - intros avg n Havg Hamt. rewrite Havg in Ha. simpl in Ha.
    rewrite Hamt in Ha. simpl in Ha. subst a. simpl in Hnum. congruence.
  - intros lst m Habs Hlast Hamt.
    rewrite (amountAbsent_guard _ _ Habs) in Ha.
    rewrite Hlast in Ha. simpl in Ha. rewrite Hamt in Ha. simpl in Ha.
    subst a. simpl in Hnum. congruence.
  - intros Habs1 Habs2.
    rewrite (amountAbsent_guard _ _ Habs1) in Ha.
    unfold coalesce in Ha. rewrite (amountAbsent_guard _ _ Habs2) in Ha.
    subst a. simpl in Hnum. congruence.
Qed.

End Amounts.

Section MissingInputAndAmountExamples.
Import Formatter Props Samples MoreProps.
#[local] Existing Instance plainEngine.

(** C6 as the specification words it fails: this payload has no inflow
    list, and the result is not empty. *)
Lemma toRecurringItems_missing_inflow_not_empty :
  hasOwn outflowOnlyProps "inflow_streams" = false /\
  MergeBoth.toRecurringItems (JSObject outflowOnlyProps) = Return [spotifyItem].
Proof. split; reflexivity. Qed.

(** The same on every engine. *)
Lemma toRecurringItems_missing_inflow_any_engine (E : Engine) :
  @MergeBoth.toRecurringItems E (JSObject outflowOnlyProps) = Return [spotifyItem].
Proof. reflexivity. Qed.

(** C6 as the code has it, at inputs of each kind. *)
Lemma toRecurringItems_tolerates_missing_witness :
  MergeBoth.toRecurringItems JSUndefined = Return [] /\
  MergeBoth.toRecurringItems (JSString "oops") = Return [] /\
  MergeBoth.toRecurringItems (JSObject [("inflow_streams", JSNull)]) = Return [] /\
  MergeBoth.toRecurringItems (JSObject outflowOnlyProps) =
  MergeBoth.toRecurringItems
    (JSObject [("inflow_streams", JSArray []);
               ("outflow_streams", JSArray [spotify])]).
Proof.
  pose proof toRecurringItems_tolerates_missing as (Hf & Hn & Hb & Hi & _).
  split; [exact (Hf JSUndefined eq_refl)|].
  split; [apply Hn; discriminate|].
  split; [exact (Hb [("inflow_streams", JSNull)] eq_refl eq_refl)|].
  exact (Hi outflowOnlyProps eq_refl).
Defined.

(** The three amounts of the specification: 9.99 from the average amount,
    5 from the last amount, 0 from neither. *)
Lemma pickFields_amount_witness :
  (pickFields spotify = Return spotifyItem /\
   pickFields netflix = Return netflixItem /\
   pickFields salary = Return salaryItem) /\
  amount (average_amount spotifyItem) = 9.99%float /\
  amount (average_amount netflixItem) = 5%float /\
  amount (average_amount salaryItem) = 0%float.
Proof.
  split; [repeat split|].
  split; [|split].
  - exact (proj1 (proj2 (pickFields_amount spotify spotifyItem eq_refl))
             _ 9.99%float eq_refl eq_refl).
  - exact (proj1 (proj2 (proj2 (pickFields_amount netflix netflixItem eq_refl)))
             _ 5%float eq_refl eq_refl eq_refl).
  - exact (proj2 (proj2 (proj2 (pickFields_amount salary salaryItem eq_refl)))
             eq_refl eq_refl).
Defined.

(** Outside the typed payloads: a falsy average amount that is not [null]
    stops the fallback, and its own conversion is the amount. *)
Example pickAmount_falsy_average :
  pickAmount
    (JSObject [("average_amount", JSNumber 0);
               ("last_amount", JSObject [("amount", JSNumber 5)])]) =
  Return (JSNumber 0).
Proof. reflexivity. Qed.

(** C9, where the code departs from it.  The average amount of this stream
    is the number zero, so the stream has no [average_amount.amount], and
    its [last_amount.amount] is five; the stream is one the formatter
    processes.  The amount of its item is zero, not five: the guard
    [s.average_amount && s.average_amount.amount] hands the falsy average
    amount itself to [??], which replaces [null] and [undefined] only, so
    the last amount is never looked at.  The comment above the expression
    ("Prefer s.average_amount.amount, else s.last_amount.amount, else 0")
    says five. *)
Theorem pickFields_amount_ignores_last (E : Engine) :
  getOpt (getOpt zeroAverage "average_amount") "amount" = JSUndefined /\
  getOpt (getOpt zeroAverage "last_amount") "amount" = JSNumber 5 /\
  streamOk zeroAverage = true /\
  pickAmount zeroAverage = Return (JSNumber 0) /\
  exists it, @pickFields E zeroAverage = Return it /\
             amount (average_amount it) = 0%float /\
             amount (average_amount it) <> 5%float /\
             @MergeBoth.toRecurringItems E
               (JSObject [("outflow_streams", JSArray [zeroAverage])])
             = Return [it].
Proof.
  split; [reflexivity|]. split; [reflexivity|]. split; [reflexivity|].
  split; [reflexivity|].
  eexists. split; [reflexivity|]. simpl. split; [reflexivity|].
  split; [|reflexivity].
  intros Heq. assert (Hz : PrimFloat.is_zero 0 = PrimFloat.is_zero 5)
    by (rewrite Heq at 1; reflexivity).
  discriminate Hz.
Qed.

(** Outside the typed payloads too: the comparator can call [localeCompare]
    on the date of its first argument only when that is a string, and the
    sort hands it the later element first.  A date that is a number in front
    of a string date is compared as second argument, and the sort returns;
    behind it, it is the first argument, and the sort throws. *)
Example sort_asks_later_element_first (E : Engine) :
  (exists out,
     @MergeBoth.toRecurringItems E
       (JSObject [("outflow_streams",
                   JSArray [JSObject [("is_active", JSBool true);
                                      ("predicted_next_date", JSNumber 5)];
                            JSObject [("is_active", JSBool true);
                                      ("predicted_next_date",
                                       JSString "2025-01-01")]])])
     = Return out) /\
  @MergeBoth.toRecurringItems E
    (JSObject [("outflow_streams",
                JSArray [JSObject [("is_active", JSBool true);
                                   ("predicted_next_date", JSString "2025-01-01")];
                         JSObject [("is_active", JSBool true);
                                   ("predicted_next_date", JSNumber 5)]])])
  = Throw TypeError.
Proof.
  split; [|reflexivity].
  unfold MergeBoth.toRecurringItems, sort. simpl.
  destruct (PrimFloat.ltb _ 0); eexists; reflexivity.
Qed.

(** Outside the typed payloads too: a list that is present and no array
    makes the merging copies throw, where the other copy returns nothing. *)
Example toRecurringItems_list_not_array (E : Engine) :
  @MergeBoth.toRecurringItems E (JSObject [("outflow_streams", JSNumber 5)]) =
    Throw TypeError /\
  @OutflowOnly.toRecurringItems E (JSObject [("outflow_streams", JSNumber 5)]) =
    Return [].
Proof. split; reflexivity. Qed.

End MissingInputAndAmountExamples.

(* ================================================================== *)
(** * The cache                                                        *)
(* ================================================================== *)

Section CacheReads.
Import Cache Props.
Context `{Engine}.
Variable TTL : float.

Lemma readCache_Some_iff (st : Storage) (now : float) (uid : string)
  (l : list JSValue) :
  readCache TTL st now uid = Some l <-> served TTL st now uid l.
Proof.
  unfold served.
  unfold readCache, readCache_try, getItem. split.
  - destruct (blocked st); [discriminate|]. rewrite bind_Return.
    destruct (slots st !! cacheKey uid) as [text|] eqn:Hs; [|discriminate].
    destruct (isEmptyText text) eqn:Et; [discriminate|].
    destruct (JSON_parse text) as [obj|e] eqn:Hp; [|discriminate].
    rewrite bind_Return.
    cbv zeta.
    destruct (getOpt obj "items") as [| |b|x|s|items|o] eqn:Ei;
      try discriminate; simpl;
      try (destruct (negb _); discriminate).
    rewrite get_getOpt by (destruct obj; simpl in *; congruence).
    rewrite bind_Return.
    destruct (truthy (getOpt obj "ts")) eqn:Tt; [|discriminate]. simpl.
    destruct (ToNumber (getOpt obj "ts")) as [n|e] eqn:Hn; [|discriminate].
    rewrite bind_Return.
    destruct (PrimFloat.ltb TTL (PrimFloat.sub now n)) eqn:Ex; [discriminate|].
    simpl. intros Hl. injection Hl as <-.
    split; [reflexivity|]. exists text, obj, n. repeat split; assumption.
  - intros (Hb & text & obj & n & Hs & Et & Hp & Hi & Tt & Hn & Hx).
    rewrite Hb, bind_Return, Hs, Et, Hp, bind_Return. cbv zeta.
    rewrite Hi. simpl.
    rewrite get_getOpt by (destruct obj; simpl in *; congruence).
    rewrite bind_Return, Tt. simpl. rewrite Hn, bind_Return, Hx. reflexivity.
Qed.

Lemma readCache_None_iff (st : Storage) (now : float) (uid : string) :
  readCache TTL st now uid = None <->
  forall l, readCache TTL st now uid <> Some l.
Proof.
  destruct (readCache TTL st now uid) as [l|]; split; congruence.
Qed.

(** C3, as the code has it.  [readCache] returns the stored items exactly
    when storage can be read, the slot of the identity holds a non-empty text
    that [JSON.parse] accepts, the items of the parsed value are an array,
    its [ts] is truthy and converts to a number [n] without an error, and
    [now - n] does not exceed the time to live; in every other case, and in
    no other, it returns [null].  The timestamp is tested for truthiness, not
    for being a number. *)
Theorem readCache_characterized (st : Storage) (now : float) (uid : string) :
  (forall l, readCache TTL st now uid = Some l <-> served TTL st now uid l) /\
  (readCache TTL st now uid = None <-> forall l, ~ served TTL st now uid l).
Proof.
  split; [intros l; apply readCache_Some_iff|].
  rewrite readCache_None_iff. split; intros Hn l Hl; apply (Hn l);
    apply readCache_Some_iff; exact Hl.
Qed.

(** The cases in which the characterization gives [null]. *)
Lemma readCache_no_entry (st : Storage) (now : float) (uid : string) :
  slots st !! cacheKey uid = None -> readCache TTL st now uid = None.
Proof.
  intros Hs. apply readCache_None_iff. intros l Hl.
  apply readCache_Some_iff in Hl as (_ & text & obj & n & Hs' & _).
  congruence.
Qed.

Lemma readCache_blocked (st : Storage) (now : float) (uid : string) :
  blocked st = true -> readCache TTL st now uid = None.
Proof.
  intros Hb. apply readCache_None_iff. intros l Hl.
  apply readCache_Some_iff in Hl as (Hb' & _). congruence.
Qed.

Lemma readCache_not_json (st : Storage) (now : float) (uid : string)
  (text : StoredText) (e : JSError) :
  slots st !! cacheKey uid = Some text -> JSON_parse text = Throw e ->
  readCache TTL st now uid = None.
Proof.
  intros Hs Hp. apply readCache_None_iff. intros l Hl.
  apply readCache_Some_iff in Hl as (_ & text' & obj & n & Hs' & _ & Hp' & _).
  congruence.
Qed.

Lemma readCache_items_not_array (st : Storage) (now : float) (uid : string)
  (text : StoredText) (obj : JSValue) :
  slots st !! cacheKey uid = Some text -> JSON_parse text = Return obj ->
  isArray (getOpt obj "items") = false ->
  readCache TTL st now uid = None.
Proof.
  intros Hs Hp Hi. apply readCache_None_iff. intros l Hl.
  apply readCache_Some_iff in Hl
    as (_ & text' & obj' & n & Hs' & _ & Hp' & Hi' & _).
  assert (obj' = obj) by congruence. subst obj'.
  rewrite Hi' in Hi. discriminate.
Qed.

Lemma readCache_falsy_ts (st : Storage) (now : float) (uid : string)
  (text : StoredText) (obj : JSValue) :
  slots st !! cacheKey uid = Some text -> JSON_parse text = Return obj ->
  truthy (getOpt obj "ts") = false ->
  readCache TTL st now uid = None.
Proof.
  intros Hs Hp Ht. apply readCache_None_iff. intros l Hl.
  apply readCache_Some_iff in Hl
    as (_ & text' & obj' & n & Hs' & _ & Hp' & _ & Ht' & _).
  assert (obj' = obj) by congruence. subst obj'. congruence.
Qed.

Lemma readCache_expired (st : Storage) (now : float) (uid : string)
  (text : StoredText) (obj : JSValue) (n : float) :
  slots st !! cacheKey uid = Some text -> JSON_parse text = Return obj ->
  ToNumber (getOpt obj "ts") = Return n ->
  PrimFloat.ltb TTL (PrimFloat.sub now n) = true ->
  readCache TTL st now uid = None.
Proof.
  intros Hs Hp Hn Hx. apply readCache_None_iff. intros l Hl.
  apply readCache_Some_iff in Hl
    as (_ & text' & obj' & n' & Hs' & _ & Hp' & _ & _ & Hn' & Hx').
  assert (obj' = obj) by congruence. subst obj'.
  assert (n' = n) by congruence. subst n'. congruence.
Qed.

(** A comparison with NaN is false: a timestamp that converts to NaN never
    expires. *)
Lemma ltb_sub_nan (now n : float) :
  PrimFloat.is_nan n = true -> PrimFloat.ltb TTL (PrimFloat.sub now n) = false.
Proof.
  intros Hn.
  assert (Prim2SF n = S754_nan) as Hsf.
  { unfold PrimFloat.is_nan in Hn. rewrite FloatAxioms.eqb_spec in Hn.
    unfold SFeqb, SFcompare in Hn.
    destruct (Prim2SF n) as [s|s| |s m e]; try reflexivity; simpl in Hn.
    - destruct s; discriminate.
    - destruct s; discriminate.
    - destruct s; rewrite ?Z.compare_refl, ?Pos.compare_cont_refl in Hn;
        try rewrite Pos.compare_refl in Hn; discriminate. }
  rewrite FloatAxioms.ltb_spec, FloatAxioms.sub_spec, Hsf.
  unfold SF64sub, SFsub, SFltb, SFcompare.
  destruct (Prim2SF now) as [s|s| |s m e]; destruct (Prim2SF TTL); reflexivity.
Qed.

End CacheReads.

Section CacheRoundTrip.
Import Cache Props.
Context `{Engine}.
Variable TTL : float.

Lemma writeCache_ok (st : Storage) (t0 : float) (uid : string) (items : list JSValue) :
  blocked st = false -> full st = false ->
  writeCache st t0 uid items =
  {| slots := <[cacheKey uid :=
                  JSON_stringify (JSObject [("ts", JSNumber t0);
                                            ("items", JSArray items)])]> (slots st);
     blocked := false; full := false |}.
Proof.
  intros Hb Hf. unfold writeCache, setItem. rewrite Hb, Hf. reflexivity.
Qed.

Lemma writeCache_blocked (st : Storage) (t0 : float) (uid : string)
  (items : list JSValue) :
  blocked st = true -> writeCache st t0 uid items = st.
Proof. intros Hb. unfold writeCache, setItem. rewrite Hb. reflexivity. Qed.

(** The clock has not moved: [t - t] is zero (or NaN), never above a
    positive time to live. *)
Lemma sub_diag_not_above (t : float) :
  PrimFloat.ltb 0 TTL = true -> PrimFloat.ltb TTL (PrimFloat.sub t t) = false.
Proof.
  intros Hpos. rewrite FloatAxioms.ltb_spec in Hpos |- *.
  rewrite FloatAxioms.sub_spec.
  change (Prim2SF 0) with (S754_zero false) in Hpos.
  unfold SF64sub, SFsub.
  destruct (Prim2SF t) as [s|s| |s m e].
  - destruct s; simpl; unfold SFltb, SFcompare in *;
      destruct (Prim2SF TTL) as [[]|[]| |[] ? ?]; simpl in *; congruence.
  - destruct s; simpl; unfold SFltb, SFcompare;
      destruct (Prim2SF TTL) as [[]|[]| |[] ? ?]; reflexivity.
  - unfold SFltb, SFcompare; destruct (Prim2SF TTL) as [[]|[]| |[] ? ?]; reflexivity.
  - rewrite Z.sub_diag. simpl.
    unfold SFltb, SFcompare in *;
      destruct (Prim2SF TTL) as [[]|[]| |[] ? ?]; simpl in *; congruence.
Qed.

(** What a read finds after a write that storage took, within the time to
    live: the items as JSON carries them. *)
Lemma read_after_write (st : Storage) (uid : string) (items : list JSValue)
  (t0 t1 : float) :
  blocked st = false -> full st = false ->
  truthy (JSNumber t0) = true -> PrimFloat.is_finite t0 = true ->
  PrimFloat.ltb TTL (PrimFloat.sub t1 t0) = false ->
  readCache TTL (writeCache st t0 uid items) t1 uid = Some (map jsonImage items).
Proof.
  intros Hb Hf Ht Hfin Hin.
  apply readCache_Some_iff; unfold served.
  rewrite (writeCache_ok _ _ _ _ Hb Hf). simpl.
  split; [reflexivity|].
  eexists _, _, t0. rewrite lookup_insert_eq.
  split; [reflexivity|]. split; [reflexivity|]. split; [reflexivity|].
  simpl. rewrite Hfin.
  assert (PrimFloat.is_zero t0 = false) as Hz.
  { apply negb_true_iff, orb_false_iff in Ht. tauto. }
  rewrite Hz. simpl. repeat split; assumption.
Qed.

(** C4, as the code has it.  With storage that takes the write and a clock that is finite and
    not zero: a read within the time to live returns the items written as
    JSON carries them, hence the items themselves when JSON carries them
    unchanged; so does a read at the very time of the write, the time to live
    being positive; and a read later than the time to live after the write
    returns [null], whatever was written. *)
Theorem cache_round_trip (st : Storage) (uid : string) (items : list JSValue)
  (t0 t1 : float) :
  full st = false ->
  (blocked st = false ->
   truthy (JSNumber t0) = true -> PrimFloat.is_finite t0 = true ->
   PrimFloat.ltb TTL (PrimFloat.sub t1 t0) = false ->
   readCache TTL (writeCache st t0 uid items) t1 uid = Some (map jsonImage items) /\
   (jsonStable (JSArray items) ->
    readCache TTL (writeCache st t0 uid items) t1 uid = Some items)) /\
  (blocked st = false ->
   truthy (JSNumber t0) = true -> PrimFloat.is_finite t0 = true ->
   PrimFloat.ltb 0 TTL = true -> jsonStable (JSArray items) ->
   readCache TTL (writeCache st t0 uid items) t0 uid = Some items) /\
  (PrimFloat.ltb TTL (PrimFloat.sub t1 t0) = true ->
   readCache TTL (writeCache st t0 uid items) t1 uid = None).
Proof.
  intros Hf.
  assert (Hstable : jsonStable (JSArray items) -> map jsonImage items = items).
  { unfold jsonStable. simpl. intros Hst. injection Hst as Hst. exact Hst. }
  split; [|split].
  - intros Hb Ht Hfin Hin.
    pose proof (read_after_write st uid items t0 t1 Hb Hf Ht Hfin Hin) as Hr.
    split; [exact Hr|]. intros Hst. rewrite Hr, (Hstable Hst). reflexivity.
  - intros Hb Ht Hfin Hpos Hst.
    rewrite (read_after_write st uid items t0 t0 Hb Hf Ht Hfin
               (sub_diag_not_above t0 Hpos)).
    rewrite (Hstable Hst). reflexivity.
  - intros Hout. destruct (blocked st) eqn:Hb.
    + rewrite (writeCache_blocked _ _ _ _ Hb). apply readCache_blocked, Hb.
    + rewrite (writeCache_ok _ _ _ _ Hb Hf).
      destruct (PrimFloat.is_finite t0) eqn:Hfin;
        [destruct (PrimFloat.is_zero t0) eqn:Hz|].
      * eapply readCache_falsy_ts; simpl;
          [apply lookup_insert_eq | reflexivity |].
        simpl. rewrite Hfin, Hz. reflexivity.
      * eapply (readCache_expired _ _ _ _ _ _ t0); simpl;
          [apply lookup_insert_eq | reflexivity | | exact Hout].
        simpl. rewrite Hfin, Hz. reflexivity.
      * eapply readCache_falsy_ts; simpl;
          [apply lookup_insert_eq | reflexivity |].
        simpl. rewrite Hfin. reflexivity.
Qed.

Lemma cacheKey_inj (a b : string) : cacheKey a = cacheKey b -> a = b.
Proof. unfold cacheKey. apply String.app_inj. Qed.

(** A write under one identity leaves the reads of every other alone. *)
Lemma cache_isolation (st : Storage) (a b : string) (items : list JSValue)
  (t0 t1 : float) :
  a <> b ->
  readCache TTL (writeCache st t0 a items) t1 b = readCache TTL st t1 b.
Proof.
  intros Hab. unfold writeCache, setItem.
  destruct (blocked st) eqn:Hb; [reflexivity|].
  destruct (full st) eqn:Hf; [reflexivity|]. simpl.
  unfold readCache, readCache_try, getItem. simpl. rewrite Hb.
  rewrite lookup_insert_ne by (intros Hk; apply Hab, cacheKey_inj, Hk).
  reflexivity.
Qed.

End CacheRoundTrip.

Section CacheExamples.
Import Formatter Cache Props Samples MoreProps.
#[local] Existing Instance plainEngine.

(** C3 as the specification words it fails: the stored value has no numeric
    timestamp (its [ts] is an object) and [readCache] returns its items. *)
Lemma readCache_accepts_non_numeric_ts :
  getOpt corruptEntry "ts" = JSObject [] /\
  readCache TTL_12h (storageWith "u1" (Serialized corruptEntry)) sampleNow "u1"
  = Some [JSString "stale"].
Proof. split; reflexivity. Qed.

(** On every engine and at every time: such an entry never expires. *)
Lemma readCache_non_numeric_ts_any_engine (E : Engine) (TTL now : float) :
  @readCache E TTL (storageWith "u1" (Serialized corruptEntry)) now "u1"
  = Some [JSString "stale"].
Proof.
  apply readCache_Some_iff; unfold served. split; [reflexivity|].
  exists (Serialized corruptEntry), corruptEntry, nan.
  repeat split. apply ltb_sub_nan. reflexivity.
Qed.

(** The same for a timestamp that is a string and no numeric literal. *)
Lemma readCache_string_ts_any_engine (E : Engine) (TTL now : float)
  (ts : string) (items : list JSValue) :
  String.eqb ts "" = false -> PrimFloat.is_nan (StringToNumber ts) = true ->
  @readCache E TTL
    (storageWith "u1"
       (Serialized (JSObject [("ts", JSString ts); ("items", JSArray items)])))
    now "u1"
  = Some items.
Proof.
  intros Hne Hnan. apply readCache_Some_iff; unfold served. split; [reflexivity|].
  eexists _, _, (StringToNumber ts).
  split; [reflexivity|]. split; [reflexivity|]. split; [reflexivity|].
  split; [reflexivity|]. split; [simpl; rewrite Hne; reflexivity|].
  split; [reflexivity|]. apply ltb_sub_nan, Hnan.
Qed.

(** The items of the sample payload, written at [sampleNow]: read back at
    once and a second later, gone half a day and a second later. *)
Lemma cache_round_trip_witness :
  (full emptyStorage = false /\ blocked emptyStorage = false /\
   truthy (JSNumber sampleNow) = true /\ PrimFloat.is_finite sampleNow = true /\
   jsonStable (JSArray sampleItems) /\
   PrimFloat.ltb 0 TTL_12h = true /\
   PrimFloat.ltb TTL_12h (PrimFloat.sub (sampleNow + 1000) sampleNow) = false /\
   PrimFloat.ltb TTL_12h (PrimFloat.sub (sampleNow + 43201000) sampleNow) = true) /\
  readCache TTL_12h (writeCache emptyStorage sampleNow "u1" sampleItems)
    sampleNow "u1" = Some sampleItems /\
  readCache TTL_12h (writeCache emptyStorage sampleNow "u1" sampleItems)
    (sampleNow + 1000) "u1" = Some sampleItems /\
  readCache TTL_12h (writeCache emptyStorage sampleNow "u1" sampleItems)
    (sampleNow + 43201000) "u1" = None.
Proof.
  split; [repeat split|]. split; [|split].
  - exact (proj1 (proj2 (cache_round_trip TTL_12h emptyStorage "u1" sampleItems
                           sampleNow sampleNow eq_refl))
             eq_refl eq_refl eq_refl eq_refl eq_refl).
  - exact (proj2 (proj1 (cache_round_trip TTL_12h emptyStorage "u1" sampleItems
                           sampleNow (sampleNow + 1000) eq_refl)
                    eq_refl eq_refl eq_refl eq_refl) eq_refl).
  - exact (proj2 (proj2 (cache_round_trip TTL_12h emptyStorage "u1" sampleItems
                           sampleNow (sampleNow + 43201000) eq_refl))
             eq_refl).
Defined.

(** What JSON does not carry comes back changed: an amount that is NaN is
    read back as [null]. *)
Example cache_round_trip_loses_nan :
  readCache TTL_12h
    (writeCache emptyStorage sampleNow "u1"
       [JSObject [("average_amount", JSObject [("amount", JSNumber nan)])]])
    sampleNow "u1"
  = Some [JSObject [("average_amount", JSObject [("amount", JSNull)])]].
Proof. reflexivity. Qed.

(** C4 as the specification words it fails: the item of an active stream
    without an account id, written and read back at once within the time to
    live, is not the item written: the property that held [undefined] is
    gone. *)
Lemma cache_round_trip_not_equal :
  pickFields unidentified = Return unidentifiedItem /\
  blocked emptyStorage = false /\ full emptyStorage = false /\
  PrimFloat.ltb TTL_12h (PrimFloat.sub sampleNow sampleNow) = false /\
  readCache TTL_12h
    (writeCache emptyStorage sampleNow "u1" [itemToJS unidentifiedItem])
    sampleNow "u1"
  = Some [JSObject
            [ ("average_amount", JSObject [("amount", JSNumber 0)]);
              ("description", JSString "GYM");
              ("frequency", JSNull);
              ("last_date", JSNull);
              ("personal_finance_category", JSObject [("detailed", JSNull)]);
              ("predicted_next_date", JSNull) ]] /\
  readCache TTL_12h
    (writeCache emptyStorage sampleNow "u1" [itemToJS unidentifiedItem])
    sampleNow "u1"
  <> Some [itemToJS unidentifiedItem].
Proof.
  split; [reflexivity|]. split; [reflexivity|]. split; [reflexivity|].
  split; [reflexivity|]. split; [reflexivity|]. discriminate.
Qed.

End CacheExamples.

(* ================================================================== *)
(** * The page controller                                              *)
(* ================================================================== *)

Section PageProperties.
Import Formatter Cache LinkPage Props.
Context `{Engine}.
Variable TTL : float.
Variable toRecurringItems : JSValue -> completion (list RecurringItem).

Lemma cacheKey_not_user_id (uid : string) : cacheKey uid <> "user_id".
Proof. unfold cacheKey. simpl. discriminate. Qed.

(** Recording the identity under "user_id" does not change what the cache
    read of any identity finds. *)
Lemma readCache_after_user_id (st st1 : Storage) (text : StoredText)
  (now : float) (uid : string) :
  setItem st "user_id" text = Return st1 ->
  readCache TTL st1 now uid = readCache TTL st now uid.
Proof.
  unfold setItem. destruct (blocked st) eqn:Hb; [discriminate|].
  destruct (full st); [discriminate|]. intros Hs. injection Hs as <-.
  unfold readCache, readCache_try, getItem. simpl. rewrite Hb.
  rewrite lookup_insert_ne by (intros Hk; symmetry in Hk;
                               exact (cacheKey_not_user_id uid Hk)).
  reflexivity.
Qed.

Lemma readCache_Some_not_blocked (st : Storage) (now : float) (uid : string)
  (l : list JSValue) :
  readCache TTL st now uid = Some l -> blocked st = false.
Proof. intros Hl. apply readCache_Some_iff in Hl. unfold served in Hl. tauto. Qed.

Lemma setItem_ok (st : Storage) (k : string) (text : StoredText) :
  blocked st = false -> full st = false ->
  setItem st k text =
  Return {| slots := <[k := text]> (slots st); blocked := false; full := false |}.
Proof. intros Hb Hf. unfold setItem. rewrite Hb, Hf. reflexivity. Qed.

Lemma useEffect_read (uid : string) (now : float) (p : PageState) (w : World) :
  uid <> "" -> blocked (storage w) = false -> full (storage w) = false ->
  useEffect TTL (Some uid) now p w =
  match readCache TTL (storage w) now uid with
  | Some (x :: l) =>
      ({| linkToken := JSNull; message := ""; loading := false; subs := x :: l |},
       afterCacheRead uid w, Settled)
  | _ => fetchFromApi (Some uid) p (afterCacheRead uid w)
  end.
Proof.
  intros Hu Hb Hf. unfold useEffect.
  destruct uid as [|c r]; [congruence|].
  rewrite (setItem_ok _ _ _ Hb Hf).
  rewrite (readCache_after_user_id (storage w) _ (Verbatim (String c r)) now
             (String c r) (setItem_ok _ _ _ Hb Hf)).
  unfold afterCacheRead, log, withStorage. simpl.
  rewrite <- app_assoc. reflexivity.
Qed.

(** C5.  When the page is activated with an identity and the cache read for
    it yields a list that is not empty, the state holds exactly that list
    with loading cleared, the page renders it, the effect ends with nothing
    pending, and the only things done are the two storage calls: no request
    is issued. *)
Theorem cache_hit_skips_network (uid : string) (now : float) (p : PageState)
  (w : World) (items : list JSValue) :
  uid <> "" -> full (storage w) = false ->
  readCache TTL (storage w) now uid = Some items -> items <> [] ->
  exists p' w',
    useEffect TTL (Some uid) now p w = (p', w', Settled) /\
    subs p' = items /\ loading p' = false /\
    render p' = Subscriptions items /\
    trace w' = trace w ++ [StorageSet "user_id"; StorageGet (cacheKey uid)] /\
    List.filter isFetch (trace w') = List.filter isFetch (trace w).
Proof.
  intros Hu Hf Hr Hne.
  pose proof (readCache_Some_not_blocked _ _ _ _ Hr) as Hb.
  rewrite (useEffect_read uid now p w Hu Hb Hf), Hr.
  destruct items as [|x l]; [congruence|].
  eexists _, _. split; [reflexivity|]. simpl.
  repeat split. rewrite List.filter_app. simpl. apply app_nil_r.
Qed.

(** C10.  An entry that is well formed and fresh but whose list is empty is
    read as the empty list, and the effect goes on to the request as on a
    miss. *)
Theorem empty_cache_entry_fetches (uid : string) (now : float) (p : PageState)
  (w : World) (text : StoredText) (obj : JSValue) (n : float) :
  uid <> "" -> blocked (storage w) = false -> full (storage w) = false ->
  slots (storage w) !! cacheKey uid = Some text ->
  isEmptyText text = false -> JSON_parse text = Return obj ->
  getOpt obj "items" = JSArray [] ->
  truthy (getOpt obj "ts") = true -> ToNumber (getOpt obj "ts") = Return n ->
  PrimFloat.ltb TTL (PrimFloat.sub now n) = false ->
  readCache TTL (storage w) now uid = Some [] /\
  exists p' w',
    useEffect TTL (Some uid) now p w = (p', w', Fetching uid) /\
    loading p' = true /\ subs p' = subs p /\
    trace w' = trace w ++ [StorageSet "user_id"; StorageGet (cacheKey uid);
                           Fetch (JSObject [("userId", JSString uid)])].
Proof.
  intros Hu Hb Hf Hs Et Hp Hi Ht Hn Hx.
  assert (Hr : readCache TTL (storage w) now uid = Some []).
  { apply readCache_Some_iff; unfold served. split; [exact Hb|].
    exists text, obj, n. repeat split; assumption. }
  split; [exact Hr|].
  rewrite (useEffect_read uid now p w Hu Hb Hf), Hr.
  unfold fetchFromApi. destruct (String.eqb uid "") eqn:Eu.
  { apply String.eqb_eq in Eu. congruence. }
  eexists _, _. split; [reflexivity|]. simpl.
  repeat split. rewrite <- app_assoc. reflexivity.
Qed.

(** C7, as the code has it.  When no identity can be resolved, the effect
    clears the loading flag, writes "Missing user_id" to the console and
    ends: the message, the items, the token and the storage are what they
    were, nothing is read from or written to storage and no request is
    issued.  From the initial state the page then shows the message box with
    its default text. *)
Theorem missing_identity_is_terminal (userId : option string) (now : float)
  (p : PageState) (w : World) :
  missing userId = true ->
  useEffect TTL userId now p w =
    ({| linkToken := linkToken p; message := message p;
        loading := false; subs := subs p |},
     {| storage := storage w;
        trace := trace w ++ [ConsoleError "Missing user_id"] |},
     Settled) /\
  (p = initialState ->
   render (fst (fst (useEffect TTL userId now p w))) = MessageBox "Ready.").
Proof.
  intros Hm.
  assert (He : useEffect TTL userId now p w =
               ({| linkToken := linkToken p; message := message p;
                   loading := false; subs := subs p |},
                {| storage := storage w;
                   trace := trace w ++ [ConsoleError "Missing user_id"] |},
                Settled)).
  { destruct userId as [[|c r]|]; simpl in Hm; try discriminate; reflexivity. }
  split; [exact He|]. intros ->. rewrite He. reflexivity.
Qed.

(** C8.  When the answer to the request carries the tag link_token, the
    token of the answer becomes the link token, the message is cleared,
    loading ends, and the items are the ones held before; nothing is written
    to storage.  Items that were there stay on the page; with none, a truthy
    token brings up the connect view. *)
Theorem link_token_keeps_items (uid : string) (now : float) (data : JSValue)
  (p : PageState) (w : World) :
  getOpt (getOpt data "response_object") "tag" = JSString "link_token" ->
  let token := getOpt (getOpt (getOpt data "response_object") "data") "link_token" in
  let p' := fst (fetchFromApi_resume toRecurringItems uid now
                   (HttpResponse true (Some data)) p w) in
  fetchFromApi_resume toRecurringItems uid now (HttpResponse true (Some data)) p w =
    ({| linkToken := token; message := ""; loading := false; subs := subs p |}, w) /\
  subs p' = subs p /\
  (subs p <> [] -> render p' = Subscriptions (subs p)) /\
  (subs p = [] -> truthy token = true -> render p' = ConnectBank token).
Proof.
  intros Htag token p'.
  assert (He : fetchFromApi_resume toRecurringItems uid now
                 (HttpResponse true (Some data)) p w =
               ({| linkToken := token; message := ""; loading := false;
                   subs := subs p |}, w)).
  { unfold fetchFromApi_resume, fetchFromApi_try. rewrite bind_Return.
    cbv zeta. rewrite Htag. reflexivity. }
  split; [exact He|]. subst p'. rewrite He. simpl.
  split; [reflexivity|]. unfold render. simpl. split.
  - intros Hne. destruct (subs p); [congruence|]. reflexivity.
  - intros -> Ht. simpl. rewrite Ht. reflexivity.
Qed.

End PageProperties.

Section PageExamples.
Import Formatter Cache LinkPage Props Samples.
#[local] Existing Instance plainEngine.

(** C7 as the specification words it fails: activated without an identity from the
    initial state, the page holds no message and shows "Ready.". *)
Lemma missing_identity_shows_ready :
  message (fst (fst (useEffect TTL_12h None sampleNow initialState emptyWorld))) = "" /\
  render (fst (fst (useEffect TTL_12h None sampleNow initialState emptyWorld)))
  = MessageBox "Ready.".
Proof. split; reflexivity. Qed.

(** C7 as the code has it, with no identity and with the empty one. *)
Lemma missing_identity_is_terminal_witness :
  (missing None = true /\ missing (Some "") = true) /\
  useEffect TTL_12h None sampleNow initialState emptyWorld =
    ({| linkToken := JSNull; message := ""; loading := false; subs := [] |},
     {| storage := emptyStorage; trace := [ConsoleError "Missing user_id"] |},
     Settled) /\
  render (fst (fst (useEffect TTL_12h (Some "") sampleNow initialState emptyWorld)))
  = MessageBox "Ready.".
Proof.
  split; [split; reflexivity|]. split.
  - exact (proj1 (missing_identity_is_terminal TTL_12h None sampleNow
                    initialState emptyWorld eq_refl)).
  - exact (proj2 (missing_identity_is_terminal TTL_12h (Some "") sampleNow
                    initialState emptyWorld eq_refl) eq_refl).
Defined.

(** The second end-to-end scenario: "u1" has a fresh entry. *)
Lemma cache_hit_skips_network_witness :
  ("u1" <> "" /\ full (storage cachedWorld) = false /\
   readCache TTL_12h (storage cachedWorld) sampleNow "u1" = Some sampleItems /\
   sampleItems <> []) /\
  exists p' w',
    useEffect TTL_12h (Some "u1") sampleNow initialState cachedWorld
      = (p', w', Settled) /\
    subs p' = sampleItems /\ loading p' = false /\
    render p' = Subscriptions sampleItems /\
    trace w' = trace cachedWorld ++
               [StorageSet "user_id"; StorageGet (cacheKey "u1")] /\
    List.filter isFetch (trace w') = List.filter isFetch (trace cachedWorld).
Proof.
  assert (Hu : "u1" <> "") by discriminate.
  assert (Hne : sampleItems <> []) by discriminate.
  split; [repeat split; assumption|].
  exact (cache_hit_skips_network TTL_12h "u1" sampleNow initialState cachedWorld
           sampleItems Hu eq_refl eq_refl Hne).
Defined.

(** A fresh entry with an empty list: the request goes out. *)
Lemma empty_cache_entry_fetches_witness :
  ("u1" <> "" /\
   slots (storage emptyListWorld) !! cacheKey "u1" = Some (Serialized emptyListEntry) /\
   getOpt emptyListEntry "items" = JSArray [] /\
   PrimFloat.ltb TTL_12h (PrimFloat.sub sampleNow 1756684000000) = false) /\
  readCache TTL_12h (storage emptyListWorld) sampleNow "u1" = Some [] /\
  exists p' w',
    useEffect TTL_12h (Some "u1") sampleNow initialState emptyListWorld
      = (p', w', Fetching "u1") /\
    loading p' = true /\ subs p' = subs initialState /\
    trace w' = trace emptyListWorld ++
               [StorageSet "user_id"; StorageGet (cacheKey "u1");
                Fetch (JSObject [("userId", JSString "u1")])].
Proof.
  assert (Hu : "u1" <> "") by discriminate.
  split; [repeat split; try reflexivity; exact Hu|].
  exact (empty_cache_entry_fetches TTL_12h "u1" sampleNow initialState
           emptyListWorld (Serialized emptyListEntry) emptyListEntry
           1756684000000%float Hu eq_refl eq_refl eq_refl eq_refl eq_refl
           eq_refl eq_refl eq_refl eq_refl).
Defined.

(** The first end-to-end scenario, and the same answer arriving while items
    are on the page. *)
Lemma link_token_keeps_items_witness :
  getOpt (getOpt linkTokenAnswer "response_object") "tag" = JSString "link_token" /\
  fetchFromApi_resume MergeBoth.toRecurringItems "u1" sampleNow
    (HttpResponse true (Some linkTokenAnswer)) initialState emptyWorld
  = ({| linkToken := JSString "tok1"; message := ""; loading := false; subs := [] |},
     emptyWorld) /\
  subs (fst (fetchFromApi_resume MergeBoth.toRecurringItems "u1" sampleNow
               (HttpResponse true (Some linkTokenAnswer)) shownState emptyWorld))
  = sampleItems.
Proof.
  split; [reflexivity|]. split.
  - exact (proj1 (link_token_keeps_items MergeBoth.toRecurringItems "u1" sampleNow
                    linkTokenAnswer initialState emptyWorld eq_refl)).
  - exact (proj1 (proj2 (link_token_keeps_items MergeBoth.toRecurringItems "u1"
                           sampleNow linkTokenAnswer shownState emptyWorld eq_refl))).
Defined.

(** The third end-to-end scenario: recurring data arrives, is normalized,
    cached and shown. *)
Example recurring_data_is_cached_and_shown :
  let '(p', w') :=
    fetchFromApi_resume MergeBoth.toRecurringItems "u1" sampleNow
      (HttpResponse true (Some recurringDataAnswer)) initialState emptyWorld in
  render p' = Subscriptions [itemToJS spotifyItem] /\
  readCache TTL_12h (storage w') sampleNow "u1" = Some [itemToJS spotifyItem].
Proof. split; reflexivity. Qed.

End PageExamples.

(* ================================================================== *)
(** * The text helpers of the subscription list: properties            *)
(* ================================================================== *)

Section TextHelpers.
Import Subscriptions.

Lemma lowerUnit_idem (c : ascii) : lowerUnit (lowerUnit c) = lowerUnit c.
Proof. destruct c as [[] [] [] [] [] [] [] []]; reflexivity. Qed.

Lemma toLowerCase_idem (s : string) : toLowerCase (toLowerCase s) = toLowerCase s.
Proof.
  induction s as [|c r IH]; simpl; [reflexivity|].
  rewrite lowerUnit_idem, IH. reflexivity.
Qed.

Lemma toLowerCase_length (s : string) :
  String.length (toLowerCase s) = String.length s.
Proof. induction s as [|c r IH]; simpl; congruence. Qed.

(** X1.  [freqText] answers "Unknown" for a value that is missing or falsy;
    for a string that is not empty it keeps the first code unit and puts the
    rest in lower case, which gives a text it leaves unchanged when applied
    to it again; and it throws a TypeError for every truthy value that is no
    string. *)
Theorem freqText_cases :
  (forall f, truthy (orEmpty f) = false -> freqText f = Return "Unknown") /\
  (forall c r,
     freqText (JSString (String c r)) = Return (String c (toLowerCase r)) /\
     freqText (JSString (String c (toLowerCase r)))
       = Return (String c (toLowerCase r))) /\
  (forall f, truthy f = true -> (forall s, f <> JSString s) ->
     freqText f = Throw TypeError).
Proof.
  split; [|split].
  - intros f Hf. unfold freqText.
    destruct (orEmpty f) as [| |b|n|[|c r]|l|o]; simpl in Hf |- *;
      try discriminate; rewrite ?Hf; reflexivity.
  - intros c r. split; [reflexivity|].
    unfold freqText. simpl. rewrite toLowerCase_idem. reflexivity.
  - intros f Ht Hs. unfold freqText.
    destruct f as [| |b|n|s|l|o]; simpl in Ht |- *; try discriminate;
      rewrite ?Ht; try reflexivity.
    exfalso. apply (Hs s). reflexivity.
Qed.

End TextHelpers.

Section HumanizeFacts.
Import Subscriptions MoreProps.

Lemma append_length (a b : string) :
  String.length (a ++ b) = String.length a + String.length b.
Proof. induction a as [|c a IH]; simpl; [reflexivity | rewrite IH; reflexivity]. Qed.

Lemma split_not_nil (sep : ascii) (s : string) : split sep s <> [].
Proof.
  destruct s as [|c r]; simpl; [discriminate|].
  destruct (Ascii.eqb c sep); [discriminate|].
  destruct (split sep r); discriminate.
Qed.

Lemma split_total (sep : ascii) (s : string) :
  total (split sep s) + length (split sep s) = String.length s + 1.
Proof.
  induction s as [|c r IH]; simpl; [reflexivity|].
  destruct (Ascii.eqb c sep); simpl; [lia|].
  destruct (split sep r) as [|w ws] eqn:Es; simpl in *; lia.
Qed.

Lemma join_length (sep : string) (ws : list string) :
  ws <> [] ->
  String.length (join sep ws) + String.length sep
  = total ws + length ws * String.length sep.
Proof.
  induction ws as [|w ws IH]; [congruence|]. intros _.
  destruct ws as [|w' ws'].
  - simpl. lia.
  - change (join sep (w :: w' :: ws')) with (w ++ sep ++ join sep (w' :: ws'))%string.
    rewrite !append_length.
    specialize (IH ltac:(discriminate)). simpl in IH |- *. lia.
Qed.

Lemma titleWord_length (w : string) :
  String.length (titleWord w) = String.length w.
Proof.
  destruct w as [|c r]; [reflexivity|].
  unfold titleWord. rewrite append_length, toLowerCase_length. reflexivity.
Qed.

Lemma total_titleWord (ws : list string) : total (map titleWord ws) = total ws.
Proof.
  induction ws as [|w ws IH]; simpl; [reflexivity|].
  rewrite titleWord_length, IH. reflexivity.
Qed.

Lemma dropPrefix_length (pat s rest : string) :
  dropPrefix pat s = Some rest ->
  String.length s = String.length pat + String.length rest.
Proof.
  revert s. induction pat as [|a pat IH]; simpl; intros s Hd.
  - injection Hd as ->. reflexivity.
  - destruct s as [|b s']; [discriminate|].
    destruct (Ascii.eqb a b); [|discriminate].
    simpl. rewrite (IH _ Hd). reflexivity.
Qed.

Lemma replace_length (pat rep s : string) :
  String.length rep = String.length pat ->
  String.length (replace pat rep s) = String.length s.
Proof.
  intros Hl. induction s as [|c r IH].
  - simpl. destruct (dropPrefix pat "") as [rest|] eqn:Hd; [|reflexivity].
    pose proof (dropPrefix_length _ _ _ Hd) as Hp.
    rewrite append_length. simpl in Hp |- *. lia.
  - simpl. destruct (dropPrefix pat (String c r)) as [rest|] eqn:Hd.
    + pose proof (dropPrefix_length _ _ _ Hd) as Hp.
      rewrite append_length. simpl in Hp |- *. lia.
    + simpl. rewrite IH. reflexivity.
Qed.

Lemma units_append (a b : string) : units (a ++ b) = units a ++ units b.
Proof. induction a as [|c a IH]; simpl; [reflexivity|]. unfold units in *. simpl. congruence. Qed.

Lemma lowerUnit_underscore (c : ascii) : lowerUnit c = "_"%char -> c = "_"%char.
Proof.
  destruct c as [[] [] [] [] [] [] [] []]; vm_compute; intros Hc;
    first [reflexivity | discriminate Hc].
Qed.

Lemma toLowerCase_units (s : string) :
  ~ In "_"%char (units s) -> ~ In "_"%char (units (toLowerCase s)).
Proof.
  induction s as [|c r IH]; simpl; [tauto|].
  intros Hn [Hc|Hr].
  - apply Hn. left. apply lowerUnit_underscore. exact Hc.
  - apply IH; [|exact Hr]. intros Hr'. apply Hn. right. exact Hr'.
Qed.

Lemma titleWord_units (w : string) :
  ~ In "_"%char (units w) -> ~ In "_"%char (units (titleWord w)).
Proof.
  destruct w as [|c r]; simpl; [tauto|].
  intros Hn [Hc|Hr].
  - apply Hn. left. exact Hc.
  - revert Hr. apply toLowerCase_units. intros Hr'. apply Hn. right. exact Hr'.
Qed.

Lemma split_units (s w : string) :
  In w (split "_"%char s) -> ~ In "_"%char (units w).
Proof.
  revert w. induction s as [|c r IH]; simpl; intros w Hw.
  - destruct Hw as [<-|[]]. simpl. tauto.
  - destruct (Ascii.eqb c "_"%char) eqn:Ec.
    + destruct Hw as [<-|Hw]; [simpl; tauto | apply IH, Hw].
    + destruct (split "_"%char r) as [|w0 ws] eqn:Es.
      * destruct Hw as [<-|[]]. simpl. intros [Hc|[]].
        subst c. discriminate.
      * destruct Hw as [<-|Hw].
        -- simpl. intros [Hc|Hr]; [subst c; discriminate|].
           revert Hr. apply IH. left. reflexivity.
        -- apply IH. right. exact Hw.
Qed.

Lemma join_units (ws : list string) :
  (forall w, In w ws -> ~ In "_"%char (units w)) ->
  ~ In "_"%char (units (join " " ws)).
Proof.
  induction ws as [|w ws IH]; intros Hw; [simpl; tauto|].
  destruct ws as [|w' ws'].
  - simpl. apply Hw. left. reflexivity.
  - change (join " " (w :: w' :: ws')) with (w ++ " " ++ join " " (w' :: ws'))%string.
    rewrite !units_append. intros Hin.
    apply in_app_or in Hin as [Hin|Hin]; [revert Hin; apply Hw; left; reflexivity|].
    apply in_app_or in Hin as [Hin|Hin].
    + simpl in Hin. destruct Hin as [Hc|[]]. discriminate.
    + revert Hin. apply IH. intros w0 H0. apply Hw. right. exact H0.
Qed.

Lemma dropPrefix_units (pat s rest : string) :
  dropPrefix pat s = Some rest -> forall c, In c (units rest) -> In c (units s).
Proof.
  revert s. induction pat as [|a pat IH]; simpl; intros s Hd c Hc.
  - injection Hd as ->. exact Hc.
  - destruct s as [|b s']; [discriminate|].
    destruct (Ascii.eqb a b); [|discriminate].
    right. apply (IH _ Hd). exact Hc.
Qed.

Lemma replace_units (pat rep s : string) (c : ascii) :
  In c (units (replace pat rep s)) -> In c (units rep) \/ In c (units s).
Proof.
  induction s as [|x r IH]; simpl.
  - destruct (dropPrefix pat "") as [rest|] eqn:Hd; [|tauto].
    rewrite units_append. intros Hin. apply in_app_or in Hin as [Hin|Hin];
      [left; exact Hin | right; exact (dropPrefix_units _ _ _ Hd c Hin)].
  - destruct (dropPrefix pat (String x r)) as [rest|] eqn:Hd.
    + rewrite units_append. intros Hin. apply in_app_or in Hin as [Hin|Hin];
        [left; exact Hin | right; exact (dropPrefix_units _ _ _ Hd c Hin)].
    + simpl. intros [Hc|Hr]; [right; left; exact Hc|].
      destruct (IH Hr) as [Hl|Hl]; [left; exact Hl | right; right; exact Hl].
Qed.

(** X2.  On a string of code units below 256 (Latin-1, the strings of this
    development), [humanize] returns without an error a text of the same
    length in which no underscore is left: every underscore has become a
    space, every word keeps its first code unit and has the rest in lower
    case, and the first "And" has become "and".  (Beyond Latin-1 the lower
    case of a string can be longer than the string.) *)
Theorem humanize_keeps_length `{Engine} (s : string) :
  exists t, humanize (JSString s) = Return t /\
            String.length t = String.length s /\
            ~ In "_"%char (units t).
Proof.
  eexists. split; [reflexivity|]. split.
  - rewrite replace_length by reflexivity.
    pose proof (join_length " " (map titleWord (split "_"%char s))) as Hj.
    rewrite total_titleWord, length_map in Hj.
    pose proof (split_total "_"%char s) as Hs.
    assert (map titleWord (split "_"%char s) <> []) as Hne.
    { pose proof (split_not_nil "_"%char s).
      destruct (split "_"%char s); [congruence | discriminate]. }
    specialize (Hj Hne). simpl in Hj. lia.
  - intros Hin. apply replace_units in Hin as [Hin|Hin].
    + simpl in Hin. intuition discriminate.
    + revert Hin. apply join_units. intros w Hw.
      apply in_map_iff in Hw as (w0 & <- & Hw0).
      apply titleWord_units. eapply split_units, Hw0.
Qed.

(** The example of the source, and a category whose first word starts with
    "AND": the replacement takes the first "And" it meets. *)
Example humanize_examples `{Engine} :
  humanize (JSString "FOOD_AND_DRINK_RESTAURANT") = Return "Food and Drink Restaurant" /\
  humanize (JSString "ANDROID_AND_IOS") = Return "android And Ios" /\
  humanize JSUndefined = Return "" /\
  humanize JSNull = Return "null".
Proof. repeat split; reflexivity. Qed.

End HumanizeFacts.

(* ================================================================== *)
(** * From a stream to its card                                        *)
(* ================================================================== *)

Section Conversions.
Context `{Engine}.

(** The only error a conversion to a string raises. *)
Lemma ToString_throws (v : JSValue) : forall e, ToString v = Throw e -> e = TypeError.
Proof.
  revert v. fix IH 1.
  intros [| |[]|n|s|elems|props] e; simpl; intros He; try discriminate.
  - match type of He with ?J elems = _ => set (joined := J) in * end.
    assert (Hstep : forall x r, joined (x :: r) =
              match (if nullish x then Return "" else ToString x) with
              | Throw e => Throw e
              | Return s =>
                  match r with
                  | [] => Return s
                  | _ :: _ => match joined r with
                              | Throw e => Throw e
                              | Return t => Return (s ++ "," ++ t)%string
                              end
                  end
              end) by (intros; reflexivity).
    assert (Hnil : joined [] = Return "") by reflexivity.
    clearbody joined.
    revert e He. induction elems as [|x r IHr]; intros e He.
    + rewrite Hnil in He. discriminate.
    + rewrite Hstep in He.
      destruct (nullish x).
      * destruct r as [|y r']; [discriminate|].
        destruct (joined (y :: r')) eqn:Hj; [discriminate|].
        injection He as <-. exact (IHr _ eq_refl).
      * destruct (ToString x) as [sx|ex] eqn:Hx.
        -- destruct r as [|y r']; [discriminate|].
           destruct (joined (y :: r')) eqn:Hj; [discriminate|].
           injection He as <-. exact (IHr _ eq_refl).
        -- injection He as <-. exact (IH x _ Hx).
  - destruct (hasOwn props "toString"); [|discriminate]. congruence.
Qed.

End Conversions.

Lemma freqText_nonstring (f : JSValue) :
  truthy f = true -> (forall s, f <> JSString s) ->
  Subscriptions.freqText f = Throw TypeError.
Proof.
  intros Ht Hs. unfold Subscriptions.freqText.
  destruct f as [| |b|n|s|l|o]; simpl in Ht |- *; try discriminate;
    rewrite ?Ht; try reflexivity.
  exfalso. apply (Hs s). reflexivity.
Qed.

Section Cards.
Import Formatter Props Subscriptions MoreProps.
Context `{Engine}.
Variable formatUSD : float -> string.
Variable formatDay : JSValue -> string.

Lemma or_else_null_cases (v : JSValue) :
  (truthy v = true /\ or_else v JSNull = v) \/
  (truthy v = false /\ or_else v JSNull = JSNull).
Proof. unfold or_else. destruct (truthy v); [left | right]; split; reflexivity. Qed.

(** The steps of the callback, when it returns. *)
Lemma card_inv (idx : nat) (item : JSValue) (c : Card) :
  card formatUSD formatDay idx item = Return c ->
  exists amt cat fr,
    toUSD formatUSD (getOpt (getOpt item "average_amount") "amount") = Return amt /\
    humanize (getOpt (getOpt item "personal_finance_category") "detailed")
      = Return cat /\
    freqText (getOpt item "frequency") = Return fr /\
    amountDisplay c = amt /\ category c = textOr cat dash /\ freq c = fr /\
    title c = or_else (getOpt item "description") (JSString "Subscription").
Proof.
  unfold card. intros Hc.
  apply bind_Return_inv in Hc as (amt & Hamt & Hc).
  apply bind_Return_inv in Hc as (cat & Hcat & Hc).
  apply bind_Return_inv in Hc as (fr & Hfr & Hc).
  apply bind_Return_inv in Hc as (nx & _ & Hc).
  apply bind_Return_inv in Hc as (ls & _ & Hc).
  apply bind_Return_inv in Hc as (k & _ & Hc).
  injection Hc as <-. exists amt, cat, fr. repeat split; assumption.
Qed.

(** X3.  A stream without a category detail gets the detail [null], and the
    list reads the text "null" from it: [humanize] turns [null] into that
    text, which is not empty, so the dash for a missing category is not
    shown. *)
Theorem missing_category_reads_null (s : JSValue) (it : RecurringItem) :
  pickFields s = Return it ->
  truthy (getOpt (getOpt s "personal_finance_category") "detailed") = false ->
  detailed (personal_finance_category it) = JSNull /\
  humanize (getOpt (getOpt (itemToJS it) "personal_finance_category") "detailed")
    = Return "null" /\
  forall idx c,
    card formatUSD formatDay idx (itemToJS it) = Return c -> category c = "null".
Proof.
  intros Hp Hcat.
  destruct (pickFields_inv s it Hp) as (_ & _ & _ & _ & _ & Hdet & _).
  assert (Hnull : detailed (personal_finance_category it) = JSNull).
  { rewrite Hdet. cbv zeta.
    destruct (truthy (getOpt s "personal_finance_category")) eqn:Tc.
    - unfold or_else. rewrite Hcat. reflexivity.
    - unfold or_else. rewrite Tc. reflexivity. }
  split; [exact Hnull|].
  assert (Hh : humanize (getOpt (getOpt (itemToJS it) "personal_finance_category")
                           "detailed") = Return "null").
  { simpl. rewrite Hnull. reflexivity. }
  split; [exact Hh|].
  intros idx c Hc.
  apply card_inv in Hc as (amt & cat & fr & _ & Hcat' & _ & _ & Hc & _).
  rewrite Hh in Hcat'. injection Hcat' as <-. rewrite Hc. reflexivity.
Qed.

Lemma abs_opp (x : float) : PrimFloat.abs (PrimFloat.opp x) = PrimFloat.abs x.
Proof.
  apply Prim2SF_inj. rewrite !FloatAxioms.abs_spec, FloatAxioms.opp_spec.
  destruct (Prim2SF x); reflexivity.
Qed.

Lemma abs_not_negative (x : float) : PrimFloat.ltb (PrimFloat.abs x) 0 = false.
Proof.
  rewrite FloatAxioms.ltb_spec, FloatAxioms.abs_spec.
  change (Prim2SF 0) with (S754_zero false).
  destruct (Prim2SF x); reflexivity.
Qed.

(** X4.  [toUSD] formats the absolute value: a number and its opposite give
    the same text, the number formatted is never below zero, and a missing
    amount is formatted as zero. *)
Theorem toUSD_drops_sign :
  (forall x, toUSD formatUSD (JSNumber x) = Return (formatUSD (PrimFloat.abs x)) /\
             toUSD formatUSD (JSNumber (PrimFloat.opp x)) = toUSD formatUSD (JSNumber x) /\
             PrimFloat.ltb (PrimFloat.abs x) 0 = false) /\
  toUSD formatUSD JSUndefined = Return (formatUSD 0) /\
  toUSD formatUSD JSNull = Return (formatUSD 0).
Proof.
  split; [|split; reflexivity].
  intros x. split; [reflexivity|]. split; [|apply abs_not_negative].
  unfold toUSD. simpl. rewrite abs_opp. reflexivity.
Qed.

Lemma ToString_primitive (v : JSValue) :
  primitive v = true -> exists t, ToString v = Return t.
Proof.
  destruct v as [| |[]| | | |]; simpl; intros Hp; try discriminate;
    eexists; reflexivity.
Qed.

Lemma primitive_or_else (v d : JSValue) :
  primitive v = true -> primitive d = true -> primitive (or_else v d) = true.
Proof. intros Hv Hd. unfold or_else. destruct (truthy v); assumption. Qed.

Lemma dateText_primitive (v : JSValue) :
  primitive v = true -> dateText formatDay v = Return (formatDay v).
Proof.
  intros Hp. unfold dateText. destruct (ToString_primitive v Hp) as (t & ->).
  reflexivity.
Qed.

(** The description of an item is a primitive when the description of the
    stream is. *)
Lemma description_primitive (s : JSValue) (it : RecurringItem) :
  pickFields s = Return it -> primitive (getOpt s "description") = true ->
  primitive (description it) = true.
Proof.
  intros Hp Hd. destruct (pickFields_inv s it Hp) as (Hn & _ & Hdesc & _).
  unfold pickDescription in Hdesc.
  rewrite !(get_getOpt _ _ Hn), !bind_Return in Hdesc.
  destruct (truthy (getOpt s "merchant_name")).
  - destruct (getOpt s "merchant_name") as [| |b|n|m|l|o] eqn:Hm;
      try discriminate.
    simpl in Hdesc. destruct (negb _); simpl in Hdesc; injection Hdesc as <-.
    + reflexivity.
    + apply primitive_or_else; [exact Hd | reflexivity].
  - simpl in Hdesc. injection Hdesc as <-.
    apply primitive_or_else; [exact Hd | reflexivity].
Qed.

(** X5.  The list can show what the normalizer makes of a stream whose
    fields have the kinds the list expects (a frequency that is a string or
    missing, and no array or object as account id, description, category
    detail or date): for the item at any index the callback computes its
    texts and its key without an error; the amount is the formatted absolute
    value of the item's amount, the title is the item's description, or
    "Subscription" when that is empty, each date is formatted or is the
    dash, and the key is the index when the item has no account id. *)
Theorem card_of_normalized (s : JSValue) (it : RecurringItem) (idx : nat) :
  pickFields s = Return it ->
  renderable s = true ->
  exists c,
    card formatUSD formatDay idx (itemToJS it) = Return c /\
    amountDisplay c = formatUSD (PrimFloat.abs (amount (average_amount it))) /\
    title c = or_else (description it) (JSString "Subscription") /\
    next c = (if truthy (predicted_next_date it)
              then formatDay (predicted_next_date it) else dash) /\
    last c = (if truthy (last_date it)
              then formatDay (last_date it) else dash) /\
    (truthy (account_id it) = false -> cardKey c = ByIndex idx) /\
    (truthy (account_id it) = true ->
     exists a d, cardKey c = ByParts a d idx /\
                 ToString (account_id it) = Return a /\
                 ToString (description it) = Return d).
Proof.
  intros Hp Hr. unfold renderable in Hr.
  repeat (apply andb_true_iff in Hr as [Hr ?]).
  rename Hr into Hacc.
  match goal with
  | Hd : primitive (getOpt s "description") = true,
    Hf : stringOrFalsy (getOpt s "frequency") = true,
    Hl : primitive (getOpt s "last_date") = true,
    Hc : primitive (getOpt (getOpt s "personal_finance_category") "detailed") = true,
    Hn : primitive (getOpt s "predicted_next_date") = true |- _ =>
      rename Hd into Hdesc; rename Hf into Hfreq; rename Hl into Hlast;
      rename Hc into Hcat; rename Hn into Hnext
  end.
  destruct (pickFields_inv s it Hp) as (_ & Ha & _ & Hfr & Hld & Hdet & Hpn).
  assert (Pacc : primitive (account_id it) = true) by (rewrite Ha; exact Hacc).
  assert (Pdesc : primitive (description it) = true)
    by (apply (description_primitive s it Hp Hdesc)).
  assert (Plast : primitive (last_date it) = true)
    by (rewrite Hld; apply primitive_or_else; [exact Hlast | reflexivity]).
  assert (Pnext : primitive (predicted_next_date it) = true)
    by (rewrite Hpn; apply primitive_or_else; [exact Hnext | reflexivity]).
  assert (Pdet : primitive (detailed (personal_finance_category it)) = true).
  { rewrite Hdet. cbv zeta. unfold or_else.
    destruct (truthy (getOpt s "personal_finance_category")) eqn:Tc.
    - destruct (truthy (getOpt (getOpt s _) "detailed")); [exact Hcat | reflexivity].
    - rewrite Tc. reflexivity. }
  assert (Hfreq' : exists t, freqText (frequency it) = Return t).
  { rewrite Hfr. unfold or_else.
    destruct (getOpt s "frequency") as [| |[]|n|[|c r]|l|o]; simpl in Hfreq |- *;
      try discriminate; try (eexists; reflexivity).
    apply negb_true_iff in Hfreq. rewrite Hfreq. eexists; reflexivity. }
  destruct Hfreq' as (t & Ht).
  assert (Hhum : exists u, humanize (detailed (personal_finance_category it)) = Return u).
  { unfold humanize.
    destruct (ToString_primitive (orEmpty (detailed (personal_finance_category it))))
      as (u & Hu).
    { destruct (detailed (personal_finance_category it)); simpl in *; congruence. }
    rewrite Hu. eexists; reflexivity. }
  destruct Hhum as (u & Hu).
  destruct (ToString_primitive _ Pacc) as (a & Hta).
  destruct (ToString_primitive _ Pdesc) as (d & Htd).
  unfold card.
  change (getOpt (getOpt (itemToJS it) "average_amount") "amount")
    with (JSNumber (amount (average_amount it))).
  change (getOpt (getOpt (itemToJS it) "personal_finance_category") "detailed")
    with (detailed (personal_finance_category it)).
  change (getOpt (itemToJS it) "frequency") with (frequency it).
  change (getOpt (itemToJS it) "predicted_next_date") with (predicted_next_date it).
  change (getOpt (itemToJS it) "last_date") with (last_date it).
  change (getOpt (itemToJS it) "account_id") with (account_id it).
  change (getOpt (itemToJS it) "description") with (description it).
  assert (Hamt : toUSD formatUSD (JSNumber (amount (average_amount it)))
                 = Return (formatUSD (PrimFloat.abs (amount (average_amount it)))))
    by reflexivity.
  rewrite Hamt, bind_Return, Hu, bind_Return, Ht, bind_Return.
  rewrite (dateText_primitive _ Pnext), (dateText_primitive _ Plast).
  rewrite Hta, Htd.
  destruct (truthy (predicted_next_date it)), (truthy (last_date it)),
           (truthy (account_id it));
    rewrite !bind_Return; eexists; (split; [reflexivity|]);
    cbn [cardKey title amountDisplay next last];
    (split; [reflexivity|]); (split; [reflexivity|]);
    (split; [reflexivity|]); (split; [reflexivity|]);
    (split; intros Hk; first [discriminate Hk | reflexivity
                             | exists a, d; repeat split]).
Qed.

(** Every error on the way to a card is a TypeError. *)
Lemma ToNumber_throws (v : JSValue) (e : JSError) :
  ToNumber v = Throw e -> e = TypeError.
Proof.
  destruct v as [| |[]|n|s|l|o]; unfold ToNumber; try discriminate.
  - destruct (ToString (JSArray l)) as [t|e'] eqn:Ht; [discriminate|].
    intros He. injection He as <-. eapply ToString_throws, Ht.
  - destruct (hasOwn o "toString"); [|discriminate]. congruence.
Qed.

Lemma humanize_throws (v : JSValue) (e : JSError) :
  humanize v = Throw e -> e = TypeError.
Proof.
  unfold humanize.
  destruct (ToString (orEmpty v)) as [t|e'] eqn:Ht; simpl; [discriminate|].
  intros He. injection He as <-. eapply ToString_throws, Ht.
Qed.

Lemma freqText_throws (v : JSValue) (e : JSError) :
  freqText v = Throw e -> e = TypeError.
Proof.
  unfold freqText.
  destruct (orEmpty v) as [| |[]|n|[|c r]|l|o]; simpl; try discriminate;
    try congruence.
  destruct (negb (PrimFloat.is_zero n || PrimFloat.is_nan n)); [congruence | discriminate].
Qed.

Lemma dateText_throws (v : JSValue) (e : JSError) :
  dateText formatDay v = Throw e -> e = TypeError.
Proof.
  unfold dateText.
  destruct (ToString v) as [t|e'] eqn:Ht; simpl; [discriminate|].
  intros He. injection He as <-. eapply ToString_throws, Ht.
Qed.

Lemma bind_Throw_inv {A B} (m : completion A) (f : A -> completion B)
  (e : JSError) :
  (m ≫= f) = Throw e -> m = Throw e \/ exists a, m = Return a /\ f a = Throw e.
Proof.
  destruct m as [a|e']; simpl; intros He; [right; exists a; tauto|].
  left. injection He as <-. reflexivity.
Qed.

Lemma card_throws (idx : nat) (item : JSValue) (e : JSError) :
  card formatUSD formatDay idx item = Throw e -> e = TypeError.
Proof.
  unfold card, toUSD. intros He.
  apply bind_Throw_inv in He as [He|(amt & _ & He)].
  { apply bind_Throw_inv in He as [He|(x & _ & He)]; [|discriminate].
    eapply ToNumber_throws, He. }
  apply bind_Throw_inv in He as [He|(cat & _ & He)];
    [eapply humanize_throws, He|].
  apply bind_Throw_inv in He as [He|(fr & _ & He)];
    [eapply freqText_throws, He|].
  apply bind_Throw_inv in He as [He|(nx & _ & He)].
  { destruct (truthy _); [eapply dateText_throws, He | discriminate]. }
  apply bind_Throw_inv in He as [He|(ls & _ & He)].
  { destruct (truthy _); [eapply dateText_throws, He | discriminate]. }
  apply bind_Throw_inv in He as [He|(k & _ & He)]; [|discriminate].
  destruct (truthy _); [|discriminate].
  apply bind_Throw_inv in He as [He|(a & _ & He)];
    [eapply ToString_throws, He|].
  apply bind_Throw_inv in He as [He|(d & _ & He)];
    [eapply ToString_throws, He | discriminate].
Qed.

Lemma cardsFrom_throws (items : list JSValue) (idx : nat) (e : JSError) :
  cardsFrom formatUSD formatDay idx items = Throw e -> e = TypeError.
Proof.
  revert idx. induction items as [|x l IH]; simpl; intros idx; [discriminate|].
  destruct (card formatUSD formatDay idx x) as [c|e1] eqn:H1; simpl.
  2:{ intros He. injection He as <-. eapply card_throws, H1. }
  destruct (cardsFrom formatUSD formatDay (S idx) l) as [cs|e2] eqn:H2; simpl;
    [discriminate|].
  intros He. injection He as <-. eapply IH, H2.
Qed.

Lemma cardsFrom_returns (items : list JSValue) (idx : nat) (cs : list Card) :
  cardsFrom formatUSD formatDay idx items = Return cs ->
  length cs = length items /\
  forall x, In x items -> exists i c, card formatUSD formatDay i x = Return c.
Proof.
  revert idx cs. induction items as [|x l IH]; simpl; intros idx cs Hc.
  - injection Hc as <-. split; [reflexivity | tauto].
  - apply bind_Return_inv in Hc as (c & H1 & Hc).
    apply bind_Return_inv in Hc as (cs' & H2 & Hc). injection Hc as <-.
    destruct (IH _ _ H2) as (Hlen & Hall). split; [simpl; congruence|].
    intros y [<-|Hy]; [exists idx, c; exact H1 | apply Hall, Hy].
Qed.

(** X6.  The normalizer copies a frequency through without looking at its
    kind, and the list cannot show one that is truthy and no string: with
    such an item anywhere among the items, the whole list throws a
    TypeError. *)
Theorem list_throws_on_frequency (s : JSValue) (it : RecurringItem) :
  pickFields s = Return it ->
  truthy (getOpt s "frequency") = true ->
  (forall t, getOpt s "frequency" <> JSString t) ->
  frequency it = getOpt s "frequency" /\
  forall before after,
    SubscriptionsAccordion formatUSD formatDay (before ++ itemToJS it :: after)
    = Throw TypeError.
Proof.
  intros Hp Ht Hs.
  destruct (pickFields_inv s it Hp) as (_ & _ & _ & Hfr & _).
  assert (Hfreq : frequency it = getOpt s "frequency").
  { rewrite Hfr. unfold or_else. rewrite Ht. reflexivity. }
  split; [exact Hfreq|].
  assert (Hthrow : freqText (frequency it) = Throw TypeError).
  { rewrite Hfreq. apply freqText_nonstring; assumption. }
  assert (Hcard : forall i c, card formatUSD formatDay i (itemToJS it) <> Return c).
  { intros i c Hc. apply card_inv in Hc as (amt & cat & fr & _ & _ & Hf & _).
    change (getOpt (itemToJS it) "frequency") with (frequency it) in Hf.
    rewrite Hthrow in Hf. discriminate. }
  intros before after. unfold SubscriptionsAccordion.
  destruct (before ++ itemToJS it :: after) as [|x l] eqn:El.
  { destruct before; discriminate. }
  rewrite <- El.
  destruct (cardsFrom formatUSD formatDay 0 (before ++ itemToJS it :: after))
    as [cs|e] eqn:Hm.
  - exfalso. apply cardsFrom_returns in Hm as (_ & Hall).
    destruct (Hall (itemToJS it)) as (i & c & Hc).
    { apply in_or_app. right. left. reflexivity. }
    exact (Hcard i c Hc).
  - simpl. f_equal. eapply cardsFrom_throws, Hm.
Qed.

(** X7.  The page passes the items to the list only when there is one at
    least, so the list never shows its own notice for an empty list there;
    and when the list returns it shows one card for each item. *)
Theorem page_list_not_empty (p : LinkPage.PageState) (items : list JSValue) :
  LinkPage.render p = LinkPage.Subscriptions items ->
  SubscriptionsAccordion formatUSD formatDay items <> Return NoSubscriptions /\
  forall v, SubscriptionsAccordion formatUSD formatDay items = Return v ->
            exists cs, v = Cards cs /\ length cs = length items.
Proof.
  unfold LinkPage.render. intros Hr.
  destruct (LinkPage.loading p); [discriminate|].
  destruct (LinkPage.subs p) as [|x l] eqn:Hs; simpl in Hr.
  { destruct (truthy (LinkPage.linkToken p)); discriminate. }
  injection Hr as <-. unfold SubscriptionsAccordion.
  split.
  - destruct (cardsFrom formatUSD formatDay 0 (x :: l)); simpl; discriminate.
  - intros v Hv. apply bind_Return_inv in Hv as (cs & Hcs & Hv).
    injection Hv as <-. exists cs. split; [reflexivity|].
    apply cardsFrom_returns in Hcs. tauto.
Qed.

End Cards.

Section CardExamples.
Import Formatter Props Samples Subscriptions MoreProps.
#[local] Existing Instance plainEngine.

Lemma missing_category_reads_null_witness :
  pickFields salary = Return salaryItem /\
  truthy (getOpt (getOpt salary "personal_finance_category") "detailed") = false /\
  (detailed (personal_finance_category salaryItem) = JSNull /\
   humanize (getOpt (getOpt (itemToJS salaryItem) "personal_finance_category")
               "detailed") = Return "null" /\
   forall idx c, card sampleUSD sampleDay idx (itemToJS salaryItem) = Return c ->
                 category c = "null").
Proof.
  split; [reflexivity|]. split; [reflexivity|].
  apply (missing_category_reads_null sampleUSD sampleDay salary salaryItem);
    reflexivity.
Defined.

Lemma card_of_normalized_witness :
  (pickFields spotify = Return spotifyItem /\ renderable spotify = true) /\
  exists c,
    card sampleUSD sampleDay 1 (itemToJS spotifyItem) = Return c /\
    amountDisplay c = sampleUSD (PrimFloat.abs (amount (average_amount spotifyItem))) /\
    title c = or_else (description spotifyItem) (JSString "Subscription") /\
    next c = (if truthy (predicted_next_date spotifyItem)
              then sampleDay (predicted_next_date spotifyItem) else dash) /\
    last c = (if truthy (last_date spotifyItem)
              then sampleDay (last_date spotifyItem) else dash) /\
    (truthy (account_id spotifyItem) = false -> cardKey c = ByIndex 1) /\
    (truthy (account_id spotifyItem) = true ->
     exists a d, cardKey c = ByParts a d 1 /\
                 ToString (account_id spotifyItem) = Return a /\
                 ToString (description spotifyItem) = Return d).
Proof.
  split; [split; reflexivity|].
  apply (card_of_normalized sampleUSD sampleDay spotify spotifyItem 1); reflexivity.
Defined.

Lemma list_throws_on_frequency_witness :
  pickFields yearly = Return yearlyItem /\
  truthy (getOpt yearly "frequency") = true /\
  (forall t, getOpt yearly "frequency" <> JSString t) /\
  (frequency yearlyItem = getOpt yearly "frequency" /\
   forall before after,
     SubscriptionsAccordion sampleUSD sampleDay (before ++ itemToJS yearlyItem :: after)
     = Throw TypeError).
Proof.
  split; [reflexivity|]. split; [reflexivity|].
  split; [intros t; discriminate|].
  apply (list_throws_on_frequency sampleUSD sampleDay yearly yearlyItem);
    [reflexivity | reflexivity | intros t; discriminate].
Defined.

Lemma page_list_not_empty_witness :
  LinkPage.render (LinkPage.Build_PageState JSNull "" false sampleItems)
    = LinkPage.Subscriptions sampleItems /\
  (SubscriptionsAccordion sampleUSD sampleDay sampleItems <> Return NoSubscriptions /\
   forall v, SubscriptionsAccordion sampleUSD sampleDay sampleItems = Return v ->
             exists cs, v = Cards cs /\ length cs = length sampleItems).
Proof.
  split; [reflexivity|].
  apply (page_list_not_empty sampleUSD sampleDay
           (LinkPage.Build_PageState JSNull "" false sampleItems) sampleItems).
  reflexivity.
Defined.

(** The cards of the sample items. *)
Example cards_of_sample :
  SubscriptionsAccordion sampleUSD sampleDay sampleItems =
  Return (Cards
    [ {| cardKey := ByParts "a2" "NETFLIX.COM" 0;
         title := JSString "NETFLIX.COM"; amountDisplay := "$"; category := "null";
         freq := "Unknown"; next := "day"; last := dash |};
      {| cardKey := ByParts "a1" "Spotify" 1;
         title := JSString "Spotify"; amountDisplay := "$"; category := "null";
         freq := "Monthly"; next := "day"; last := "day" |};
      {| cardKey := ByParts "a3" "ACME PAYROLL" 2;
         title := JSString "ACME PAYROLL"; amountDisplay := "$"; category := "null";
         freq := "Unknown"; next := dash; last := dash |} ]).
Proof. reflexivity. Qed.

(** What the callback does not survive: an account id or a date that cannot
    be converted to a string. *)
Example card_throws_on_account_id :
  card sampleUSD sampleDay 0
    (JSObject [("account_id", JSObject [("toString", JSNumber 1)])])
  = Throw TypeError /\
  card sampleUSD sampleDay 0
    (JSObject [("predicted_next_date", JSObject [("toString", JSNumber 1)])])
  = Throw TypeError.
Proof. split; reflexivity. Qed.

End CardExamples.

(* ================================================================== *)
(** * The cache: what a write touches                                  *)
(* ================================================================== *)

Section CacheWrites.
Import Cache Props.
Context `{Engine}.
Variable TTL : float.

Lemma writeCache_full (st : Storage) (t0 : float) (uid : string)
  (items : list JSValue) :
  full st = true -> writeCache st t0 uid items = st.
Proof.
  intros Hf. unfold writeCache, setItem. rewrite Hf.
  destruct (blocked st); reflexivity.
Qed.

Lemma writeCache_flags (st : Storage) (t0 : float) (uid : string)
  (items : list JSValue) :
  blocked (writeCache st t0 uid items) = blocked st /\
  full (writeCache st t0 uid items) = full st.
Proof.
  unfold writeCache, setItem.
  destruct (blocked st) eqn:Hb; [split; [exact Hb | reflexivity]|].
  destruct (full st) eqn:Hf; [split; [exact Hb | exact Hf]|].
  split; reflexivity.
Qed.

Lemma writeCache_slots (st : Storage) (t0 : float) (uid : string)
  (items : list JSValue) (k : string) :
  k <> cacheKey uid ->
  slots (writeCache st t0 uid items) !! k = slots st !! k.
Proof.
  intros Hk. unfold writeCache, setItem.
  destruct (blocked st); [reflexivity|].
  destruct (full st); [reflexivity|]. simpl.
  apply lookup_insert_ne. congruence.
Qed.

(** X8.  A write for one identity touches the slot of that identity and
    nothing else: every other slot of storage, the slot "user_id" among
    them, holds what it held, and a read for any other identity returns what
    it returned before the write, whatever storage held and whether or not
    it took the write. *)
Theorem writeCache_touches_own_slot (st : Storage) (t0 : float) (a : string)
  (items : list JSValue) :
  (forall k, k <> cacheKey a ->
     slots (writeCache st t0 a items) !! k = slots st !! k) /\
  slots (writeCache st t0 a items) !! "user_id" = slots st !! "user_id" /\
  (forall b t1, b <> a ->
     readCache TTL (writeCache st t0 a items) t1 b = readCache TTL st t1 b).
Proof.
  split; [|split].
  - intros k Hk. apply writeCache_slots, Hk.
  - apply writeCache_slots. intros Hk. unfold cacheKey in Hk. discriminate.
  - intros b t1 Hba. apply cache_isolation. congruence.
Qed.

(** [writeCache] swallows the refusal of storage. *)
Lemma writeCache_refused (st : Storage) (t0 : float) (uid : string)
  (items : list JSValue) :
  blocked st = true \/ full st = true -> writeCache st t0 uid items = st.
Proof.
  intros [Hb|Hf]; [apply writeCache_blocked, Hb | apply writeCache_full, Hf].
Qed.


(** X10.  The expiry test is strict: an entry whose age is exactly the time
    to live is still served; only a greater age expires it. *)
Theorem readCache_at_ttl (st : Storage) (uid : string) (items : list JSValue)
  (t0 t1 : float) :
  blocked st = false -> full st = false ->
  truthy (JSNumber t0) = true -> PrimFloat.is_finite t0 = true ->
  PrimFloat.sub t1 t0 = TTL ->
  readCache TTL (writeCache st t0 uid items) t1 uid = Some (map jsonImage items).
Proof.
  intros Hb Hf Ht Hfin Hage.
  apply read_after_write; try assumption.
  rewrite Hage. rewrite FloatAxioms.ltb_spec.
  unfold SFltb, SFcompare.
  destruct (Prim2SF TTL) as [[]|[]| |[] m e]; try reflexivity;
    rewrite ?Z.compare_refl, ?Pos.compare_refl; simpl;
    rewrite ?Pos.compare_refl; reflexivity.
Qed.

End CacheWrites.

Section CacheWriteExamples.
Import Formatter Cache LinkPage Props Samples.
#[local] Existing Instance plainEngine.

Lemma readCache_at_ttl_witness :
  (blocked emptyStorage = false /\ full emptyStorage = false /\
   truthy (JSNumber sampleNow) = true /\ PrimFloat.is_finite sampleNow = true /\
   PrimFloat.sub (sampleNow + 43200000) sampleNow = TTL_12h) /\
  readCache TTL_12h (writeCache emptyStorage sampleNow "u1" sampleItems)
    (sampleNow + 43200000) "u1" = Some (map jsonImage sampleItems).
Proof.
  split; [repeat split|].
  exact (readCache_at_ttl TTL_12h emptyStorage "u1" sampleItems sampleNow
           (sampleNow + 43200000) eq_refl eq_refl eq_refl eq_refl eq_refl).
Defined.

End CacheWriteExamples.

(* ================================================================== *)
(** * The page: answers, failures and the next activation              *)
(* ================================================================== *)

Section PageAnswers.
Import Formatter Cache LinkPage Props MoreProps.
Context `{Engine}.
Variable TTL : float.
Variable toRecurringItems : JSValue -> completion (list RecurringItem).

Lemma resume_failed (uid : string) (now : float) (r : FetchResult)
  (p : PageState) (w : World) :
  failedAnswer toRecurringItems r ->
  fetchFromApi_resume toRecurringItems uid now r p w =
  ({| linkToken := linkToken p; message := errorText; loading := false;
      subs := subs p |},
   log (ConsoleError "Error retrieving recurring data:") w).
Proof.
  unfold fetchFromApi_resume, fetchFromApi_try, failedAnswer.
  destruct r as [|[] [data|]]; try reflexivity.
  intros (Htag & e & He). rewrite bind_Return. cbv zeta.
  rewrite Htag, He. reflexivity.
Qed.

Lemma resume_recurring (uid : string) (now : float) (data : JSValue)
  (items : list RecurringItem) (p : PageState) (w : World) :
  getOpt (getOpt data "response_object") "tag" = JSString "recurring_data" ->
  toRecurringItems (getOpt (getOpt data "response_object") "data") = Return items ->
  fetchFromApi_resume toRecurringItems uid now (HttpResponse true (Some data)) p w =
  ({| linkToken := JSNull; message := noItemsMessage (map itemToJS items);
      loading := false; subs := map itemToJS items |},
   withStorage (writeCache (storage w) now uid (map itemToJS items))
     (log (StorageSet (cacheKey uid)) w)).
Proof.
  intros Htag Hit. unfold fetchFromApi_resume, fetchFromApi_try.
  rewrite bind_Return. cbv zeta. rewrite Htag, Hit. reflexivity.
Qed.

(** X11.  When the request fails (it is rejected, the status is not OK, the
    body is no JSON, or the formatter throws on recurring data), the page
    logs the error, sets its error text and ends loading; the items, the
    token and storage are what they were.  The error text is shown only when
    the page has neither items nor a token: items that were on the page stay
    there and hide it. *)
Theorem fetch_failure_keeps_page (uid : string) (now : float) (r : FetchResult)
  (p : PageState) (w : World) :
  failedAnswer toRecurringItems r ->
  exists p',
    fetchFromApi_resume toRecurringItems uid now r p w =
      (p', log (ConsoleError "Error retrieving recurring data:") w) /\
    subs p' = subs p /\ linkToken p' = linkToken p /\
    message p' = errorText /\ loading p' = false /\
    (subs p <> [] -> render p' = Subscriptions (subs p)) /\
    (subs p = [] -> truthy (linkToken p) = true ->
       render p' = ConnectBank (linkToken p)) /\
    (subs p = [] -> truthy (linkToken p) = false ->
       render p' = MessageBox errorText).
Proof.
  intros Hf. eexists. split; [apply resume_failed, Hf|]. simpl.
  repeat (split; [reflexivity|]). unfold render. simpl. split; [|split].
  - intros Hne. destruct (subs p); [congruence | reflexivity].
  - intros -> Ht. simpl. rewrite Ht. reflexivity.
  - intros -> Ht. simpl. rewrite Ht. reflexivity.
Qed.

(** X12.  Whatever the answer to the request, loading ends; and the items
    and storage change for one kind of answer only, recurring data that the
    formatter accepts: the items become the normalized ones, the token is
    dropped and they are written to the cache of the identity.  In every
    other case the items and storage are what they were. *)
Theorem only_recurring_data_changes_items (uid : string) (now : float)
  (r : FetchResult) (p : PageState) (w : World) :
  exists p' w',
    fetchFromApi_resume toRecurringItems uid now r p w = (p', w') /\
    loading p' = false /\
    ((exists data items,
        r = HttpResponse true (Some data) /\
        getOpt (getOpt data "response_object") "tag" = JSString "recurring_data" /\
        toRecurringItems (getOpt (getOpt data "response_object") "data")
          = Return items /\
        subs p' = map itemToJS items /\ linkToken p' = JSNull /\
        storage w' = writeCache (storage w) now uid (map itemToJS items))
     \/ (subs p' = subs p /\ storage w' = storage w)).
Proof.
  destruct r as [|ok [data|]].
  - eexists _, _. split; [apply resume_failed; exact I|].
    split; [reflexivity|]. right. split; reflexivity.
  - destruct ok.
    2:{ eexists _, _. split; [apply resume_failed; exact I|].
        split; [reflexivity|]. right. split; reflexivity. }
    destruct (getOpt (getOpt data "response_object") "tag") as [| |b|n|tag|l|o] eqn:Htag.
    1-4,6-7: eexists _, _; split;
      [unfold fetchFromApi_resume, fetchFromApi_try; rewrite bind_Return;
       cbv zeta; rewrite Htag; reflexivity|];
      split; [reflexivity|]; right; split; reflexivity.
    destruct (String.eqb tag "recurring_data") eqn:Er.
    + apply String.eqb_eq in Er. subst tag.
      destruct (toRecurringItems (getOpt (getOpt data "response_object") "data"))
        as [items|e] eqn:Hit.
      * eexists _, _. split; [apply (resume_recurring _ _ _ items); assumption|].
        split; [reflexivity|]. left. exists data, items.
        repeat (split; [reflexivity || assumption|]). reflexivity.
      * eexists _, _. split; [apply resume_failed; simpl; split; [assumption|]|].
        { exists e. exact Hit. }
        split; [reflexivity|]. right. split; reflexivity.
    + assert (Hcases : exists pw,
                fetchFromApi_try toRecurringItems uid now
                  (HttpResponse true (Some data)) p w = Return pw /\
                subs (fst pw) = subs p /\ storage (snd pw) = storage w).
      { unfold fetchFromApi_try. rewrite bind_Return. cbv zeta. rewrite Htag.
        destruct (String.eqb tag "link_token") eqn:El.
        - apply String.eqb_eq in El. subst tag.
          eexists. split; [reflexivity|]. split; reflexivity.
        - assert (Hne1 : tag <> "recurring_data")
            by (intros ->; rewrite String.eqb_refl in Er; discriminate).
          assert (Hne2 : tag <> "link_token")
            by (intros ->; rewrite String.eqb_refl in El; discriminate).
          clear Er El Htag.
          eexists ({| linkToken := linkToken p; message := "No data returned.";
                      loading := loading p; subs := subs p |}, w).
          split; [|split; reflexivity].
          repeat (destruct tag as [|[[] [] [] [] [] [] [] []] tag];
                  try reflexivity; try congruence). }
      destruct Hcases as ([p1 w1] & Htry & Hs & Hst). simpl in Hs, Hst.
      eexists _, _. split.
      { unfold fetchFromApi_resume. rewrite Htry. reflexivity. }
      split; [reflexivity|]. right. simpl. split; assumption.
  - destruct ok; eexists _, _; (split; [apply resume_failed; exact I|]);
      (split; [reflexivity|]); right; split; reflexivity.
Qed.

End PageAnswers.

Section PageActivations.
Import Formatter Cache LinkPage Props MoreProps.
Context `{Engine}.
Variable TTL : float.
Variable toRecurringItems : JSValue -> completion (list RecurringItem).

Lemma filter_isFetch_storage_calls (t : list Event) (uid : string) :
  List.filter isFetch (t ++ [StorageSet "user_id"; StorageGet (cacheKey uid)])
  = List.filter isFetch t.
Proof. rewrite List.filter_app. simpl. apply app_nil_r. Qed.

(** The activation that follows a write the storage took, within the time to
    live. *)
Lemma useEffect_after_write (uid : string) (t0 t1 : float) (items : list JSValue)
  (p : PageState) (w : World) (st : Storage) :
  uid <> "" -> blocked st = false -> full st = false ->
  truthy (JSNumber t0) = true -> PrimFloat.is_finite t0 = true ->
  PrimFloat.ltb TTL (PrimFloat.sub t1 t0) = false ->
  storage w = writeCache st t0 uid items ->
  useEffect TTL (Some uid) t1 p w =
  match map jsonImage items with
  | x :: l =>
      ({| linkToken := JSNull; message := ""; loading := false; subs := x :: l |},
       afterCacheRead uid w, Settled)
  | [] => fetchFromApi (Some uid) p (afterCacheRead uid w)
  end.
Proof.
  intros Hu Hb Hf Ht Hfin Hfresh Hst.
  destruct (writeCache_flags st t0 uid items) as (Hb' & Hf').
  rewrite useEffect_read; rewrite ?Hst, ?Hb', ?Hf'; try assumption.
  rewrite (read_after_write TTL st uid items t0 t1 Hb Hf Ht Hfin Hfresh).
  reflexivity.
Qed.

(** X13.  Recurring data that arrived and was cached spares the next
    request: when the page is activated again for the same identity within
    the time to live, the effect ends with the cached items (the normalized
    items as JSON carries them) and issues no request. *)
Theorem refetch_served_from_cache (uid : string) (t0 t1 : float) (data : JSValue)
  (items : list RecurringItem) (p : PageState) (w : World) :
  uid <> "" -> blocked (storage w) = false -> full (storage w) = false ->
  truthy (JSNumber t0) = true -> PrimFloat.is_finite t0 = true ->
  PrimFloat.ltb TTL (PrimFloat.sub t1 t0) = false ->
  getOpt (getOpt data "response_object") "tag" = JSString "recurring_data" ->
  toRecurringItems (getOpt (getOpt data "response_object") "data") = Return items ->
  items <> [] ->
  exists p1 w1 p2 w2,
    fetchFromApi_resume toRecurringItems uid t0 (HttpResponse true (Some data)) p w
      = (p1, w1) /\
    render p1 = Subscriptions (map itemToJS items) /\
    useEffect TTL (Some uid) t1 p1 w1 = (p2, w2, Settled) /\
    subs p2 = map jsonImage (map itemToJS items) /\
    render p2 = Subscriptions (map jsonImage (map itemToJS items)) /\
    List.filter isFetch (trace w2) = List.filter isFetch (trace w).
Proof.
  intros Hu Hb Hf Ht Hfin Hfresh Htag Hit Hne.
  destruct items as [|it items]; [congruence|].
  eexists _, _, _, _.
  split; [apply (resume_recurring toRecurringItems _ _ _ _ _ _ Htag Hit)|].
  split; [reflexivity|].
  split.
  { rewrite (useEffect_after_write uid t0 t1 (map itemToJS (it :: items)) _ _
               (storage w) Hu Hb Hf Ht Hfin Hfresh); reflexivity. }
  split; [reflexivity|]. split; [reflexivity|].
  simpl. rewrite <- app_assoc. rewrite !List.filter_app. simpl.
  rewrite !app_nil_r. reflexivity.
Qed.

(** X14.  An answer without active streams is cached too, but the cached
    empty list never spares a request: the page shows "No recurring
    transactions found.", the entry reads back as the empty list, and the
    next activation within the time to live asks the network again. *)
Theorem empty_result_cached_not_served (uid : string) (t0 t1 : float)
  (data : JSValue) (p : PageState) (w : World) :
  uid <> "" -> blocked (storage w) = false -> full (storage w) = false ->
  truthy (JSNumber t0) = true -> PrimFloat.is_finite t0 = true ->
  PrimFloat.ltb TTL (PrimFloat.sub t1 t0) = false ->
  getOpt (getOpt data "response_object") "tag" = JSString "recurring_data" ->
  toRecurringItems (getOpt (getOpt data "response_object") "data") = Return [] ->
  exists p1 w1 p2 w2,
    fetchFromApi_resume toRecurringItems uid t0 (HttpResponse true (Some data)) p w
      = (p1, w1) /\
    render p1 = MessageBox "No recurring transactions found." /\
    readCache TTL (storage w1) t1 uid = Some [] /\
    useEffect TTL (Some uid) t1 p1 w1 = (p2, w2, Fetching uid) /\
    trace w2 = trace w1 ++ [StorageSet "user_id"; StorageGet (cacheKey uid);
                            requestOf uid].
Proof.
  intros Hu Hb Hf Ht Hfin Hfresh Htag Hit.
  eexists _, _, _, _.
  split; [apply (resume_recurring toRecurringItems _ _ _ _ _ _ Htag Hit)|].
  split; [reflexivity|].
  split; [apply (read_after_write TTL _ uid [] t0 t1 Hb Hf Ht Hfin Hfresh)|].
  rewrite (useEffect_after_write uid t0 t1 [] _ _
             (storage w) Hu Hb Hf Ht Hfin Hfresh); [|reflexivity].
  simpl. unfold fetchFromApi.
  destruct (String.eqb uid "") eqn:Eu.
  { apply String.eqb_eq in Eu. congruence. }
  split; [reflexivity|]. simpl. rewrite <- !app_assoc. reflexivity.
Qed.

(** X15.  An activation asks the network at most once, and exactly when it
    ends with the request pending: the trace grows by events among which
    there is the one request for the identity in that case, and none in any
    other. *)
Theorem effect_requests_at_most_once (userId : option string) (now : float)
  (p : PageState) (w : World) :
  exists p' w' o evs,
    useEffect TTL userId now p w = (p', w', o) /\
    trace w' = trace w ++ evs /\
    ((exists uid, userId = Some uid /\ o = Fetching uid /\
                  List.filter isFetch evs = [requestOf uid])
     \/ ((o = Settled \/ exists e, o = Crashed e) /\ List.filter isFetch evs = [])).
Proof.
  unfold useEffect.
  destruct userId as [[|c r]|].
  - eexists _, _, _, _. split; [reflexivity|]. split; [reflexivity|].
    right. split; [left; reflexivity | reflexivity].
  - destruct (setItem (storage w) "user_id" (Verbatim (String c r))) as [st1|e].
    + destruct (readCache TTL st1 now (String c r)) as [[|x l]|].
      * eexists _, _, _, [_; _; _]. split; [reflexivity|]. simpl.
        split; [rewrite <- !app_assoc; reflexivity|].
        left. eexists. split; [reflexivity|]. split; reflexivity.
      * eexists _, _, _, [_; _]. split; [reflexivity|]. simpl.
        split; [rewrite <- !app_assoc; reflexivity|].
        right. split; [left; reflexivity | reflexivity].
      * eexists _, _, _, [_; _; _]. split; [reflexivity|]. simpl.
        split; [rewrite <- !app_assoc; reflexivity|].
        left. eexists. split; [reflexivity|]. split; reflexivity.
    + eexists _, _, _, [_]. split; [reflexivity|]. split; [reflexivity|].
      right. split; [right; eexists; reflexivity | reflexivity].
  - eexists _, _, _, _. split; [reflexivity|]. split; [reflexivity|].
    right. split; [left; reflexivity | reflexivity].
Qed.

(** X16.  Storage that refuses a write: the cache helpers swallow the
    refusal (a write leaves storage as it was, an answer with recurring data
    and the items handed over by the link button are still put on the page),
    but the effect records the identity outside any [try], so an activation
    with an identity ends in the exception of storage, before the cache is
    read and with no request issued and no state set. *)
Theorem storage_refusal (uid : string) (now : float) (p : PageState) (w : World) :
  uid <> "" ->
  blocked (storage w) = true \/ full (storage w) = true ->
  (forall l, writeCache (storage w) now uid l = storage w) /\
  (forall l, handlePlaidData uid now (JSArray l) p w =
     ({| linkToken := JSNull; message := noItemsMessage l;
         loading := loading p; subs := l |},
      log (StorageSet (cacheKey uid)) w)) /\
  (forall data items,
     getOpt (getOpt data "response_object") "tag" = JSString "recurring_data" ->
     toRecurringItems (getOpt (getOpt data "response_object") "data") = Return items ->
     fetchFromApi_resume toRecurringItems uid now (HttpResponse true (Some data)) p w =
     ({| linkToken := JSNull; message := noItemsMessage (map itemToJS items);
         loading := false; subs := map itemToJS items |},
      log (StorageSet (cacheKey uid)) w)) /\
  exists e,
    useEffect TTL (Some uid) now p w = (p, log (StorageSet "user_id") w, Crashed e) /\
    e = (if blocked (storage w) then SecurityError else QuotaExceededError).
Proof.
  intros Hu Href.
  assert (Hw : forall l, writeCache (storage w) now uid l = storage w)
    by (intros l; apply writeCache_refused, Href).
  assert (Hsame : forall l, withStorage (writeCache (storage w) now uid l)
                              (log (StorageSet (cacheKey uid)) w)
                            = log (StorageSet (cacheKey uid)) w).
  { intros l. rewrite Hw. reflexivity. }
  split; [exact Hw|]. split; [|split].
  - intros l. unfold handlePlaidData. rewrite Hsame. reflexivity.
  - intros data items Htag Hit.
    rewrite (resume_recurring toRecurringItems _ _ _ _ _ _ Htag Hit), Hsame.
    reflexivity.
  - destruct uid as [|c r]; [congruence|].
    unfold useEffect, setItem.
    destruct (blocked (storage w)) eqn:Hb.
    + eexists. split; reflexivity.
    + destruct Href as [Hb'|Hf]; [discriminate|]. rewrite Hf.
      eexists. split; reflexivity.
Qed.

End PageActivations.

Section PageAnswerExamples.
Import Formatter Cache LinkPage Props Samples MoreProps.
#[local] Existing Instance plainEngine.

Lemma fetch_failure_keeps_page_witness :
  failedAnswer MergeBoth.toRecurringItems (HttpResponse false None) /\
  exists p',
    fetchFromApi_resume MergeBoth.toRecurringItems "u1" sampleNow
      (HttpResponse false None) shownState emptyWorld =
      (p', log (ConsoleError "Error retrieving recurring data:") emptyWorld) /\
    subs p' = subs shownState /\ linkToken p' = linkToken shownState /\
    message p' = errorText /\ loading p' = false /\
    (subs shownState <> [] -> render p' = Subscriptions (subs shownState)) /\
    (subs shownState = [] -> truthy (linkToken shownState) = true ->
       render p' = ConnectBank (linkToken shownState)) /\
    (subs shownState = [] -> truthy (linkToken shownState) = false ->
       render p' = MessageBox errorText).
Proof.
  split; [exact I|].
  exact (fetch_failure_keeps_page MergeBoth.toRecurringItems "u1" sampleNow
           (HttpResponse false None) shownState emptyWorld I).
Defined.

Lemma refetch_served_from_cache_witness :
  ("u1" <> "" /\
   PrimFloat.ltb TTL_12h (PrimFloat.sub (sampleNow + 1000) sampleNow) = false /\
   MergeBoth.toRecurringItems
     (getOpt (getOpt recurringDataAnswer "response_object") "data")
   = Return [spotifyItem]) /\
  exists p1 w1 p2 w2,
    fetchFromApi_resume MergeBoth.toRecurringItems "u1" sampleNow
      (HttpResponse true (Some recurringDataAnswer)) initialState emptyWorld
      = (p1, w1) /\
    render p1 = Subscriptions (map itemToJS [spotifyItem]) /\
    useEffect TTL_12h (Some "u1") (sampleNow + 1000) p1 w1 = (p2, w2, Settled) /\
    subs p2 = map jsonImage (map itemToJS [spotifyItem]) /\
    render p2 = Subscriptions (map jsonImage (map itemToJS [spotifyItem])) /\
    List.filter isFetch (trace w2) = List.filter isFetch (trace emptyWorld).
Proof.
  assert (Hu : "u1" <> "") by discriminate.
  assert (Hne : [spotifyItem] <> []) by discriminate.
  split; [split; [exact Hu | split; reflexivity]|].
  exact (refetch_served_from_cache TTL_12h MergeBoth.toRecurringItems "u1"
           sampleNow (sampleNow + 1000) recurringDataAnswer [spotifyItem]
           initialState emptyWorld Hu eq_refl eq_refl eq_refl eq_refl eq_refl
           eq_refl eq_refl Hne).
Defined.

Lemma empty_result_cached_not_served_witness :
  ("u1" <> "" /\
   PrimFloat.ltb TTL_12h (PrimFloat.sub (sampleNow + 1000) sampleNow) = false /\
   MergeBoth.toRecurringItems
     (getOpt (getOpt noStreamsAnswer "response_object") "data") = Return []) /\
  exists p1 w1 p2 w2,
    fetchFromApi_resume MergeBoth.toRecurringItems "u1" sampleNow
      (HttpResponse true (Some noStreamsAnswer)) initialState emptyWorld
      = (p1, w1) /\
    render p1 = MessageBox "No recurring transactions found." /\
    readCache TTL_12h (storage w1) (sampleNow + 1000) "u1" = Some [] /\
    useEffect TTL_12h (Some "u1") (sampleNow + 1000) p1 w1 = (p2, w2, Fetching "u1") /\
    trace w2 = trace w1 ++ [StorageSet "user_id"; StorageGet (cacheKey "u1");
                            requestOf "u1"].
Proof.
  assert (Hu : "u1" <> "") by discriminate.
  split; [split; [exact Hu | split; reflexivity]|].
  exact (empty_result_cached_not_served TTL_12h MergeBoth.toRecurringItems "u1"
           sampleNow (sampleNow + 1000) noStreamsAnswer
           initialState emptyWorld Hu eq_refl eq_refl eq_refl eq_refl eq_refl
           eq_refl eq_refl).
Defined.

Lemma storage_refusal_witness :
  ("u1" <> "" /\
   (blocked (storage fullWorld) = true \/ full (storage fullWorld) = true)) /\
  useEffect TTL_12h (Some "u1") sampleNow initialState fullWorld
  = (initialState, log (StorageSet "user_id") fullWorld, Crashed QuotaExceededError) /\
  fst (handlePlaidData "u1" sampleNow (JSArray sampleItems) initialState fullWorld)
  = {| linkToken := JSNull; message := ""; loading := true; subs := sampleItems |}.
Proof.
  assert (Hu : "u1" <> "") by discriminate.
  split; [split; [exact Hu | right; reflexivity]|].
  pose proof (storage_refusal TTL_12h MergeBoth.toRecurringItems "u1" sampleNow
                initialState fullWorld Hu (or_intror eq_refl))
    as (_ & Hh & _ & e & He & ->).
  split; [exact He|]. rewrite Hh. reflexivity.
Defined.

End PageAnswerExamples.

(* ================================================================== *)
(** * The link button on the page                                      *)
(* ================================================================== *)

Section LinkButton.
Import Formatter Cache LinkPage Props MoreProps.
Context `{Engine}.
Variable TTL : float.
Variable toRecurringItems : JSValue -> completion (list RecurringItem).
Variable JSON_text : JSValue -> string.

Lemma render_ConnectBank (p : PageState) (tok : JSValue) :
  render p = ConnectBank tok ->
  loading p = false /\ subs p = [] /\ linkToken p = tok /\ truthy tok = true.
Proof.
  unfold render. destruct (loading p); [discriminate|].
  destruct (subs p); simpl; [|discriminate].
  destruct (truthy (linkToken p)) eqn:Ht; [|discriminate].
  intros Hr. injection Hr as <-. repeat split. exact Ht.
Qed.

Lemma exchangeFailed_throws (r : FetchResult) :
  exchangeFailed toRecurringItems r ->
  exists e, PlaidButton.onSuccess_try toRecurringItems r = Throw e.
Proof.
  unfold exchangeFailed, PlaidButton.onSuccess_try.
  destruct r as [|[] [data|]]; try (intros _; eexists; reflexivity).
  intros (e & He). exists e. rewrite bind_Return. exact He.
Qed.

(** X17.  A failed exchange takes the connect view away: the button hands
    the empty list to the page, which drops the link token, sets "No
    recurring transactions found." and shows that text in place of the
    button, and which writes the empty list to the cache of the identity,
    over whatever entry was there.  The error goes to the console and into
    the message of the button. *)
Theorem failed_exchange_wipes_page (userId : option string) (now : float)
  (r : FetchResult) (b : PlaidButton.ButtonState) (p : PageState) (w : World)
  (tok : JSValue) :
  render p = ConnectBank tok ->
  exchangeFailed toRecurringItems r ->
  exists b' p' w' e,
    PlaidButton.onSuccess_resume toRecurringItems userId now r b p w = (b', p', w') /\
    subs p' = [] /\ linkToken p' = JSNull /\
    render p' = MessageBox "No recurring transactions found." /\
    PlaidButton.isError b' = true /\
    PlaidButton.message b'
      = Some "There was an error retrieving recurring transactions." /\
    PlaidButton.loading b' = false /\
    trace w' = trace w ++ [ConsoleError (PlaidButton.errorName e);
                           StorageSet (cacheKey (PlaidButton.idText userId))] /\
    storage w' = writeCache (storage w) now (PlaidButton.idText userId) [].
Proof.
  intros Hr Hfail.
  apply render_ConnectBank in Hr as (Hl & _ & _ & _).
  destruct (exchangeFailed_throws r Hfail) as (e & He).
  unfold PlaidButton.onSuccess_resume. rewrite He. simpl.
  eexists _, _, _, e. split; [reflexivity|]. simpl.
  repeat (split; [reflexivity|]).
  split; [unfold render; simpl; rewrite Hl; reflexivity|].
  repeat (split; [reflexivity|]).
  split; [rewrite <- app_assoc; reflexivity | reflexivity].
Qed.

Lemma onSuccess_resume_ok (userId : option string) (now : float) (data : JSValue)
  (items : list RecurringItem) (b : PlaidButton.ButtonState) (p : PageState)
  (w : World) :
  toRecurringItems (getOpt (getOpt data "response_object") "data") = Return items ->
  PlaidButton.onSuccess_resume toRecurringItems userId now
    (HttpResponse true (Some data)) b p w =
  ({| PlaidButton.message := PlaidButton.message b;
      PlaidButton.isError := PlaidButton.isError b;
      PlaidButton.loading := false |},
   {| linkToken := JSNull; message := noItemsMessage (map itemToJS items);
      loading := loading p; subs := map itemToJS items |},
   withStorage
     (writeCache (storage w) now (PlaidButton.idText userId) (map itemToJS items))
     (log (StorageSet (cacheKey (PlaidButton.idText userId))) w)).
Proof.
  intros Hit. unfold PlaidButton.onSuccess_resume, PlaidButton.onSuccess_try.
  rewrite bind_Return, Hit. reflexivity.
Qed.

(** X18.  A successful exchange puts the normalized items of the answer on
    the page, whatever the tag of the answer, and caches them: the page
    shows the items in place of the button, the message of the button is
    untouched, and the next activation of the page for the identity within
    the time to live is served from the cache without a request. *)
Theorem exchange_shows_and_caches (uid : string) (t0 t1 : float) (data : JSValue)
  (items : list RecurringItem) (b : PlaidButton.ButtonState) (p : PageState)
  (w : World) (tok : JSValue) :
  render p = ConnectBank tok ->
  uid <> "" -> blocked (storage w) = false -> full (storage w) = false ->
  truthy (JSNumber t0) = true -> PrimFloat.is_finite t0 = true ->
  PrimFloat.ltb TTL (PrimFloat.sub t1 t0) = false ->
  toRecurringItems (getOpt (getOpt data "response_object") "data") = Return items ->
  items <> [] ->
  exists b' p1 w1 p2 w2,
    PlaidButton.onSuccess_resume toRecurringItems (Some uid) t0
      (HttpResponse true (Some data)) b p w = (b', p1, w1) /\
    render p1 = Subscriptions (map itemToJS items) /\
    PlaidButton.message b' = PlaidButton.message b /\
    PlaidButton.isError b' = PlaidButton.isError b /\
    PlaidButton.loading b' = false /\
    useEffect TTL (Some uid) t1 p1 w1 = (p2, w2, Settled) /\
    subs p2 = map jsonImage (map itemToJS items) /\
    List.filter isFetch (trace w2) = List.filter isFetch (trace w).
Proof.
  intros Hr Hu Hb Hf Ht Hfin Hfresh Hit Hne.
  apply render_ConnectBank in Hr as (Hl & _ & _ & _).
  destruct items as [|it items]; [congruence|].
  eexists _, _, _, _, _.
  split; [apply (onSuccess_resume_ok (Some uid) t0 data _ b p w Hit)|].
  split; [unfold render; simpl; rewrite Hl; reflexivity|].
  repeat (split; [reflexivity|]).
  split.
  { rewrite (useEffect_after_write TTL uid t0 t1 (map itemToJS (it :: items)) _ _
               (storage w) Hu Hb Hf Ht Hfin Hfresh); reflexivity. }
  split; [reflexivity|].
  simpl. rewrite <- app_assoc. rewrite !List.filter_app. simpl.
  rewrite !app_nil_r. reflexivity.
Qed.

(** X19.  The identity of the exchange request: with the identity of the
    page at hand the button sends it and reads no storage; without one it
    sends what storage holds under "user_id", which after an activation of
    the page with an identity is that identity; and when storage cannot be
    read the button stops with the exception of storage, before any state is
    set and before any request. *)
Theorem exchange_identity (uid tok : string) (now : float)
  (b : PlaidButton.ButtonState) (p : PageState) (w : World) :
  uid <> "" -> blocked (storage w) = false -> full (storage w) = false ->
  (exists b' w' o,
     PlaidButton.onSuccess JSON_text (Some uid) tok b w = (b', w', o) /\
     trace w' = trace w ++ [exchangeOf tok (JSString uid)]) /\
  (exists p1 w1 o1 b' w2 o2,
     useEffect TTL (Some uid) now p w = (p1, w1, o1) /\
     PlaidButton.onSuccess JSON_text None tok b w1 = (b', w2, o2) /\
     PlaidButton.loading b' = true /\
     trace w2 = trace w1 ++ [StorageGet "user_id"; exchangeOf tok (JSString uid)]) /\
  (forall w0, blocked (storage w0) = true ->
     PlaidButton.onSuccess JSON_text None tok b w0
     = (b, log (StorageGet "user_id") w0, Crashed SecurityError)).
Proof.
  intros Hu Hb Hf. split; [|split].
  - eexists _, _, _. split; reflexivity.
  - rewrite (useEffect_read TTL uid now p w Hu Hb Hf).
    assert (Hget : forall w', storage w' = storage (afterCacheRead uid w) ->
              exists b' w2 o2,
                PlaidButton.onSuccess JSON_text None tok b w' = (b', w2, o2) /\
                PlaidButton.loading b' = true /\
                trace w2 = trace w' ++ [StorageGet "user_id";
                                        exchangeOf tok (JSString uid)]).
    { intros w' Hst. unfold PlaidButton.onSuccess, getItem. rewrite Hst. simpl.
      rewrite lookup_insert_eq. simpl.
      eexists _, _, _. split; [reflexivity|]. split; [reflexivity|].
      simpl. rewrite <- app_assoc. reflexivity. }
    destruct (readCache TTL (storage w) now uid) as [[|x l]|].
    + unfold fetchFromApi. destruct (String.eqb uid "") eqn:Eu.
      { apply String.eqb_eq in Eu. congruence. }
      destruct (Hget (log (requestOf uid) (afterCacheRead uid w)) eq_refl)
        as (b' & w2 & o2 & H1 & H2 & H3).
      eexists _, _, _, b', w2, o2. split; [reflexivity|].
      split; [exact H1|]. split; [exact H2 | exact H3].
    + destruct (Hget (afterCacheRead uid w) eq_refl)
        as (b' & w2 & o2 & H1 & H2 & H3).
      eexists _, _, _, b', w2, o2. split; [reflexivity|].
      split; [exact H1|]. split; [exact H2 | exact H3].
    + unfold fetchFromApi. destruct (String.eqb uid "") eqn:Eu.
      { apply String.eqb_eq in Eu. congruence. }
      destruct (Hget (log (requestOf uid) (afterCacheRead uid w)) eq_refl)
        as (b' & w2 & o2 & H1 & H2 & H3).
      eexists _, _, _, b', w2, o2. split; [reflexivity|].
      split; [exact H1|]. split; [exact H2 | exact H3].
  - intros w0 Hb0. unfold PlaidButton.onSuccess, getItem. rewrite Hb0. reflexivity.
Qed.

End LinkButton.

Section LinkButtonExamples.
Import Formatter Cache LinkPage Props Samples MoreProps.
#[local] Existing Instance plainEngine.

(** The exchange fails while "u1" has a fresh entry: the entry is replaced
    by the empty list and the next activation asks the network again. *)
Lemma failed_exchange_wipes_page_witness :
  (render connectState = ConnectBank (JSString "tok1") /\
   exchangeFailed MergeBoth.toRecurringItems NetworkFailure) /\
  (exists b' p' w' e,
    PlaidButton.onSuccess_resume MergeBoth.toRecurringItems (Some "u1") sampleNow
      NetworkFailure PlaidButton.initialState connectState cachedWorld
      = (b', p', w') /\
    subs p' = [] /\ linkToken p' = JSNull /\
    render p' = MessageBox "No recurring transactions found." /\
    PlaidButton.isError b' = true /\
    PlaidButton.message b'
      = Some "There was an error retrieving recurring transactions." /\
    PlaidButton.loading b' = false /\
    trace w' = trace cachedWorld ++
               [ConsoleError (PlaidButton.errorName e);
                StorageSet (cacheKey (PlaidButton.idText (Some "u1")))] /\
    storage w' = writeCache (storage cachedWorld) sampleNow
                   (PlaidButton.idText (Some "u1")) []) /\
  readCache TTL_12h (storage cachedWorld) sampleNow "u1" = Some sampleItems /\
  readCache TTL_12h
    (storage (snd (PlaidButton.onSuccess_resume MergeBoth.toRecurringItems
                     (Some "u1") sampleNow NetworkFailure PlaidButton.initialState
                     connectState cachedWorld)))
    sampleNow "u1" = Some [].
Proof.
  split; [split; [reflexivity | exact I]|].
  split; [|split; reflexivity].
  exact (failed_exchange_wipes_page MergeBoth.toRecurringItems (Some "u1")
           sampleNow NetworkFailure PlaidButton.initialState connectState
           cachedWorld (JSString "tok1") eq_refl I).
Defined.

Lemma exchange_shows_and_caches_witness :
  (render connectState = ConnectBank (JSString "tok1") /\ "u1" <> "" /\
   PrimFloat.ltb TTL_12h (PrimFloat.sub (sampleNow + 1000) sampleNow) = false /\
   MergeBoth.toRecurringItems
     (getOpt (getOpt recurringDataAnswer "response_object") "data")
   = Return [spotifyItem]) /\
  exists b' p1 w1 p2 w2,
    PlaidButton.onSuccess_resume MergeBoth.toRecurringItems (Some "u1") sampleNow
      (HttpResponse true (Some recurringDataAnswer)) PlaidButton.initialState
      connectState emptyWorld = (b', p1, w1) /\
    render p1 = Subscriptions (map itemToJS [spotifyItem]) /\
    PlaidButton.message b' = PlaidButton.message PlaidButton.initialState /\
    PlaidButton.isError b' = PlaidButton.isError PlaidButton.initialState /\
    PlaidButton.loading b' = false /\
    useEffect TTL_12h (Some "u1") (sampleNow + 1000) p1 w1 = (p2, w2, Settled) /\
    subs p2 = map jsonImage (map itemToJS [spotifyItem]) /\
    List.filter isFetch (trace w2) = List.filter isFetch (trace emptyWorld).
Proof.
  assert (Hu : "u1" <> "") by discriminate.
  assert (Hne : [spotifyItem] <> []) by discriminate.
  split; [split; [reflexivity | split; [exact Hu | split; reflexivity]]|].
  exact (exchange_shows_and_caches TTL_12h MergeBoth.toRecurringItems "u1"
           sampleNow (sampleNow + 1000) recurringDataAnswer [spotifyItem]
           PlaidButton.initialState connectState emptyWorld (JSString "tok1")
           eq_refl Hu eq_refl eq_refl eq_refl eq_refl eq_refl eq_refl Hne).
Defined.

Lemma exchange_identity_witness :
  "u1" <> "" /\
  exists p1 w1 o1 b' w2 o2,
    useEffect TTL_12h (Some "u1") sampleNow initialState emptyWorld = (p1, w1, o1) /\
    PlaidButton.onSuccess sampleText None "public-1" PlaidButton.initialState w1
      = (b', w2, o2) /\
    PlaidButton.loading b' = true /\
    trace w2 = trace w1 ++ [StorageGet "user_id";
                            exchangeOf "public-1" (JSString "u1")].
Proof.
  assert (Hu : "u1" <> "") by discriminate.
  split; [exact Hu|].
  exact (proj1 (proj2 (exchange_identity TTL_12h sampleText "u1" "public-1"
                         sampleNow PlaidButton.initialState initialState
                         emptyWorld Hu eq_refl eq_refl))).
Defined.

End LinkButtonExamples.

(* ================================================================== *)
(** * The normalizer: the shape of an item                             *)
(* ================================================================== *)

Section Trim.
Import MoreProps.

Lemma trimStart_blank (m : string) : blank m = true -> trimStart m = "".
Proof.
  unfold blank, units. induction m as [|c r IH]; simpl; [reflexivity|].
  intros Hb. apply andb_true_iff in Hb as (Hc & Hr). rewrite Hc. apply IH, Hr.
Qed.

Lemma trimStart_not_blank (m : string) :
  blank m = false -> exists c r, trimStart m = String c r /\ isWhiteSpace c = false.
Proof.
  unfold blank, units. induction m as [|c r IH]; simpl; [discriminate|].
  destruct (isWhiteSpace c) eqn:Hc; simpl.
  - exact IH.
  - intros _. exists c, r. split; [reflexivity | exact Hc].
Qed.

Lemma units_rev_app (s1 s2 : string) :
  units (String.rev_app s1 s2) = rev (units s1) ++ units s2.
Proof.
  unfold units. revert s2. induction s1 as [|c r IH]; intros s2; simpl;
    [reflexivity|].
  rewrite IH. simpl. rewrite <- app_assoc. reflexivity.
Qed.

Lemma rev_app_empty (s1 s2 : string) :
  String.rev_app s1 s2 = "" -> s1 = "" /\ s2 = "".
Proof.
  revert s2. induction s1 as [|c r IH]; intros s2; simpl.
  - intros ->. split; reflexivity.
  - intros Hr. apply IH in Hr as (_ & Hr). discriminate.
Qed.

(** [trim] leaves nothing exactly of the texts of white space only. *)
Lemma trim_blank (m : string) :
  Nat.eqb (String.length (trim m)) 0 = blank m.
Proof.
  unfold trim. destruct (blank m) eqn:Hb.
  - rewrite (trimStart_blank m Hb). reflexivity.
  - destruct (trimStart_not_blank m Hb) as (c & r & -> & Hc).
    assert (Hb2 : blank (String.rev (String c r)) = false).
    { unfold blank, String.rev. rewrite units_rev_app.
      change (units (String c r)) with (c :: units r).
      change (rev (c :: units r)) with (rev (units r) ++ [c]).
      rewrite !forallb_app. cbn [forallb]. rewrite Hc.
      destruct (forallb isWhiteSpace (rev (units r))); reflexivity. }
    destruct (trimStart_not_blank _ Hb2) as (c' & r' & -> & _).
    destruct (String.rev (String c' r')) eqn:Er; [|reflexivity].
    apply rev_app_empty in Er as (Er & _). discriminate.
Qed.

End Trim.

Section ItemShape.
Import Formatter Props MoreProps.
Context `{Engine}.

Lemma pickDescription_string (s : JSValue) (m : string) :
  nullish s = false -> getOpt s "merchant_name" = JSString m ->
  pickDescription s =
  Return (if blank m then or_else (getOpt s "description") (JSString "")
          else JSString m).
Proof.
  intros Hn Hm. unfold pickDescription.
  rewrite !(get_getOpt _ _ Hn), !bind_Return, Hm. simpl.
  destruct (String.eqb m "") eqn:Em; simpl.
  - apply String.eqb_eq in Em. subst m. reflexivity.
  - rewrite trim_blank. destruct (blank m); reflexivity.
Qed.

Lemma pickDescription_falsy (s : JSValue) :
  nullish s = false -> truthy (getOpt s "merchant_name") = false ->
  pickDescription s = Return (or_else (getOpt s "description") (JSString "")).
Proof.
  intros Hn Hm. unfold pickDescription.
  rewrite !(get_getOpt _ _ Hn), !bind_Return, Hm. reflexivity.
Qed.

Lemma pickDescription_not_string (s : JSValue) :
  nullish s = false -> truthy (getOpt s "merchant_name") = true ->
  (forall m, getOpt s "merchant_name" <> JSString m) ->
  pickDescription s = Throw TypeError.
Proof.
  intros Hn Ht Hm. unfold pickDescription.
  rewrite !(get_getOpt _ _ Hn), !bind_Return, Ht.
  destruct (getOpt s "merchant_name"); try reflexivity.
  exfalso. eapply Hm. reflexivity.
Qed.

Lemma blank_empty (m : string) : blank m = false -> String.eqb m "" = false.
Proof. destruct m; [discriminate | reflexivity]. Qed.

(** Every error of [pickFields] is a TypeError. *)
Lemma pickFields_throws (s : JSValue) (e : JSError) :
  pickFields s = Throw e -> e = TypeError.
Proof.
  unfold pickFields. destruct (nullish s) eqn:Hn.
  { destruct s; simpl in Hn; try discriminate; simpl; congruence. }
  rewrite !(get_getOpt _ _ Hn), bind_Return.
  rewrite pickAmount_getOpt by exact Hn. rewrite bind_Return.
  destruct (ToNumber _) as [n|e1] eqn:H1.
  2:{ simpl. intros He. injection He as <-. eapply ToNumber_throws, H1. }
  rewrite bind_Return.
  destruct (pickDescription s) as [d|e2] eqn:H2.
  2:{ simpl. intros He. injection He as <-.
      unfold pickDescription in H2.
      rewrite !(get_getOpt _ _ Hn), !bind_Return in H2.
      destruct (truthy (getOpt s "merchant_name")).
      - destruct (getOpt s "merchant_name"); simpl in H2; try congruence.
        destruct (negb _); discriminate.
      - discriminate. }
  rewrite !bind_Return, guarded_getOpt, !bind_Return. discriminate.
Qed.

(** X20.  The description of an item: a merchant name that is a string with
    a character other than white space is taken as it is, untrimmed; with a
    merchant name that is missing, falsy or all white space the description
    of the stream is taken, or the empty text when that is falsy; and a
    merchant name that is truthy and no string makes the normalization of
    the stream throw a TypeError. *)
Theorem pickDescription_cases (s : JSValue) :
  nullish s = false ->
  (forall m, getOpt s "merchant_name" = JSString m ->
     pickDescription s =
     Return (if blank m then or_else (getOpt s "description") (JSString "")
             else JSString m)) /\
  (truthy (getOpt s "merchant_name") = false ->
     pickDescription s = Return (or_else (getOpt s "description") (JSString ""))) /\
  (truthy (getOpt s "merchant_name") = true ->
   (forall m, getOpt s "merchant_name" <> JSString m) ->
     pickDescription s = Throw TypeError /\ pickFields s = Throw TypeError).
Proof.
  intros Hn. split; [|split].
  - intros m Hm. apply pickDescription_string; assumption.
  - apply pickDescription_falsy, Hn.
  - intros Ht Hm.
    pose proof (pickDescription_not_string s Hn Ht Hm) as Hd.
    split; [exact Hd|].
    destruct (pickFields s) as [it|e] eqn:Hp.
    + apply pickFields_inv in Hp as (_ & _ & Hd' & _). congruence.
    + f_equal. eapply pickFields_throws, Hp.
Qed.

(** X21.  The shape of a normalized item: the description is the empty text
    or truthy, and each of frequency, last date, category detail and
    predicted date is [null] or truthy; none of them is [undefined], [false],
    zero, NaN or, the description apart, the empty text. *)
Theorem normalized_item_shape (s : JSValue) (it : RecurringItem) :
  pickFields s = Return it ->
  (description it = JSString "" \/ truthy (description it) = true) /\
  (frequency it = JSNull \/ truthy (frequency it) = true) /\
  (last_date it = JSNull \/ truthy (last_date it) = true) /\
  (detailed (personal_finance_category it) = JSNull \/
   truthy (detailed (personal_finance_category it)) = true) /\
  (predicted_next_date it = JSNull \/ truthy (predicted_next_date it) = true).
Proof.
  intros Hp.
  destruct (pickFields_inv s it Hp) as (Hn & _ & Hd & -> & -> & -> & ->).
  assert (Hor : forall v d, or_else v d = d \/ truthy (or_else v d) = true).
  { intros v d. unfold or_else. destruct (truthy v) eqn:Hv; [right | left];
      [exact Hv | reflexivity]. }
  split; [|repeat split; apply Hor].
  destruct (truthy (getOpt s "merchant_name")) eqn:Ht.
  - destruct (getOpt s "merchant_name") as [| |b|n|m|l|o] eqn:Hm;
      try (rewrite pickDescription_not_string in Hd;
           [discriminate | exact Hn | rewrite Hm; exact Ht |
            rewrite Hm; intros m'; discriminate]).
    rewrite (pickDescription_string s m Hn Hm) in Hd. injection Hd as <-.
    destruct (blank m) eqn:Hb; [apply Hor|].
    right. simpl. rewrite (blank_empty m Hb). reflexivity.
  - rewrite (pickDescription_falsy s Hn Ht) in Hd. injection Hd as <-. apply Hor.
Qed.

End ItemShape.

Section ItemShapeExamples.
Import Formatter Props Samples MoreProps.
#[local] Existing Instance plainEngine.

Lemma pickDescription_cases_witness :
  nullish netflix = false /\
  getOpt netflix "merchant_name" = JSString "  " /\
  pickDescription netflix = Return (JSString "NETFLIX.COM") /\
  pickDescription spotify = Return (JSString "Spotify").
Proof.
  split; [reflexivity|]. split; [reflexivity|]. split.
  - exact (proj1 (pickDescription_cases netflix eq_refl) "  " eq_refl).
  - exact (proj1 (pickDescription_cases spotify eq_refl) "Spotify" eq_refl).
Defined.

Lemma normalized_item_shape_witness :
  pickFields netflix = Return netflixItem /\
  (description netflixItem = JSString "" \/ truthy (description netflixItem) = true) /\
  (frequency netflixItem = JSNull \/ truthy (frequency netflixItem) = true) /\
  (last_date netflixItem = JSNull \/ truthy (last_date netflixItem) = true) /\
  (detailed (personal_finance_category netflixItem) = JSNull \/
   truthy (detailed (personal_finance_category netflixItem)) = true) /\
  (predicted_next_date netflixItem = JSNull \/
   truthy (predicted_next_date netflixItem) = true).
Proof.
  split; [reflexivity|].
  exact (normalized_item_shape netflix netflixItem eq_refl).
Defined.

End ItemShapeExamples.

(* ================================================================== *)
(** * The normalizer: its copies, and streams that are null            *)
(* ================================================================== *)

Section Copies.
Import Formatter Props MoreProps.
Context `{Engine}.

Lemma truthy_not_nullish (v : JSValue) : truthy v = true -> nullish v = false.
Proof. destruct v; simpl; congruence. Qed.

Lemma toRecurringItems_truthy (resp : JSValue) :
  truthy resp = true ->
  MergeBoth.toRecurringItems resp =
  (ain ← MergeBoth.active (getOpt resp "inflow_streams");
   iin ← mapM pickFields ain;
   aout ← MergeBoth.active (getOpt resp "outflow_streams");
   iout ← mapM pickFields aout;
   sort byNextDate (iin ++ iout)).
Proof.
  intros Hr. unfold MergeBoth.toRecurringItems.
  assert (Hs : or_else resp MergeBoth.emptyStreams = resp)
    by (unfold or_else; rewrite Hr; reflexivity).
  rewrite Hs. cbv zeta.
  rewrite !(get_getOpt _ _ (truthy_not_nullish _ Hr)). reflexivity.
Qed.

Lemma outflowOnly_truthy (resp : JSValue) :
  truthy resp = true ->
  OutflowOnly.toRecurringItems resp =
  (act ← filterActive (if isArray (getOpt resp "outflow_streams")
                       then getOpt resp "outflow_streams" else JSArray []);
   combined ← mapM pickFields act;
   sort byNextDate combined).
Proof.
  intros Hr. unfold OutflowOnly.toRecurringItems. rewrite Hr.
  rewrite (get_getOpt _ _ (truthy_not_nullish _ Hr)). reflexivity.
Qed.

(** X22.  The copy that reads the outflow list only and the copies that
    merge both lists give the same result on every payload whose inflow list
    has no active stream (it is missing, empty, or holds inactive streams
    only) and whose outflow list is an array or is missing. *)
Theorem copies_agree_without_inflow (resp : JSValue) :
  MergeBoth.active (getOpt resp "inflow_streams") = Return [] ->
  isArray (getOpt resp "outflow_streams") = true \/
  truthy (getOpt resp "outflow_streams") = false ->
  MergeBoth.toRecurringItems resp = OutflowOnly.toRecurringItems resp.
Proof.
  intros Hin Hout.
  destruct (truthy resp) eqn:Hr.
  - rewrite (toRecurringItems_truthy resp Hr), (outflowOnly_truthy resp Hr), Hin.
    rewrite bind_Return. simpl mapM. rewrite bind_Return.
    unfold MergeBoth.active.
    destruct Hout as [Ha|Hf].
    + rewrite Ha. destruct (getOpt resp "outflow_streams"); try discriminate.
      reflexivity.
    + unfold or_else. rewrite Hf.
      destruct (getOpt resp "outflow_streams"); try discriminate; reflexivity.
  - unfold MergeBoth.toRecurringItems, OutflowOnly.toRecurringItems, or_else.
    rewrite Hr. reflexivity.
Qed.

Lemma filterM_isActive_null (l : list JSValue) :
  Exists (fun x => nullish x = true) l -> filterM isActive l = Throw TypeError.
Proof.
  induction l as [|x l IH]; intros Hex; [inversion Hex|].
  cbn [filterM]. destruct (nullish x) eqn:Hx.
  - destruct x; simpl in Hx; try discriminate; reflexivity.
  - inversion Hex as [? ? Hx'|? ? Hl]; subst; [congruence|].
    rewrite (isActive_activeFlag x Hx), bind_Return, (IH Hl). reflexivity.
Qed.

Lemma filterActive_throws (arr : JSValue) (e : JSError) :
  filterActive arr = Throw e -> e = TypeError.
Proof.
  destruct arr as [| |b|n|s|l|o]; simpl; try congruence.
  induction l as [|x l IH]; simpl; [discriminate|].
  destruct (isActive x) as [b|e1] eqn:Hx; simpl.
  - destruct (filterM isActive l); simpl; [discriminate|].
    intros He. injection He as <-. apply IH. reflexivity.
  - intros He. injection He as <-. unfold isActive in Hx.
    destruct x; simpl in Hx; congruence.
Qed.

Lemma mapM_pickFields_throws (l : list JSValue) (e : JSError) :
  mapM pickFields l = Throw e -> e = TypeError.
Proof.
  induction l as [|x l IH]; simpl; [discriminate|].
  destruct (pickFields x) as [it|e1] eqn:Hx; simpl.
  - destruct (mapM pickFields l); simpl; [discriminate|].
    intros He. injection He as <-. apply IH. reflexivity.
  - intros He. injection He as <-. eapply pickFields_throws, Hx.
Qed.

(** X23.  A stream list is not searched for holes: an outflow list with an
    element that is [null] or [undefined] makes every copy of the formatter
    throw a TypeError, whatever else the payload holds; and the page, given
    such recurring data, ends with its error text. *)
Theorem null_stream_throws (resp : JSValue) (l : list JSValue) :
  getOpt resp "outflow_streams" = JSArray l ->
  Exists (fun x => nullish x = true) l ->
  OutflowOnly.toRecurringItems resp = Throw TypeError /\
  MergeBoth.toRecurringItems resp = Throw TypeError /\
  forall data,
    getOpt (getOpt data "response_object") "tag" = JSString "recurring_data" ->
    getOpt (getOpt data "response_object") "data" = resp ->
    failedAnswer MergeBoth.toRecurringItems (LinkPage.HttpResponse true (Some data)) /\
    failedAnswer OutflowOnly.toRecurringItems (LinkPage.HttpResponse true (Some data)).
Proof.
  intros Hout Hex.
  assert (Hr : truthy resp = true).
  { destruct resp; simpl in Hout; try discriminate. reflexivity. }
  assert (Hn : nullish resp = false) by (apply truthy_not_nullish, Hr).
  assert (H1 : OutflowOnly.toRecurringItems resp = Throw TypeError).
  { rewrite (outflowOnly_truthy resp Hr), Hout. simpl isArray. cbv iota.
    simpl filterActive. rewrite (filterM_isActive_null l Hex). reflexivity. }
  assert (H2 : MergeBoth.toRecurringItems resp = Throw TypeError).
  { rewrite (toRecurringItems_truthy resp Hr).
    destruct (MergeBoth.active (getOpt resp "inflow_streams")) as [ain|e] eqn:Ha.
    2:{ simpl. f_equal. eapply filterActive_throws, Ha. }
    rewrite bind_Return.
    destruct (mapM pickFields ain) as [iin|e] eqn:Hm.
    2:{ simpl. f_equal. eapply mapM_pickFields_throws, Hm. }
    rewrite bind_Return, Hout. unfold MergeBoth.active, or_else. simpl truthy.
    cbv iota. simpl filterActive. rewrite (filterM_isActive_null l Hex).
    reflexivity. }
  split; [exact H1|]. split; [exact H2|].
  intros data Htag Hdata. unfold failedAnswer. rewrite Hdata.
  split; (split; [exact Htag|]); eexists; eassumption.
Qed.

End Copies.

Section CopiesExamples.
Import Formatter Props Samples MoreProps.
#[local] Existing Instance plainEngine.

Lemma copies_agree_without_inflow_witness :
  MergeBoth.active (getOpt (JSObject outflowOnlyProps) "inflow_streams") = Return [] /\
  (isArray (getOpt (JSObject outflowOnlyProps) "outflow_streams") = true \/
   truthy (getOpt (JSObject outflowOnlyProps) "outflow_streams") = false) /\
  MergeBoth.toRecurringItems (JSObject outflowOnlyProps)
  = OutflowOnly.toRecurringItems (JSObject outflowOnlyProps).
Proof.
  split; [reflexivity|]. split; [left; reflexivity|].
  exact (copies_agree_without_inflow (JSObject outflowOnlyProps) eq_refl
           (or_introl eq_refl)).
Defined.

Lemma null_stream_throws_witness :
  getOpt holedPayload "outflow_streams" = JSArray [spotify; JSNull] /\
  Exists (fun x => nullish x = true) [spotify; JSNull] /\
  OutflowOnly.toRecurringItems holedPayload = Throw TypeError /\
  MergeBoth.toRecurringItems holedPayload = Throw TypeError.
Proof.
  assert (Hex : Exists (fun x => nullish x = true) [spotify; JSNull]).
  { apply Exists_cons_tl, Exists_cons_hd. reflexivity. }
  split; [reflexivity|]. split; [exact Hex|].
  pose proof (null_stream_throws holedPayload [spotify; JSNull] eq_refl Hex)
    as (H1 & H2 & _).
  split; [exact H1 | exact H2].
Defined.

End CopiesExamples.

(* ================================================================== *)
(** * What the cache keeps of a normalized item                        *)
(* ================================================================== *)

Section StableItems.
Import Formatter Cache Props MoreProps.
Context `{Engine}.

Lemma jsonImage_object (props : list (string * JSValue)) :
  jsonImage (JSObject props) = JSObject (imageProps props).
Proof. reflexivity. Qed.

Lemma imageProps_cons (k : string) (v : JSValue) (r : list (string * JSValue)) :
  v <> JSUndefined -> imageProps ((k, v) :: r) = (k, jsonImage v) :: imageProps r.
Proof. destruct v; [congruence | reflexivity..]. Qed.

Lemma imageProps_length (ps : list (string * JSValue)) :
  length (imageProps ps) <= length ps.
Proof.
  induction ps as [|[k v] r IH]; [reflexivity|].
  destruct v; cbn [imageProps length]; lia.
Qed.

(** A property of an object that JSON carries unchanged is missing or is
    itself carried unchanged. *)
Lemma jsonStable_own (props : list (string * JSValue)) (k : string) :
  jsonStable (JSObject props) ->
  own props k = JSUndefined \/ jsonStable (own props k).
Proof.
  unfold jsonStable. rewrite jsonImage_object. intros Hst. injection Hst as Hst.
  induction props as [|[k' v] r IH]; [left; reflexivity|].
  assert (Hv : jsonImage v = v /\ imageProps r = r).
  { assert (Hdec : v = JSUndefined \/ v <> JSUndefined)
      by (destruct v; first [left; reflexivity | right; discriminate]).
    destruct Hdec as [->|Hd].
    - exfalso. pose proof (imageProps_length r) as Hl.
      cbn [imageProps] in Hst. rewrite Hst in Hl. simpl in Hl. lia.
    - rewrite (imageProps_cons _ _ _ Hd) in Hst. injection Hst as Hv Hr.
      split; assumption. }
  destruct Hv as (Hv & Hr). simpl.
  destruct (String.eqb k' k); [right; exact Hv | apply IH, Hr].
Qed.

Lemma jsonStable_getOpt (v : JSValue) (k : string) :
  jsonStable v -> getOpt v k = JSUndefined \/ jsonStable (getOpt v k).
Proof.
  destruct v; try (left; reflexivity). apply jsonStable_own.
Qed.

Lemma jsonStable_or_else (v d : JSValue) :
  v = JSUndefined \/ jsonStable v -> jsonStable d -> jsonStable (or_else v d).
Proof.
  intros [->|Hv] Hd; [exact Hd|]. unfold or_else. destruct (truthy v); assumption.
Qed.

Lemma or_else_defined (v d : JSValue) :
  d <> JSUndefined -> or_else v d <> JSUndefined.
Proof.
  intros Hd. unfold or_else. destruct (truthy v) eqn:Hv; [|exact Hd].
  intros ->. discriminate.
Qed.

(** X24.  When a stream came out of JSON, has an account id, and its amount
    converts to a number that JSON carries (finite, and not minus zero), the
    normalized item is carried by JSON unchanged: it is read back from the
    cache as it was written. *)
Theorem normalized_item_json_stable (s : JSValue) (it : RecurringItem) :
  jsonStable s -> pickFields s = Return it ->
  account_id it <> JSUndefined ->
  jsonStable (JSNumber (amount (average_amount it))) ->
  jsonStable (itemToJS it).
Proof.
  intros Hs Hp Hacc Hamt.
  destruct (pickFields_inv s it Hp) as (Hn & Ha & Hd & Hf & Hl & Hc & Hx).
  assert (Hnull : jsonStable JSNull) by reflexivity.
  assert (H1 : jsonStable (account_id it)).
  { rewrite Ha in Hacc |- *.
    destruct (jsonStable_getOpt s "account_id" Hs); [congruence | assumption]. }
  assert (H2 : jsonStable (frequency it) /\ frequency it <> JSUndefined).
  { rewrite Hf. split; [apply jsonStable_or_else; [apply jsonStable_getOpt, Hs|]|
                        apply or_else_defined]; easy. }
  assert (H3 : jsonStable (last_date it) /\ last_date it <> JSUndefined).
  { rewrite Hl. split; [apply jsonStable_or_else; [apply jsonStable_getOpt, Hs|]|
                        apply or_else_defined]; easy. }
  assert (H4 : jsonStable (predicted_next_date it) /\
               predicted_next_date it <> JSUndefined).
  { rewrite Hx. split; [apply jsonStable_or_else; [apply jsonStable_getOpt, Hs|]|
                        apply or_else_defined]; easy. }
  assert (H5 : jsonStable (detailed (personal_finance_category it)) /\
               detailed (personal_finance_category it) <> JSUndefined).
  { rewrite Hc. cbv zeta. split; [|apply or_else_defined; easy].
    apply jsonStable_or_else; [|exact Hnull].
    destruct (jsonStable_getOpt s "personal_finance_category" Hs) as [Hu|Hst].
    - rewrite Hu. left. reflexivity.
    - destruct (truthy (getOpt s "personal_finance_category"));
        [apply jsonStable_getOpt, Hst | right; exact Hst]. }
  assert (H6 : jsonStable (description it) /\ description it <> JSUndefined).
  { destruct (truthy (getOpt s "merchant_name")) eqn:Ht.
    - destruct (getOpt s "merchant_name") as [| |b|n|m|l|o] eqn:Hm;
        try (rewrite pickDescription_not_string in Hd;
             [discriminate | exact Hn | rewrite Hm; exact Ht |
              rewrite Hm; intros m'; discriminate]).
      rewrite (pickDescription_string s m Hn Hm) in Hd. injection Hd as <-.
      destruct (blank m); [|split; [reflexivity | discriminate]].
      split; [apply jsonStable_or_else; [apply jsonStable_getOpt, Hs | reflexivity]|
              apply or_else_defined; discriminate].
    - rewrite (pickDescription_falsy s Hn Ht) in Hd. injection Hd as <-.
      split; [apply jsonStable_or_else; [apply jsonStable_getOpt, Hs | reflexivity]|
              apply or_else_defined; discriminate]. }
  destruct H2 as (H2 & N2), H3 as (H3 & N3), H4 as (H4 & N4),
           H5 as (H5 & N5), H6 as (H6 & N6).
  unfold jsonStable in *. unfold itemToJS.
  rewrite jsonImage_object.
  rewrite (imageProps_cons _ _ _ Hacc), H1.
  rewrite imageProps_cons by discriminate.
  rewrite (imageProps_cons _ _ _ N6), H6, (imageProps_cons _ _ _ N2), H2,
    (imageProps_cons _ _ _ N3), H3.
  rewrite imageProps_cons by discriminate.
  rewrite (imageProps_cons _ _ _ N4), H4.
  rewrite !jsonImage_object.
  rewrite !imageProps_cons by (first [discriminate | assumption]).
  rewrite Hamt, H5. reflexivity.
Qed.

End StableItems.

Section StableItemsExamples.
Import Formatter Cache Props Samples MoreProps.
#[local] Existing Instance plainEngine.

Lemma normalized_item_json_stable_witness :
  (jsonStable spotify /\ pickFields spotify = Return spotifyItem /\
   account_id spotifyItem <> JSUndefined /\
   jsonStable (JSNumber (amount (average_amount spotifyItem)))) /\
  jsonStable (itemToJS spotifyItem).
Proof.
  assert (Hacc : account_id spotifyItem <> JSUndefined) by discriminate.
  split; [split; [reflexivity | split; [reflexivity | split;
            [exact Hacc | reflexivity]]]|].
  exact (normalized_item_json_stable spotify spotifyItem eq_refl eq_refl Hacc
           eq_refl).
Defined.

(** Without an account id the item is not carried unchanged: the property
    that holds [undefined] is dropped. *)
Example item_without_account_id :
  pickFields (JSObject [("description", JSString "GYM")])
  = Return {| account_id := JSUndefined;
              average_amount := {| amount := 0 |};
              description := JSString "GYM";
              frequency := JSNull; last_date := JSNull;
              personal_finance_category := {| detailed := JSNull |};
              predicted_next_date := JSNull |} /\
  getOpt (jsonImage (itemToJS
            {| account_id := JSUndefined;
               average_amount := {| amount := 0 |};
               description := JSString "GYM";
               frequency := JSNull; last_date := JSNull;
               personal_finance_category := {| detailed := JSNull |};
               predicted_next_date := JSNull |})) "description" = JSString "GYM" /\
  ~ jsonStable (itemToJS
            {| account_id := JSUndefined;
               average_amount := {| amount := 0 |};
               description := JSString "GYM";
               frequency := JSNull; last_date := JSNull;
               personal_finance_category := {| detailed := JSNull |};
               predicted_next_date := JSNull |}).
Proof. split; [reflexivity|]. split; [reflexivity|]. discriminate. Qed.

End StableItemsExamples.

(* ================================================================== *)
(** * The configured time to live                                      *)
(* ================================================================== *)

Section ConfiguredTTL.
Import Cache Props.
Context `{Engine}.

(** X25.  The time to live taken from the environment is never NaN and never
    zero: a variable that is unset, or whose text converts to NaN or to zero,
    gives seven days, and every other text gives the number it converts to.
    So no setting makes the expiry test a comparison with NaN, which no age
    exceeds. *)
Theorem configured_ttl (env : option string) :
  PrimFloat.is_nan (Configured.CACHE_TTL_MS env) = false /\
  PrimFloat.is_zero (Configured.CACHE_TTL_MS env) = false /\
  Configured.CACHE_TTL_MS None = TTL_7d /\
  (forall s, env = Some s ->
     Configured.CACHE_TTL_MS env =
     if PrimFloat.is_zero (StringToNumber s) || PrimFloat.is_nan (StringToNumber s)
     then TTL_7d else StringToNumber s).
Proof.
  assert (Hcases : forall n,
            let t := if truthy (JSNumber n) then n else TTL_7d in
            PrimFloat.is_nan t = false /\ PrimFloat.is_zero t = false).
  { intros n. simpl.
    destruct (PrimFloat.is_zero n) eqn:Hz; simpl; [split; reflexivity|].
    destruct (PrimFloat.is_nan n) eqn:Hn; simpl; [split; reflexivity|].
    split; assumption. }
  split; [apply Hcases|]. split; [apply Hcases|]. split; [reflexivity|].
  intros s ->. unfold Configured.CACHE_TTL_MS. simpl.
  destruct (_ || _); reflexivity.
Qed.

End ConfiguredTTL.
